(** * RamadanCampaignTracker: the label-points parser, the issue normalizer
      and the filter / aggregation module (js/api.js, js/filters.js)

    A shallow embedding of the pure core of the dashboard, and the
    properties its specification states about it.

    Conventions of the embedding.
    - A JavaScript number is [NaN] or the integer that is its value;
      an integer from 2^1024 on, where the doubles end, stands for
      Infinity.  [parseInt] rounds to the nearest double as the language
      does.  The code then only adds, counts and compares: these
      operations are exact in the model, as they are in the code as long
      as the numbers stay below 2^53.
    - A string whose characters the code inspects (a label name, matched
      by a regular expression) is a list of UTF-16 code units.  A string
      that is only compared or used as a key is a [string].
    - A timestamp field of an API record is [undefined], [null] or a
      string.  What [Date.parse] makes of a string and the local time zone
      belong to the host; both are passed explicitly in a [Host].
    - A JavaScript object used as a dictionary is a [gmap]; a [Map], whose
      insertion order is observable, is an association list. *)

From Stdlib Require Import ZArith NArith Lia List String Ascii Bool.
From Stdlib Require Import Sorting.Sorted Sorting.Permutation.
From stdpp Require Import base option strings list gmap.

Local Open Scope Z_scope.

(* ================================================================== *)
(** * JavaScript values and built-ins the code relies on *)
(* ================================================================== *)

Module Js.

(** ** Numbers *)

(** [Num z] is the Number whose value is the integer [z]; from
    [Infinity] on (2^1024, see below) [z] stands for the infinite
    Number. *)
Inductive number := NaN | Num (z : Z).

(** [a + b] *)
Definition add (a b : number) : number :=
  match a, b with
  | Num x, Num y => Num (x + y)
  | _, _ => NaN
  end.

(** [a > 0], [a === 0]: every comparison with [NaN] is false. *)
Definition gt0 (a : number) : bool :=
  match a with Num x => 0 <? x | NaN => false end.

Definition is0 (a : number) : bool :=
  match a with Num x => x =? 0 | NaN => false end.

(** [a <= b] on numbers. *)
Definition le (a b : number) : Prop :=
  match a, b with
  | Num x, Num y => x <= y
  | _, _ => False
  end.

(** ** Strings as sequences of UTF-16 code units *)

Definition jstring := list N.

Fixpoint js (s : string) : jstring :=
  match s with
  | EmptyString => []
  | String a s' => N_of_ascii a :: js s'
  end.

(** [\d] *)
Definition isDigit (c : N) : bool := ((48 <=? c) && (c <=? 57))%N.

(** [\s]: WhiteSpace and LineTerminator code points. *)
Definition isSpace (c : N) : bool :=
  ((9 <=? c) && (c <=? 13) || (c =? 32) || (c =? 160) || (c =? 5760)
   || (8192 <=? c) && (c <=? 8202) || (c =? 8232) || (c =? 8233)
   || (c =? 8239) || (c =? 8287) || (c =? 12288) || (c =? 65279))%N.

(** Canonicalize of a case-insensitive, non-unicode pattern: the upper
    case of the code unit.  Only the ASCII letters are mapped here: a
    code unit from 128 on is never canonicalized to an ASCII one, so it
    cannot match a letter of the patterns below either way. *)
Definition Canonicalize (c : N) : N :=
  if ((97 <=? c) && (c <=? 122))%N then (c - 32)%N else c.

(** ** The Number value of an integer *)

(** The doubles have 53 significant bits and end below 2^1024.
    [roundTiesToEven n], for [0 <= n], is the nearest integer with 53
    significant bits, the one with an even last bit of two that are as
    near. *)
Definition roundTiesToEven (n : Z) : Z :=
  if n <? 2 ^ 53 then n
  else
    let ulp := 2 ^ (Z.log2 n - 52) in
    let q := n / ulp in
    let r := n mod ulp in
    let q := if (ulp <? 2 * r) || ((2 * r =? ulp) && Z.odd q) then q + 1 else q in
    q * ulp.

(** [Infinity], as the model has it: no double is that large. *)
Definition Infinity : Z := 2 ^ 1024.

(** The Number value of the integer [z]: it is rounded, and what rounds
    to 2^1024 or more is an infinity. *)
Definition toNumber (z : Z) : number :=
  let v := roundTiesToEven (Z.abs z) in
  Num (Z.sgn z * (if Infinity <=? v then Infinity else v)).

(** [parseInt(s, 10)]: leading white space is skipped, one sign is
    read, then the longest run of decimal digits; [NaN] without one.
    The result is the Number value of the integer that the digits
    denote.  (The language lets an implementation replace the digits
    after the 20th by zeros before it rounds; V8, SpiderMonkey and
    JavaScriptCore round the integer itself, as here.) *)
Fixpoint skipSpace (s : jstring) : jstring :=
  match s with
  | c :: s' => if isSpace c then skipSpace s' else s
  | [] => []
  end.

Fixpoint digitsValue (acc : Z) (s : jstring) : Z :=
  match s with
  | c :: s' =>
      if isDigit c then digitsValue (acc * 10 + (Z.of_N c - 48)) s' else acc
  | [] => acc
  end.

Definition startsWithDigit (s : jstring) : bool :=
  match s with c :: _ => isDigit c | [] => false end.

Definition readSign (s : jstring) : Z * jstring :=
  match s with
  | 45%N :: r => (-1, r)
  | 43%N :: r => (1, r)
  | _ => (1, s)
  end.

Definition parseInt10 (s : jstring) : number :=
  let '(sign, s2) := readSign (skipSpace s) in
  if startsWithDigit s2 then toNumber (sign * digitsValue 0 s2) else NaN.

(** ** Arrays and Maps *)

(** [a.sort(cmp)]: the sort is stable, and [cmp x y <= 0] keeps [x]
    before [y]. *)
Fixpoint insert {A : Type} (cmp : A → A → Z) (x : A) (l : list A) : list A :=
  match l with
  | [] => [x]
  | y :: l' => if cmp x y <=? 0 then x :: l else y :: insert cmp x l'
  end.

Definition sort {A : Type} (cmp : A → A → Z) (l : list A) : list A :=
  foldr (insert cmp) [] l.

(** A [Map] with string keys: the entries in insertion order.  [set]
    on a key that is present replaces the value in place. *)
Definition Map (V : Type) := list (string * V).

Fixpoint Map_get {V : Type} (k : string) (m : Map V) : option V :=
  match m with
  | [] => None
  | (k', v) :: m' => if String.eqb k k' then Some v else Map_get k m'
  end.

Definition Map_has {V : Type} (k : string) (m : Map V) : bool :=
  match Map_get k m with Some _ => true | None => false end.

Fixpoint Map_set {V : Type} (k : string) (v : V) (m : Map V) : Map V :=
  match m with
  | [] => [(k, v)]
  | (k', v') :: m' =>
      if String.eqb k k' then (k', v) :: m' else (k', v') :: Map_set k v m'
  end.

(** [Array.from(m.values())] *)
Definition Map_values {V : Type} (m : Map V) : list V := List.map snd m.

(** ** Dates *)

(** A [Date] object holds a time value, milliseconds since the epoch in
    UTC, or is invalid ([None], the time value NaN). *)
Definition Date := option Z.

Definition msPerDay : Z := 86400000.
Definition Day (t : Z) : Z := t / msPerDay.
Definition TimeWithinDay (t : Z) : Z := t mod msPerDay.

Definition TimeClip (t : Z) : Date :=
  if Z.abs t <=? 8640000000000000 then Some t else None.

(** [a >= b] and [a <= b] on Date objects compare the time values. *)
Definition Date_ge (a b : Date) : bool :=
  match a, b with
  | Some x, Some y => y <=? x
  | _, _ => false
  end.

Definition Date_le (a b : Date) : bool :=
  match a, b with
  | Some x, Some y => x <=? y
  | _, _ => false
  end.

(** The proleptic Gregorian calendar: day number from the epoch of a
    civil date ([m] from 1 to 12) and back. *)
Definition days_from_civil (y m d : Z) : Z :=
  let y' := if m <=? 2 then y - 1 else y in
  let era := y' / 400 in
  let yoe := y' - era * 400 in
  let mp := if 2 <? m then m - 3 else m + 9 in
  let doy := (153 * mp + 2) / 5 + d - 1 in
  let doe := yoe * 365 + yoe / 4 - yoe / 100 + doy in
  era * 146097 + doe - 719468.

Definition civil_from_days (n : Z) : Z * Z * Z :=
  let z := n + 719468 in
  let era := z / 146097 in
  let doe := z - era * 146097 in
  let yoe := (doe - doe / 1460 + doe / 36524 - doe / 146096) / 365 in
  let doy := doe - (365 * yoe + yoe / 4 - yoe / 100) in
  let mp := (5 * doy + 2) / 153 in
  let d := doy - (153 * mp + 2) / 5 + 1 in
  let m := if mp <? 10 then mp + 3 else mp - 9 in
  let y := yoe + era * 400 + (if m <=? 2 then 1 else 0) in
  (y, m, d).

Definition YearFromTime (t : Z) : Z := (civil_from_days (Day t)).1.1.
(** MonthFromTime counts from 0. *)
Definition MonthFromTime (t : Z) : Z := (civil_from_days (Day t)).1.2 - 1.
Definition DateFromTime (t : Z) : Z := (civil_from_days (Day t)).2.

(** [MakeDay(year, month, date)]: the day number of the first of the
    month, plus [date - 1]. *)
Definition MakeDay (year month date : Z) : Z :=
  days_from_civil (year + month / 12) (month mod 12 + 1) 1 + date - 1.

Definition MakeDate (day time : Z) : Z := day * msPerDay + time.

(** The host: what [Date.parse] returns for a string ([None] for NaN)
    and the offset of local time, [LocalTZA(t, isUTC)]. *)
Record Host := {
  Date_parse : string → option Z;
  LocalTZA : Z → bool → Z
}.

Definition LocalTime (h : Host) (t : Z) : Z := t + LocalTZA h t true.
Definition UTC (h : Host) (t : Z) : Z := t - LocalTZA h t false.

(** The value of a timestamp field. *)
Inductive field := Undefined | Null | Str (s : string).

(** Truthiness: [undefined], [null] and the empty string are falsy. *)
Definition truthy (v : field) : bool :=
  match v with
  | Str s => negb (String.eqb s EmptyString)
  | _ => false
  end.

(** [new Date(v)]: NaN for [undefined], the epoch for [null], the
    clipped parse result for a string. *)
Definition new_Date (h : Host) (v : field) : Date :=
  match v with
  | Undefined => None
  | Null => Some 0
  | Str s => t ← Date_parse h s; TimeClip t
  end.

(** [d.getDate()] and [d.setDate(dt)] work in local time. *)
Definition getDate (h : Host) (d : Date) : option Z :=
  t ← d; Some (DateFromTime (LocalTime h t)).

Definition setDate (h : Host) (d : Date) (dt : option Z) : Date :=
  t ← d; n ← dt;
  let tl := LocalTime h t in
  let newDate :=
    MakeDate (MakeDay (YearFromTime tl) (MonthFromTime tl) n)
             (TimeWithinDay tl) in
  TimeClip (UTC h newDate).

(** Decimal digits of [n], most significant first, on [w] positions. *)
Fixpoint pad (w : nat) (n : Z) : string :=
  match w with
  | O => EmptyString
  | S w' => pad w' (n / 10) +:+ String (ascii_of_N (Z.to_N (48 + n mod 10))) EmptyString
  end.

(** The date part of [toISOString()], which is what
    [.toISOString().split('T')[0]] returns: the UTC calendar day, the
    year on four digits, or signed on six outside 0..9999. *)
Definition isoDate (t : Z) : string :=
  let '(y, m, d) := civil_from_days (Day t) in
  let year :=
    if (0 <=? y) && (y <=? 9999) then pad 4 y
    else if y <? 0 then "-" +:+ pad 6 (- y)
    else "+" +:+ pad 6 y in
  year +:+ "-" +:+ pad 2 m +:+ "-" +:+ pad 2 d.

(** [d.toISOString().split('T')[0]]; an invalid date throws a
    RangeError ([None]). *)
Definition toISOString_date (d : Date) : option string :=
  t ← d; Some (isoDate t).

End Js.

(** ** Two hosts *)

Module Hosts.
Import Js.

(** The two shapes of the ECMAScript date-time string format that the
    GitHub API and the configuration use: [YYYY-MM-DD] (UTC midnight)
    and [YYYY-MM-DDTHH:mm:ssZ].  Out-of-range elements give NaN. *)
Definition digit (a : ascii) : option Z :=
  let n := Z.of_N (N_of_ascii a) in
  if (48 <=? n) && (n <=? 57) then Some (n - 48) else None.

Fixpoint decimal (acc : Z) (l : list ascii) : option Z :=
  match l with
  | [] => Some acc
  | a :: l' => d ← digit a; decimal (acc * 10 + d) l'
  end.

Definition DaysInMonth (y m : Z) : Z :=
  days_from_civil (if m =? 12 then y + 1 else y)
                  (if m =? 12 then 1 else m + 1) 1
  - days_from_civil y m 1.

Definition iso_day (ys ms ds : list ascii) : option Z :=
  y ← decimal 0 ys; m ← decimal 0 ms; d ← decimal 0 ds;
  if (1 <=? m) && (m <=? 12) && (1 <=? d) && (d <=? DaysInMonth y m)
  then Some (days_from_civil y m d) else None.

Definition iso_time (hs ns ss : list ascii) : option Z :=
  h ← decimal 0 hs; n ← decimal 0 ns; s ← decimal 0 ss;
  if (h <=? 23) && (n <=? 59) && (s <=? 59)
  then Some (((h * 60 + n) * 60 + s) * 1000) else None.

Definition isChar (a : ascii) (c : string) : bool := String.eqb (String a EmptyString) c.

Definition iso_parse (s : string) : option Z :=
  match list_ascii_of_string s with
  | [y1; y2; y3; y4; a; m1; m2; b; d1; d2] =>
      if isChar a "-" && isChar b "-" then
        day ← iso_day [y1; y2; y3; y4] [m1; m2] [d1; d2];
        Some (MakeDate day 0)
      else None
  | [y1; y2; y3; y4; a; m1; m2; b; d1; d2; t; h1; h2; c; n1; n2; e; s1; s2; z] =>
      if isChar a "-" && isChar b "-" && isChar t "T"
         && isChar c ":" && isChar e ":" && isChar z "Z" then
        day ← iso_day [y1; y2; y3; y4] [m1; m2] [d1; d2];
        time ← iso_time [h1; h2] [n1; n2] [s1; s2];
        Some (MakeDate day time)
      else None
  | _ => None
  end.

(** A host on UTC. *)
Definition utc : Host :=
  {| Date_parse := iso_parse; LocalTZA := fun _ _ => 0 |}.

(** A host on a fixed offset from UTC, in milliseconds. *)
Definition fixed (offset : Z) : Host :=
  {| Date_parse := iso_parse; LocalTZA := fun _ _ => offset |}.

(** A host on Central European Time around the start of summer time
    in 2026: UTC+1 until 2026-03-29T01:00:00Z, UTC+2 from then on.  A
    local time in the skipped hour is read with the offset before the
    transition. *)
Definition cet_transition : Z := MakeDate (days_from_civil 2026 3 29) 3600000.

Definition cet : Host :=
  {| Date_parse := iso_parse;
     LocalTZA := fun t isUTC =>
       if isUTC
       then if t <? cet_transition then 3600000 else 7200000
       else if t <? cet_transition + 7200000 then 3600000 else 7200000 |}.

End Hosts.

(** ** Regular expressions *)

(** The patterns of the code are anchored on both sides and built from
  character classes, concatenation, alternation and greedy
  quantifiers, so that [test] decides membership in a regular language;
  it is computed with derivatives. *)

Module RegExp.
Import Js.

Inductive re :=
| Void
| Eps
| Cls (p : N → bool)
| Cat (r s : re)
| Alt (r s : re)
| Star (r : re).

(** [r+] and [r?] *)
Definition Plus (r : re) : re := Cat r (Star r).
Definition Opt (r : re) : re := Alt r Eps.

(** A literal character and a literal word under the [i] flag. *)
Definition Chr_i (a : ascii) : re :=
  Cls (fun c => (Canonicalize c =? Canonicalize (N_of_ascii a))%N).

Fixpoint Lit_i (w : string) : re :=
  match w with
  | EmptyString => Eps
  | String a w' => Cat (Chr_i a) (Lit_i w')
  end.

Fixpoint nullable (r : re) : bool :=
  match r with
  | Void => false
  | Eps => true
  | Cls _ => false
  | Cat r s => nullable r && nullable s
  | Alt r s => nullable r || nullable s
  | Star _ => true
  end.

Fixpoint deriv (c : N) (r : re) : re :=
  match r with
  | Void => Void
  | Eps => Void
  | Cls p => if p c then Eps else Void
  | Cat r s =>
      if nullable r then Alt (Cat (deriv c r) s) (deriv c s)
      else Cat (deriv c r) s
  | Alt r s => Alt (deriv c r) (deriv c s)
  | Star r => Cat (deriv c r) (Star r)
  end.

(** [/^r$/.test(s)] *)
Fixpoint test (r : re) (s : jstring) : bool :=
  match s with
  | [] => nullable r
  | c :: s' => test (deriv c r) s'
  end.

(** The length of the longest prefix of [s] that [r] matches. *)
Fixpoint longest (r : re) (s : jstring) : option nat :=
  match s with
  | [] => if nullable r then Some O else None
  | c :: s' =>
      match longest (deriv c r) s' with
      | Some n => Some (S n)
      | None => if nullable r then Some O else None
      end
  end.

(** [s.match(/r/)] for an unanchored pattern that is one greedy
    quantifier over a character class: the match starts at the leftmost
    position where there is one, and is the longest one there.  The
    result is the matched substring, [match[0]], or [None] for [null]. *)
Fixpoint match_ (r : re) (s : jstring) : option jstring :=
  match longest r s with
  | Some n => Some (take n s)
  | None =>
      match s with
      | [] => None
      | _ :: s' => match_ r s'
      end
  end.

End RegExp.

(* ================================================================== *)
(** * The data model: records of the GitHub API and of the dashboard *)
(* ================================================================== *)

Module Label.
Record t := { name : Js.jstring; color : string }.
End Label.

Module User.
Record t := { login : string; avatar_url : string; html_url : string }.
End User.

Module Issue.
(** [isPR] and [points] are the fields [processIssues] derives;
    [pull_request] tells whether the raw record carries the marker. *)
Record t := {
  number : Z;
  title : string;
  state : string;
  created_at : Js.field;
  closed_at : Js.field;
  assignee : option User.t;
  labels : option (list Label.t);
  comments : Z;
  pull_request : bool;
  isPR : bool;
  points : Js.number
}.
End Issue.

Module PullRequest.
Record t := {
  number : Z;
  title : string;
  state : string;
  created_at : Js.field;
  closed_at : Js.field;
  merged_at : Js.field
}.
End PullRequest.

Module Stats.
Record t := {
  open : Z;
  closed : Z;
  assigned : Z;
  total : Z;
  points : Js.number;
  comments : Z
}.
End Stats.

Module Project.
(** [prs] may be missing; [filteredIssues] and [filteredStats] are the
    fields [applyFilters] adds. *)
Record t := {
  name : string;
  owner : string;
  repo : string;
  order : option Z;
  issues : list Issue.t;
  prs : option (list PullRequest.t);
  stats : Stats.t;
  filteredIssues : option (list Issue.t);
  filteredStats : option Stats.t
}.
End Project.

Module Filters.
Record t := {
  status : string;
  assignment : string;
  comments : string;
  points : string;
  sortBy : string;
  sortOrder : string;
  contribSort : string
}.
End Filters.

Module GlobalStats.
Record t := {
  open : Z;
  withComments : Z;
  withAssignees : Z;
  closedSince : Z;
  totalPoints : Js.number;
  collectedPoints : Js.number
}.
End GlobalStats.

Module Attributed.
(** [{ ...issue, projectName, owner, repo }] *)
Record t := {
  issue : Issue.t;
  projectName : string;
  owner : string;
  repo : string
}.
End Attributed.

Module Contributor.
Record t := {
  username : string;
  avatar_url : string;
  html_url : string;
  assignedIssues : list Attributed.t;
  closedIssuesWithPoints : list Attributed.t;
  totalPoints : Z;
  closedCount : Z;
  assignedCount : Z
}.
End Contributor.

Module DailyCounts.
Record t := {
  assigned : gmap string Z;
  closed : gmap string Z;
  merged_prs : gmap string Z;
  open_prs : gmap string Z
}.
End DailyCounts.

(* ================================================================== *)
(** * js/api.js *)
(* ================================================================== *)

Module api.
Import Js RegExp.

(** The class [[\s:-]]. *)
Definition sep (c : N) : bool := isSpace c || (c =? 58)%N || (c =? 45)%N.

(** [(points?|poins|pts)] and [(pts|points?|poins)] *)
Definition word1 : re :=
  Alt (Cat (Lit_i "point") (Opt (Chr_i "s")))
      (Alt (Lit_i "poins") (Lit_i "pts")).

Definition word2 : re :=
  Alt (Lit_i "pts")
      (Alt (Cat (Lit_i "point") (Opt (Chr_i "s"))) (Lit_i "poins")).

(** [/^(\d+)[\s:-]*(points?|poins|pts)?$/i] *)
Definition digitsFirst : re :=
  Cat (Plus (Cls isDigit)) (Cat (Star (Cls sep)) (Opt word1)).

(** [/^(pts|points?|poins)[\s:-]*(\d+)$/i] *)
Definition wordFirst : re :=
  Cat word2 (Cat (Star (Cls sep)) (Plus (Cls isDigit))).

(** [/\d+/] *)
Definition digits : re := Plus (Cls isDigit).

(** The callback of [labels.find]. *)
Definition isPointLabel (l : Label.t) : bool :=
  if test digitsFirst (Label.name l) then true
  else if test wordFirst (Label.name l) then true
  else false.

Definition parsePointsFromLabels (labels : option (list Label.t)) : number :=
  match labels with
  | None => Num 0
  | Some labels =>
      if (length labels =? 0)%nat then Num 0
      else
        match List.find isPointLabel labels with
        | None => Num 0
        | Some pointLabel =>
            match match_ digits (Label.name pointLabel) with
            | Some m => parseInt10 m
            | None => Num 0
            end
        end
  end.

(** [{ ...issue, isPR: !!issue.pull_request, points: ... }] *)
Definition process (issue : Issue.t) : Issue.t :=
  {| Issue.number := Issue.number issue;
     Issue.title := Issue.title issue;
     Issue.state := Issue.state issue;
     Issue.created_at := Issue.created_at issue;
     Issue.closed_at := Issue.closed_at issue;
     Issue.assignee := Issue.assignee issue;
     Issue.labels := Issue.labels issue;
     Issue.comments := Issue.comments issue;
     Issue.pull_request := Issue.pull_request issue;
     Issue.isPR := Issue.pull_request issue;
     Issue.points := parsePointsFromLabels (Issue.labels issue) |}.

(** The callback of the filter: a closed item is kept when it was
    closed at or after the threshold. *)
Definition retained (h : Host) (thresholdDate : Date) (issue : Issue.t) : bool :=
  if String.eqb (Issue.state issue) "closed" then
    let closedDate := new_Date h (Issue.closed_at issue) in
    Date_ge closedDate thresholdDate
  else true.

Definition processIssues (h : Host) (issues : list Issue.t)
    (thresholdDate : Date) : list Issue.t :=
  let processedIssues := List.map process issues in
  List.filter (retained h thresholdDate) processedIssues.

End api.

(* ================================================================== *)
(** * js/filters.js *)
(* ================================================================== *)

Module filters.
Import Js.

Definition defaultFilters : Filters.t :=
  {| Filters.status := "open";
     Filters.assignment := "all";
     Filters.comments := "all";
     Filters.points := "all";
     Filters.sortBy := "order";
     Filters.sortOrder := "asc";
     Filters.contribSort := "points" |}.

Definition isSome {A : Type} (o : option A) : bool :=
  match o with Some _ => true | None => false end.

(** The callback of [filterIssues]; each [if] returns [false] early. *)
Definition passes (filters : Filters.t) (issue : Issue.t) : bool :=
  let status := Filters.status filters in
  let assignment := Filters.assignment filters in
  let comments := Filters.comments filters in
  if negb (String.eqb status "all")
     && (String.eqb status "open" && negb (String.eqb (Issue.state issue) "open"))
  then false
  else if negb (String.eqb status "all")
     && (String.eqb status "closed" && negb (String.eqb (Issue.state issue) "closed"))
  then false
  else if negb (String.eqb assignment "all")
     && (String.eqb assignment "assigned" && negb (isSome (Issue.assignee issue)))
  then false
  else if negb (String.eqb assignment "all")
     && (String.eqb assignment "unassigned" && isSome (Issue.assignee issue))
  then false
  else if negb (String.eqb comments "all")
     && (String.eqb comments "has-comments" && (Issue.comments issue =? 0))
  then false
  else if negb (String.eqb comments "all")
     && (String.eqb comments "no-comments" && (0 <? Issue.comments issue))
  then false
  else if String.eqb (Filters.points filters) "has-points"
     && is0 (Issue.points issue)
  then false
  else true.

Definition filterIssues (issues : list Issue.t) (filters : Filters.t) : list Issue.t :=
  List.filter (passes filters) issues.

(** [l.filter(p).length] *)
Definition count {A : Type} (p : A → bool) (l : list A) : Z :=
  Z.of_nat (length (List.filter p l)).

(** [l.reduce((sum, i) => sum + i.points, 0)] and the same on
    [i.comments]. *)
Definition sumPoints (l : list Issue.t) : number :=
  fold_left (fun sum i => add sum (Issue.points i)) l (Num 0).

Definition sumComments (l : list Issue.t) : Z :=
  fold_left (fun sum i => sum + Issue.comments i) l 0.

Definition isOpen (i : Issue.t) : bool := String.eqb (Issue.state i) "open".
Definition isClosed (i : Issue.t) : bool := String.eqb (Issue.state i) "closed".
Definition hasAssignee (i : Issue.t) : bool := isSome (Issue.assignee i).

(** The callback of [applyFilters]:
    [{ ...project, filteredIssues, filteredStats }]. *)
Definition extend (filters : Filters.t) (project : Project.t) : Project.t :=
  let filteredIssues := filterIssues (Project.issues project) filters in
  let filteredStats :=
    {| Stats.open := count isOpen filteredIssues;
       Stats.closed := count isClosed filteredIssues;
       Stats.assigned := count hasAssignee filteredIssues;
       Stats.total := Z.of_nat (length filteredIssues);
       Stats.points := sumPoints filteredIssues;
       Stats.comments := sumComments filteredIssues |} in
  {| Project.name := Project.name project;
     Project.owner := Project.owner project;
     Project.repo := Project.repo project;
     Project.order := Project.order project;
     Project.issues := Project.issues project;
     Project.prs := Project.prs project;
     Project.stats := Project.stats project;
     Project.filteredIssues := Some filteredIssues;
     Project.filteredStats := Some filteredStats |}.

(** Project records are objects: the array that [applyFilters]
    receives holds references into a store, and the array it returns
    holds references to the records it has created.  A reference is an
    index of the store; an object is created at its end.  [None] stands
    for a reference that denotes no object, which JavaScript cannot
    produce. *)
Abbreviation ref := nat.
Abbreviation store := (list Project.t).

Fixpoint Array_map (f : Project.t → Project.t) (a : list ref) (σ : store)
    : option (list ref * store) :=
  match a with
  | [] => Some ([], σ)
  | r :: a' =>
      project ← σ !! r;
      let r' := length σ in
      '(out, σ') ← Array_map f a' (σ ++ [f project]);
      Some (r' :: out, σ')
  end.

Definition applyFilters (projects : list ref) (filters : Filters.t) (σ : store)
    : option (list ref * store) :=
  Array_map (extend filters) projects σ.

(** The callback of [closedSinceThreshold]. *)
Definition closedSince (h : Host) (thresholdDate : field) (i : Issue.t) : bool :=
  if negb (String.eqb (Issue.state i) "closed") || negb (truthy (Issue.closed_at i))
  then false
  else Date_ge (new_Date h (Issue.closed_at i)) (new_Date h thresholdDate).

Definition calculateGlobalStats (h : Host) (projects : list Project.t)
    (thresholdDate : field) : GlobalStats.t :=
  let allIssues := flat_map Project.issues projects in
  let openIssues := List.filter isOpen allIssues in
  let issuesWithComments := List.filter (fun i => 0 <? Issue.comments i) allIssues in
  let issuesWithAssignees := List.filter hasAssignee allIssues in
  let closedSinceThreshold := List.filter (closedSince h thresholdDate) allIssues in
  let totalPoints := sumPoints allIssues in
  let collectedPoints := sumPoints closedSinceThreshold in
  {| GlobalStats.open := Z.of_nat (length openIssues);
     GlobalStats.withComments := Z.of_nat (length issuesWithComments);
     GlobalStats.withAssignees := Z.of_nat (length issuesWithAssignees);
     GlobalStats.closedSince := Z.of_nat (length closedSinceThreshold);
     GlobalStats.totalPoints := totalPoints;
     GlobalStats.collectedPoints := collectedPoints |}.

(** ** The contributor leaderboard *)

Definition newContributor (assignee : User.t) : Contributor.t :=
  {| Contributor.username := User.login assignee;
     Contributor.avatar_url := User.avatar_url assignee;
     Contributor.html_url := User.html_url assignee;
     Contributor.assignedIssues := [];
     Contributor.closedIssuesWithPoints := [];
     Contributor.totalPoints := 0;
     Contributor.closedCount := 0;
     Contributor.assignedCount := 0 |}.

(** [contributor.assignedIssues.push(a); contributor.assignedCount++] *)
Definition assign (a : Attributed.t) (c : Contributor.t) : Contributor.t :=
  {| Contributor.username := Contributor.username c;
     Contributor.avatar_url := Contributor.avatar_url c;
     Contributor.html_url := Contributor.html_url c;
     Contributor.assignedIssues := Contributor.assignedIssues c ++ [a];
     Contributor.closedIssuesWithPoints := Contributor.closedIssuesWithPoints c;
     Contributor.totalPoints := Contributor.totalPoints c;
     Contributor.closedCount := Contributor.closedCount c;
     Contributor.assignedCount := Contributor.assignedCount c + 1 |}.

(** [contributor.closedIssuesWithPoints.push(a);
     contributor.totalPoints += issue.points] *)
Definition collect (a : Attributed.t) (pts : Z) (c : Contributor.t) : Contributor.t :=
  {| Contributor.username := Contributor.username c;
     Contributor.avatar_url := Contributor.avatar_url c;
     Contributor.html_url := Contributor.html_url c;
     Contributor.assignedIssues := Contributor.assignedIssues c;
     Contributor.closedIssuesWithPoints := Contributor.closedIssuesWithPoints c ++ [a];
     Contributor.totalPoints := Contributor.totalPoints c + pts;
     Contributor.closedCount := Contributor.closedCount c;
     Contributor.assignedCount := Contributor.assignedCount c |}.

(** [contributor.closedCount++] *)
Definition close (c : Contributor.t) : Contributor.t :=
  {| Contributor.username := Contributor.username c;
     Contributor.avatar_url := Contributor.avatar_url c;
     Contributor.html_url := Contributor.html_url c;
     Contributor.assignedIssues := Contributor.assignedIssues c;
     Contributor.closedIssuesWithPoints := Contributor.closedIssuesWithPoints c;
     Contributor.totalPoints := Contributor.totalPoints c;
     Contributor.closedCount := Contributor.closedCount c + 1;
     Contributor.assignedCount := Contributor.assignedCount c |}.

Definition attribute (project : Project.t) (issue : Issue.t) : Attributed.t :=
  {| Attributed.issue := issue;
     Attributed.projectName := Project.name project;
     Attributed.owner := Project.owner project;
     Attributed.repo := Project.repo project |}.

(** What the body of the inner loop does to the contributor it has
    fetched from the map.  Only a number above 0 is added to
    [totalPoints], so that the total is an integer. *)
Definition credit (h : Host) (thresholdDate : field) (project : Project.t)
    (issue : Issue.t) (contributor : Contributor.t) : Contributor.t :=
  let contributor := assign (attribute project issue) contributor in
  if String.eqb (Issue.state issue) "closed" && truthy (Issue.closed_at issue) then
    let closedDate := new_Date h (Issue.closed_at issue) in
    if Date_ge closedDate (new_Date h thresholdDate) then
      let contributor :=
        match Issue.points issue with
        | Num pts =>
            if 0 <? pts then collect (attribute project issue) pts contributor
            else contributor
        | NaN => contributor
        end in
      close contributor
    else contributor
  else contributor.

(** The body of [project.issues.forEach]. *)
Definition visit (h : Host) (thresholdDate : field) (project : Project.t)
    (contributors : Map Contributor.t) (issue : Issue.t) : Map Contributor.t :=
  match Issue.assignee issue with
  | None => contributors
  | Some assignee =>
      let username := User.login assignee in
      let contributors :=
        if negb (Map_has username contributors)
        then Map_set username (newContributor assignee) contributors
        else contributors in
      match Map_get username contributors with
      | Some contributor =>
          Map_set username (credit h thresholdDate project issue contributor)
                  contributors
      | None => contributors
      end
  end.

Definition collectContributors (h : Host) (projects : list Project.t)
    (thresholdDate : field) : Map Contributor.t :=
  fold_left
    (fun contributors project =>
       fold_left (visit h thresholdDate project) (Project.issues project)
                 contributors)
    projects [].

(** [sortBy] is [None] when the argument is left out. *)
Definition buildContributorLeaderboard (h : Host) (projects : list Project.t)
    (thresholdDate : field) (sortBy : option string) : list Contributor.t :=
  let sortBy := default "points" sortBy in
  let contributors := collectContributors h projects thresholdDate in
  let leaderboard := Map_values contributors in
  if String.eqb sortBy "points" then
    sort (fun a b => Contributor.totalPoints b - Contributor.totalPoints a) leaderboard
  else if String.eqb sortBy "closed" then
    sort (fun a b => Contributor.closedCount b - Contributor.closedCount a) leaderboard
  else if String.eqb sortBy "assigned" then
    sort (fun a b => Contributor.assignedCount b - Contributor.assignedCount a) leaderboard
  else leaderboard.

(** ** The daily counts *)

(** A call returns, throws the RangeError of [toISOString] on an
    invalid date, or is still running when the fuel is spent. *)
Inductive outcome (A : Type) :=
| Returns (a : A)
| Throws
| OutOfFuel.
Arguments Returns {A} a.
Arguments Throws {A}.
Arguments OutOfFuel {A}.

Definition bind {A B : Type} (m : outcome A) (f : A → outcome B) : outcome B :=
  match m with
  | Returns a => f a
  | Throws => Throws
  | OutOfFuel => OutOfFuel
  end.

Notation "x <- m ;; k" := (bind m (fun x => k))
  (at level 100, m at next level, right associativity).

(** [a.forEach(f)] with a body that may throw. *)
Fixpoint forEach {A S : Type} (f : S → A → outcome S) (a : list A) (s : S)
    : outcome S :=
  match a with
  | [] => Returns s
  | x :: a' => s' <- f s x ;; forEach f a' s'
  end.

(** [new Date(v).toISOString().split('T')[0]] *)
Definition dateOf (h : Host) (v : field) : outcome string :=
  match toISOString_date (new_Date h v) with
  | Some s => Returns s
  | None => Throws
  end.

(** [if (m[dateStr] !== undefined) m[dateStr]++].  The keys are date
    strings, none of which names a property that an object inherits. *)
Definition bump (dateStr : string) (m : gmap string Z) : gmap string Z :=
  match m !! dateStr with
  | Some n => <[dateStr := n + 1]> m
  | None => m
  end.

Definition emptyCounts : DailyCounts.t :=
  {| DailyCounts.assigned := ∅;
     DailyCounts.closed := ∅;
     DailyCounts.merged_prs := ∅;
     DailyCounts.open_prs := ∅ |}.

(** The body of the [while] loop sets the four entries of the day. *)
Definition initDay (dateStr : string) (data : DailyCounts.t) : DailyCounts.t :=
  {| DailyCounts.assigned := <[dateStr := 0]> (DailyCounts.assigned data);
     DailyCounts.closed := <[dateStr := 0]> (DailyCounts.closed data);
     DailyCounts.merged_prs := <[dateStr := 0]> (DailyCounts.merged_prs data);
     DailyCounts.open_prs := <[dateStr := 0]> (DailyCounts.open_prs data) |}.

(** [while (curr <= end) { ...; curr.setDate(curr.getDate() + 1) }] *)
Fixpoint initDays (h : Host) (fuel : nat) (curr end_ : Date)
    (data : DailyCounts.t) : outcome DailyCounts.t :=
  match fuel with
  | O => OutOfFuel
  | S fuel' =>
      if Date_le curr end_ then
        match toISOString_date curr with
        | None => Throws
        | Some dateStr =>
            let data := initDay dateStr data in
            let curr := setDate h curr (d ← getDate h curr; Some (d + 1)) in
            initDays h fuel' curr end_ data
        end
      else Returns data
  end.

Definition onAssigned (f : gmap string Z → gmap string Z) (data : DailyCounts.t) :=
  {| DailyCounts.assigned := f (DailyCounts.assigned data);
     DailyCounts.closed := DailyCounts.closed data;
     DailyCounts.merged_prs := DailyCounts.merged_prs data;
     DailyCounts.open_prs := DailyCounts.open_prs data |}.

Definition onClosed (f : gmap string Z → gmap string Z) (data : DailyCounts.t) :=
  {| DailyCounts.assigned := DailyCounts.assigned data;
     DailyCounts.closed := f (DailyCounts.closed data);
     DailyCounts.merged_prs := DailyCounts.merged_prs data;
     DailyCounts.open_prs := DailyCounts.open_prs data |}.

Definition onMergedPrs (f : gmap string Z → gmap string Z) (data : DailyCounts.t) :=
  {| DailyCounts.assigned := DailyCounts.assigned data;
     DailyCounts.closed := DailyCounts.closed data;
     DailyCounts.merged_prs := f (DailyCounts.merged_prs data);
     DailyCounts.open_prs := DailyCounts.open_prs data |}.

Definition onOpenPrs (f : gmap string Z → gmap string Z) (data : DailyCounts.t) :=
  {| DailyCounts.assigned := DailyCounts.assigned data;
     DailyCounts.closed := DailyCounts.closed data;
     DailyCounts.merged_prs := DailyCounts.merged_prs data;
     DailyCounts.open_prs := f (DailyCounts.open_prs data) |}.

(** The body of [project.issues.forEach]. *)
Definition countIssue (h : Host) (data : DailyCounts.t) (issue : Issue.t)
    : outcome DailyCounts.t :=
  data <- (if truthy (Issue.created_at issue) then
             dateStr <- dateOf h (Issue.created_at issue) ;;
             Returns (onAssigned (bump dateStr) data)
           else Returns data) ;;
  if String.eqb (Issue.state issue) "closed" && truthy (Issue.closed_at issue) then
    dateStr <- dateOf h (Issue.closed_at issue) ;;
    Returns (onClosed (bump dateStr) data)
  else Returns data.

(** The body of [project.prs.forEach]. *)
Definition countPr (h : Host) (data : DailyCounts.t) (pr : PullRequest.t)
    : outcome DailyCounts.t :=
  dateCreated <- dateOf h (PullRequest.created_at pr) ;;
  if String.eqb (PullRequest.state pr) "closed" && truthy (PullRequest.closed_at pr) then
    dateClosed <- dateOf h (PullRequest.closed_at pr) ;;
    Returns (onMergedPrs (bump dateClosed) data)
  else if String.eqb (PullRequest.state pr) "open" then
    Returns (onOpenPrs (bump dateCreated) data)
  else Returns data.

(** The body of [projects.forEach]. *)
Definition countProject (h : Host) (data : DailyCounts.t) (project : Project.t)
    : outcome DailyCounts.t :=
  data <- forEach (countIssue h) (Project.issues project) data ;;
  match Project.prs project with
  | Some prs => forEach (countPr h) prs data
  | None => Returns data
  end.

Definition calculateDailyCounts (h : Host) (fuel : nat) (projects : list Project.t)
    (startDateStr endDateStr : string) : outcome DailyCounts.t :=
  let start := new_Date h (Str startDateStr) in
  let end_ := new_Date h (Str endDateStr) in
  let curr := start in
  data <- initDays h fuel curr end_ emptyCounts ;;
  forEach (countProject h) projects data.

End filters.

(* ================================================================== *)
(** * The specification's own words *)
(* ================================================================== *)

Module spec.
Import Js.

Fixpoint takeWhile {A : Type} (p : A → bool) (l : list A) : list A :=
  match l with
  | x :: l' => if p x then x :: takeWhile p l' else []
  | [] => []
  end.

Fixpoint dropWhile {A : Type} (p : A → bool) (l : list A) : list A :=
  match l with
  | x :: l' => if p x then dropWhile p l' else l
  | [] => []
  end.

(** ** Points of a label set *)

(** The point words; case is not significant. *)
Definition pointWords : list string := ["points"; "point"; "poins"; "pts"].

Definition sameWord (w : jstring) (w0 : string) : Prop :=
  List.map Canonicalize w = List.map Canonicalize (js w0).

Definition isPointWord (w : jstring) : Prop :=
  ∃ w0, In w0 pointWords ∧ sameWord w w0.

(** A numeric value: a non-empty run of decimal digits. *)
Definition isNumeric (ds : jstring) : Prop :=
  ds ≠ [] ∧ Forall (fun c => isDigit c = true) ds.

(** A separator: any run of white space, colons and hyphens. *)
Definition isSeparator (ss : jstring) : Prop :=
  Forall (fun c => isSpace c = true ∨ c = 58%N ∨ c = 45%N) ss.

(** Pattern (a): a numeric value, optionally followed by a point word. *)
Definition numberThenWord (name : jstring) : Prop :=
  ∃ ds ss w, name = ds ++ ss ++ w ∧ isNumeric ds ∧ isSeparator ss
             ∧ (w = [] ∨ isPointWord w).

(** Pattern (b): a point word followed by a numeric value. *)
Definition wordThenNumber (name : jstring) : Prop :=
  ∃ w ss ds, name = w ++ ss ++ ds ∧ isPointWord w ∧ isSeparator ss
             ∧ isNumeric ds.

Definition matching (l : Label.t) : Prop :=
  numberThenWord (Label.name l) ∨ wordThenNumber (Label.name l).

(** The first run of digits of a name, and its value in base 10. *)
Definition firstDigits (name : jstring) : jstring :=
  takeWhile isDigit (dropWhile (fun c => negb (isDigit c)) name).

Definition decimal (ds : jstring) : Z :=
  fold_left (fun acc c => 10 * acc + (Z.of_N c - 48)) ds 0.

(** The first matching label determines the result; 0 without one. *)
Inductive points : list Label.t → Z → Prop :=
| points_first pre l post :
    (∀ l', In l' pre → ¬ matching l') →
    matching l →
    points (pre ++ l :: post) (decimal (firstDigits (Label.name l)))
| points_none ls :
    (∀ l, In l ls → ¬ matching l) →
    points ls 0.

(** ** The contributor leaderboard *)

(** The usernames of the assignees, issue by issue. *)
Definition assignees (issues : list Issue.t) : list string :=
  omap (fun i => User.login <$> Issue.assignee i) issues.

Definition assignedTo (username : string) (i : Issue.t) : bool :=
  match Issue.assignee i with
  | Some a => String.eqb (User.login a) username
  | None => false
  end.

(** The order of first encounter: each name once, where it appears
    first. *)
Fixpoint firstOccurrences (l : list string) : list string :=
  match l with
  | [] => []
  | x :: l' => x :: List.filter (fun y => negb (String.eqb y x)) (firstOccurrences l')
  end.

(** The key that a sort order selects. *)
Definition sortKey (sortBy : string) : option (Contributor.t → Z) :=
  if String.eqb sortBy "points" then Some Contributor.totalPoints
  else if String.eqb sortBy "closed" then Some Contributor.closedCount
  else if String.eqb sortBy "assigned" then Some Contributor.assignedCount
  else None.

(** Every issue with the project it belongs to, in the order of the
    two nested loops. *)
Definition attributed (projects : list Project.t) : list Attributed.t :=
  flat_map (fun p => List.map (filters.attribute p) (Project.issues p)) projects.

Definition sum {A : Type} (f : A → Z) (l : list A) : Z :=
  fold_right (fun x s => f x + s) 0 l.

End spec.

(* ================================================================== *)
(** * Sample data *)
(* ================================================================== *)

Module sample.
Import Js.

Definition label (name : string) : Label.t :=
  {| Label.name := js name; Label.color := "ededed" |}.

Definition user (login : string) : User.t :=
  {| User.login := login;
     User.avatar_url := "https://avatars.githubusercontent.com/" +:+ login;
     User.html_url := "https://github.com/" +:+ login |}.

(** A raw issue as the API delivers it; [isPR] and [points] are not
    derived yet. *)
Definition issue (number : Z) (state : string) (created_at closed_at : field)
    (assignee : option string) (labels : list string) : Issue.t :=
  {| Issue.number := number;
     Issue.title := EmptyString;
     Issue.state := state;
     Issue.created_at := created_at;
     Issue.closed_at := closed_at;
     Issue.assignee := user <$> assignee;
     Issue.labels := Some (label <$> labels);
     Issue.comments := 0;
     Issue.pull_request := false;
     Issue.isPR := false;
     Issue.points := NaN |}.

Definition pr (number : Z) (state : string) (created_at closed_at merged_at : field)
    : PullRequest.t :=
  {| PullRequest.number := number;
     PullRequest.title := EmptyString;
     PullRequest.state := state;
     PullRequest.created_at := created_at;
     PullRequest.closed_at := closed_at;
     PullRequest.merged_at := merged_at |}.

(** The project record that [fetchAllProjectsData] builds from the
    processed issues and the pull requests. *)
Definition project (name : string) (issues : list Issue.t)
    (prs : option (list PullRequest.t)) : Project.t :=
  {| Project.name := name;
     Project.owner := "owner";
     Project.repo := name;
     Project.order := None;
     Project.issues := issues;
     Project.prs := prs;
     Project.stats :=
       {| Stats.open := filters.count filters.isOpen issues;
          Stats.closed := filters.count filters.isClosed issues;
          Stats.assigned := filters.count filters.hasAssignee issues;
          Stats.total := Z.of_nat (length issues);
          Stats.points := filters.sumPoints issues;
          Stats.comments := filters.sumComments issues |};
     Project.filteredIssues := None;
     Project.filteredStats := None |}.

(** The scenario of the specification. *)
Definition issue1 : Issue.t :=
  issue 1 "open" (Str "2026-02-01") Null None ["50pts"].
Definition issue2 : Issue.t :=
  issue 2 "closed" (Str "2026-01-01") (Str "2026-01-15") None [].

(** A closed issue whose closing timestamp is absent. *)
Definition closedUndated : Issue.t :=
  issue 3 "closed" (Str "2026-01-01") Null None [].

(** A tracked repository with five issues and three pull requests,
    normalized with the threshold of the campaign. *)
Definition threshold : field := Str "2026-01-30".

Definition raw : list Issue.t :=
  [ issue 1 "open" (Str "2026-02-01T09:00:00Z") Null (Some "amal") ["5 pts"];
    issue 2 "closed" (Str "2026-02-02T09:00:00Z") (Str "2026-02-10T12:00:00Z")
          (Some "badr") ["10 points"];
    issue 3 "closed" (Str "2026-02-02T10:00:00Z") (Str "2026-02-12T12:00:00Z")
          (Some "chadi") ["bug"; "10"];
    issue 4 "open" (Str "2026-02-03T09:00:00Z") Null None [];
    issue 5 "closed" (Str "2026-02-03T10:00:00Z") (Str "2026-02-15T08:30:00Z")
          (Some "amal") ["pts-3"] ].

Definition pulls : list PullRequest.t :=
  [ pr 6 "closed" (Str "2026-02-04T09:00:00Z") (Str "2026-02-10T10:00:00Z")
       (Str "2026-02-10T10:00:00Z");
    pr 7 "closed" (Str "2026-02-05T09:00:00Z") (Str "2026-02-10T18:00:00Z") Null;
    pr 8 "open" (Str "2026-02-06T09:00:00Z") Null Null ].

Definition tracker : Project.t :=
  project "tracker"
    (api.processIssues Hosts.utc raw (new_Date Hosts.utc threshold))
    (Some pulls).

(** A project with three open and two closed issues. *)
Definition mixed : Project.t :=
  project "mixed"
    (List.map api.process
       [ issue 1 "open" (Str "2026-02-01") Null None [];
         issue 2 "closed" (Str "2026-02-01") (Str "2026-02-03") None [];
         issue 3 "open" (Str "2026-02-02") Null (Some "amal") ["5 pts"];
         issue 4 "closed" (Str "2026-02-02") (Str "2026-02-04") None [];
         issue 5 "open" (Str "2026-02-03") Null None [] ])
    None.

(** A project with an issue and a pull request that were created on
    30 March 2026. *)
Definition lastDay : Project.t :=
  project "tracker"
    [issue 9 "open" (Str "2026-03-30T10:00:00Z") Null None []]
    (Some [pr 10 "open" (Str "2026-03-30T11:00:00Z") Null Null]).

End sample.

(* ================================================================== *)
(** * Notions used to state and prove the properties *)
(* ================================================================== *)

Module aux.
Import Js filters.

(** ** Sorting *)

(** The comparison function [(a, b) => key(b) - key(a)]. *)
Definition descending {A : Type} (key : A → Z) (a b : A) : Z := key b - key a.

Definition sameKey {A : Type} (key : A → Z) (v : Z) (a : A) : bool :=
  key a =? v.

(** ** The contributor leaderboard *)

Abbreviation item := (Project.t * Issue.t)%type.

(** The issues with their projects, in the order of the two loops. *)
Definition items (projects : list Project.t) : list item :=
  flat_map (fun p => List.map (pair p) (Project.issues p)) projects.

Definition visitItem (h : Host) (thresholdDate : field)
    (contributors : Map Contributor.t) (x : item) : Map Contributor.t :=
  visit h thresholdDate x.1 contributors x.2.

(** What the loop body does to the entry of one username. *)
Definition bucketStep (h : Host) (thresholdDate : field) (k : string)
    (oc : option Contributor.t) (x : item) : option Contributor.t :=
  match Issue.assignee x.2 with
  | Some a =>
      if String.eqb (User.login a) k
      then Some (credit h thresholdDate x.1 x.2 (default (newContributor a) oc))
      else oc
  | None => oc
  end.

(** The entry of a username after the loops: absent when no issue is
    assigned to it; otherwise it holds the issues assigned to it, in
    order, and their number. *)
Definition bucketOk (k : string) (l : list item) (oc : option Contributor.t)
    : Prop :=
  match oc with
  | Some c =>
      Contributor.username c = k
      ∧ Contributor.assignedIssues c
        = List.map (fun x : item => attribute x.1 x.2)
            (List.filter (fun x : item => spec.assignedTo k x.2) l)
      ∧ Contributor.assignedCount c
        = Z.of_nat (length (Contributor.assignedIssues c))
      ∧ 1 <= Contributor.assignedCount c
  | None => List.filter (fun x : item => spec.assignedTo k x.2) l = []
  end.

(** ** The daily counts *)

(** A host whose local time is at a constant offset from UTC. *)
Definition fixedOffset (h : Host) : Prop :=
  ∃ offset, ∀ t isUTC, LocalTZA h t isUTC = offset.

(** The date string of the day number [d]. *)
Definition dayString (d : Z) : string := isoDate (MakeDate d 0).

(** The day numbers from [d] on, [n] of them. *)
Fixpoint daysFrom (d : Z) (n : nat) : list Z :=
  match n with
  | O => []
  | S n' => d :: daysFrom (d + 1) n'
  end.

(** The days of the range from [d0] to [d1], both included. *)
Definition daysOfRange (d0 d1 : Z) : list Z :=
  daysFrom d0 (Z.to_nat (d1 - d0 + 1)).

Definition initAll (days : list Z) (data : DailyCounts.t) : DailyCounts.t :=
  fold_left (fun data d => initDay (dayString d) data) days data.

(** The keys of a mapping are the date strings of the days of the
    range. *)
Definition keysAre (d0 d1 : Z) (m : gmap string Z) : Prop :=
  ∀ k, k ∈ dom m ↔ ∃ d, d0 <= d <= d1 ∧ k = dayString d.

(** A pull request that the loop counts on the day [k]: it is closed
    and its closing timestamp falls on that day. *)
Definition closedOn (h : Host) (k : string) (pr : PullRequest.t) : bool :=
  String.eqb (PullRequest.state pr) "closed"
  && truthy (PullRequest.closed_at pr)
  && bool_decide
       (toISOString_date (new_Date h (PullRequest.closed_at pr)) = Some k).

Definition allPrs (projects : list Project.t) : list PullRequest.t :=
  flat_map (fun p => default [] (Project.prs p)) projects.

(** The dates that the loops format are valid. *)
Definition datedIssue (h : Host) (i : Issue.t) : bool :=
  (negb (truthy (Issue.created_at i))
   || isSome (new_Date h (Issue.created_at i)))
  && (negb (String.eqb (Issue.state i) "closed" && truthy (Issue.closed_at i))
      || isSome (new_Date h (Issue.closed_at i))).

Definition datedPr (h : Host) (pr : PullRequest.t) : bool :=
  isSome (new_Date h (PullRequest.created_at pr))
  && (negb (String.eqb (PullRequest.state pr) "closed"
            && truthy (PullRequest.closed_at pr))
      || isSome (new_Date h (PullRequest.closed_at pr))).

Definition datedProject (h : Host) (p : Project.t) : bool :=
  forallb (datedIssue h) (Project.issues p)
  && forallb (datedPr h) (default [] (Project.prs p)).

(** The four mappings have the same key sets in [data] and [data']. *)
Definition sameKeys (data data' : DailyCounts.t) : Prop :=
  dom (DailyCounts.assigned data') = dom (DailyCounts.assigned data)
  ∧ dom (DailyCounts.closed data') = dom (DailyCounts.closed data)
  ∧ dom (DailyCounts.merged_prs data') = dom (DailyCounts.merged_prs data)
  ∧ dom (DailyCounts.open_prs data') = dom (DailyCounts.open_prs data).

Definition allZero (data : DailyCounts.t) : Prop :=
  ∀ k n, DailyCounts.merged_prs data !! k = Some n → n = 0.

(** ** The store of project records *)

(** The records that the references of an array denote. *)
Fixpoint reads (σ : store) (a : list ref) : list Project.t :=
  match a with
  | [] => []
  | r :: a' =>
      match σ !! r with
      | Some p => p :: reads σ a'
      | None => reads σ a'
      end
  end.

(** The filtered statistics of the records that the references of an
    array denote. *)
Definition statsOf (σ : store) (a : list ref) : list (option Stats.t) :=
  List.map (fun r => p ← σ !! r; Project.filteredStats p) a.

(** Every reference of the array denotes a record of the store. *)
Definition valid (σ : store) (a : list ref) : Prop :=
  ∀ r, In r a → (r < length σ)%nat.

End aux.

(* ================================================================== *)
(** * js/config.js and the request headers of js/api.js *)
(* ================================================================== *)

Module config.
Import Js.

(** [localStorage]: string keys to string values. *)
Abbreviation Storage := (gmap string jstring).

(** [s.trim()]: white space and line terminators are removed at both
    ends. *)
Definition trim (s : jstring) : jstring :=
  rev (skipSpace (rev (skipSpace s))).

(** A string is truthy when it is not empty. *)
Definition nonEmpty (s : jstring) : bool :=
  match s with [] => false | _ :: _ => true end.

(** [get GITHUB_TOKEN()]: [localStorage.getItem('github_token') || ''] *)
Definition GITHUB_TOKEN (ls : Storage) : jstring :=
  match ls !! "github_token" with
  | Some v => if nonEmpty v then v else []
  | None => []
  end.

(** [set GITHUB_TOKEN(value)]; [None] is a value that is [null] or
    [undefined]. *)
Definition set_GITHUB_TOKEN (value : option jstring) (ls : Storage) : Storage :=
  match value with
  | Some v =>
      if nonEmpty v && nonEmpty (trim v)
      then <["github_token" := trim v]> ls
      else delete "github_token" ls
  | None => delete "github_token" ls
  end.

(** [hasToken()]: [!!this.GITHUB_TOKEN] *)
Definition hasToken (ls : Storage) : bool := nonEmpty (GITHUB_TOKEN ls).

(** [clearToken()] *)
Definition clearToken (ls : Storage) : Storage := delete "github_token" ls.

(** [getHeaders()] of js/api.js: the [Accept] header, and the
    [Authorization] header when the token has a character that is not
    white space. *)
Definition getHeaders (ls : Storage) : gmap string jstring :=
  let headers := {[ "Accept" := js "application/vnd.github.v3+json" ]} in
  if nonEmpty (GITHUB_TOKEN ls) && nonEmpty (trim (GITHUB_TOKEN ls))
  then <["Authorization" := js "Bearer " ++ GITHUB_TOKEN ls]> headers
  else headers.

End config.

(* ================================================================== *)
(** * js/api.js: the projects built from the answers of the API *)
(* ================================================================== *)

Module Settings.
Record t := { thresholdDate : Js.field; perPage : Z }.
End Settings.

Module ProjectConfig.
(** An entry of [projects.json]. *)
Record t := {
  owner : string;
  repo : string;
  name : string;
  order : option Z
}.
End ProjectConfig.

Module fetch.
Import Js api filters.

(** What the API answers.  [issuesOf owner repo perPage] is the
    result of [fetchProjectIssues], the empty array when the request
    fails; [pullsOf owner repo perPage] is the array of the pulls
    request, [None] when the request fails or its status is not ok. *)
Record Network := {
  issuesOf : string → string → Z → list Issue.t;
  pullsOf : string → string → Z → option (list PullRequest.t)
}.

(** The callback of the filter on the pull requests. *)
Definition retainedPr (h : Host) (thresholdDate : Date) (pr : PullRequest.t)
    : bool :=
  if String.eqb (PullRequest.state pr) "closed" then
    let closedDate := new_Date h (PullRequest.closed_at pr) in
    Date_ge closedDate thresholdDate
  else true.

(** The body of [projects.map(async (project) => ...)]. *)
Definition fetchProject (net : Network) (h : Host) (settings : Settings.t)
    (thresholdDate : Date) (project : ProjectConfig.t) : Project.t :=
  let owner := ProjectConfig.owner project in
  let repo := ProjectConfig.repo project in
  let issuesResponse := issuesOf net owner repo (Settings.perPage settings) in
  let processedIssues := processIssues h issuesResponse thresholdDate in
  let issuesOnly := List.filter (fun i => negb (Issue.isPR i)) processedIssues in
  let prsOnly :=
    match pullsOf net owner repo (Settings.perPage settings) with
    | Some prsRaw => List.filter (retainedPr h thresholdDate) prsRaw
    | None => []
    end in
  let openCount := count isOpen issuesOnly in
  let closedCount := count isClosed issuesOnly in
  let assignedCount := count hasAssignee issuesOnly in
  let totalPoints := sumPoints issuesOnly in
  let commentsCount := sumComments issuesOnly in
  {| Project.name := ProjectConfig.name project;
     Project.owner := owner;
     Project.repo := repo;
     Project.order := ProjectConfig.order project;
     Project.issues := issuesOnly;
     Project.prs := Some prsOnly;
     Project.stats :=
       {| Stats.open := openCount;
          Stats.closed := closedCount;
          Stats.assigned := assignedCount;
          Stats.total := Z.of_nat (length issuesOnly);
          Stats.points := totalPoints;
          Stats.comments := commentsCount |};
     Project.filteredIssues := None;
     Project.filteredStats := None |}.

(** The array that [Promise.all] resolves to, in the order of the
    configuration. *)
Definition fetchAllProjectsData (net : Network) (h : Host)
    (projects : list ProjectConfig.t) (settings : Settings.t) : list Project.t :=
  let thresholdDate := new_Date h (Settings.thresholdDate settings) in
  List.map (fetchProject net h settings thresholdDate) projects.

End fetch.

(* ================================================================== *)
(** * js/filters.js: the order and the visibility of the projects *)
(* ================================================================== *)

Module ordering.
Import Js filters.

(** [a - b] *)
Definition sub (a b : number) : number :=
  match a, b with
  | Num x, Num y => Num (x - y)
  | _, _ => NaN
  end.

(** What [sort] makes of the result of a comparison function: NaN
    counts as 0. *)
Definition verdict (v : number) : Z :=
  match v with Num z => z | NaN => 0 end.

(** [p.filteredStats?.f ?? p.stats.f] *)
Definition stat {A : Type} (f : Stats.t → A) (p : Project.t) : A :=
  match Project.filteredStats p with
  | Some s => f s
  | None => f (Project.stats p)
  end.

(** [aVal] of the [switch]; the case [name] returns before. *)
Definition sortValue (sortBy : string) (a : Project.t) : number :=
  if String.eqb sortBy "order" then Num (default 999 (Project.order a))
  else if String.eqb sortBy "points" then stat Stats.points a
  else if String.eqb sortBy "issues" then Num (stat Stats.total a)
  else if String.eqb sortBy "closed" then Num (stat Stats.closed a)
  else Num (default 999 (Project.order a)).

(** The comparison function of [sortProjects].  [localeCompare] is
    [(x, y) => x.localeCompare(y, 'ar')], which the host provides. *)
Definition compare (localeCompare : string → string → Z)
    (sortBy sortOrder : string) (a b : Project.t) : Z :=
  if String.eqb sortBy "name" then
    if String.eqb sortOrder "asc"
    then localeCompare (Project.name a) (Project.name b)
    else localeCompare (Project.name b) (Project.name a)
  else
    let aVal := sortValue sortBy a in
    let bVal := sortValue sortBy b in
    verdict (if String.eqb sortOrder "asc" then sub aVal bVal else sub bVal aVal).

(** [[...projects].sort(...)] *)
Definition sortProjects (localeCompare : string → string → Z)
    (projects : list Project.t) (sortBy sortOrder : string) : list Project.t :=
  sort (compare localeCompare sortBy sortOrder) projects.

(** The callback of [getVisibleProjects]. *)
Definition visible (p : Project.t) : bool := 0 <? stat Stats.total p.

Definition getVisibleProjects (projects : list Project.t) : list Project.t :=
  List.filter visible projects.

End ordering.

(* ================================================================== *)
(** * js/app.js: the handlers of the page *)
(* ================================================================== *)

Module app.
Import Js filters.

(** An entry of the list of a day: an issue or a pull request with the
    repository it belongs to. *)
Inductive subject := AnIssue (i : Issue.t) | APull (pr : PullRequest.t).

Record item := { issue : subject; owner : string; repo : string }.

Definition mkItem (s : subject) (project : Project.t) : item :=
  {| issue := s; owner := Project.owner project; repo := Project.repo project |}.

(** The body of [project.issues.forEach] in [handleDayClick]. *)
Definition dayIssue (h : Host) (date type : string) (project : Project.t)
    (items : list item) (issue : Issue.t) : outcome (list item) :=
  if String.eqb type "assigned" then
    if truthy (Issue.created_at issue) then
      issueDate <- dateOf h (Issue.created_at issue) ;;
      if String.eqb issueDate date
      then Returns (items ++ [mkItem (AnIssue issue) project])
      else Returns items
    else Returns items
  else if String.eqb type "closed" then
    if String.eqb (Issue.state issue) "closed" && truthy (Issue.closed_at issue) then
      issueDate <- dateOf h (Issue.closed_at issue) ;;
      if String.eqb issueDate date
      then Returns (items ++ [mkItem (AnIssue issue) project])
      else Returns items
    else Returns items
  else Returns items.

(** The body of [project.prs.forEach] in [handleDayClick]. *)
Definition dayPr (h : Host) (date type : string) (project : Project.t)
    (items : list item) (pr : PullRequest.t) : outcome (list item) :=
  if String.eqb type "merged_prs" then
    if String.eqb (PullRequest.state pr) "closed" && truthy (PullRequest.closed_at pr) then
      prDate <- dateOf h (PullRequest.closed_at pr) ;;
      if String.eqb prDate date
      then Returns (items ++ [mkItem (APull pr) project])
      else Returns items
    else Returns items
  else if String.eqb type "open_prs" then
    if String.eqb (PullRequest.state pr) "open" then
      prDate <- dateOf h (PullRequest.created_at pr) ;;
      if String.eqb prDate date
      then Returns (items ++ [mkItem (APull pr) project])
      else Returns items
    else Returns items
  else Returns items.

(** The body of [state.projects.forEach] in [handleDayClick]. *)
Definition dayProject (h : Host) (date type : string) (items : list item)
    (project : Project.t) : outcome (list item) :=
  items <- (if String.eqb type "assigned" || String.eqb type "closed"
            then forEach (dayIssue h date type project) (Project.issues project) items
            else Returns items) ;;
  if String.eqb type "merged_prs" || String.eqb type "open_prs" then
    match Project.prs project with
    | Some prs => forEach (dayPr h date type project) prs items
    | None => Returns items
    end
  else Returns items.

(** [handleDayClick(date, type)]: the items that it hands to
    [showDayActivity]. *)
Definition handleDayClick (h : Host) (projects : list Project.t)
    (date type : string) : outcome (list item) :=
  forEach (dayProject h date type) projects [].

(** [handleProjectToggle(projectId)] on [state.expandedProjects]. *)
Definition handleProjectToggle (projectId : string) (expandedProjects : gset string)
    : gset string :=
  if bool_decide (projectId ∈ expandedProjects)
  then expandedProjects ∖ {[projectId]}
  else expandedProjects ∪ {[projectId]}.

End app.

(* ================================================================== *)
(** * The groups of pull requests (js/ui.js, in js/api.js) *)
(* ================================================================== *)

Module Group.
(** [{ projectName, owner, repo, prs }] *)
Record t := {
  projectName : string;
  owner : string;
  repo : string;
  prs : list PullRequest.t
}.
End Group.

Module ui.
Import Js.

(** [filters.prStatus || 'all'] *)
Definition prStatusOf (prStatus : option string) : string :=
  match prStatus with
  | Some (String c s) => String c s
  | _ => "all"
  end.

(** The callback of [project.prs.filter]. *)
Definition keep (prStatus : string) (pr : PullRequest.t) : bool :=
  if String.eqb prStatus "all" then true
  else if String.eqb prStatus "open" then String.eqb (PullRequest.state pr) "open"
  else if String.eqb prStatus "closed" then String.eqb (PullRequest.state pr) "closed"
  else true.

(** The number that a [Date] stands for in a subtraction. *)
Definition valueOf (d : Date) : number :=
  match d with Some t => Num t | None => NaN end.

(** [(a, b) => new Date(b.created_at) - new Date(a.created_at)] *)
Definition byDate (h : Host) (a b : PullRequest.t) : Z :=
  ordering.verdict
    (ordering.sub (valueOf (new_Date h (PullRequest.created_at b)))
                  (valueOf (new_Date h (PullRequest.created_at a)))).

(** The body of [projects.forEach] in [renderPRsLeaderboard], on
    [projectGroups]. *)
Definition pushGroup (h : Host) (prStatus : string) (projectGroups : list Group.t)
    (project : Project.t) : list Group.t :=
  match Project.prs project with
  | Some prs =>
      let filteredPRs := List.filter (keep prStatus) prs in
      if 0 <? Z.of_nat (length filteredPRs) then
        let filteredPRs := sort (byDate h) filteredPRs in
        projectGroups
          ++ [ {| Group.projectName := Project.name project;
                  Group.owner := Project.owner project;
                  Group.repo := Project.repo project;
                  Group.prs := filteredPRs |} ]
      else projectGroups
  | None => projectGroups
  end.

(** The groups that [renderPRsLeaderboard(projects, filters, ...)]
    builds and then renders, [prStatus] being [filters.prStatus]. *)
Definition projectGroups (h : Host) (projects : list Project.t)
    (prStatus : option string) : list Group.t :=
  fold_left (pushGroup h (prStatusOf prStatus)) projects [].

End ui.

(* ================================================================== *)
(** * The points parser on the values it may be given (js/api.js) *)
(* ================================================================== *)

(** [api.parsePointsFromLabels] is the parser on what its documentation
  gives it, an array of label objects.  JavaScript does not check
  that: here is the same function on an array that may hold anything,
  with the [TypeError] that a property access on [null] or a call of
  what is no function throws. *)
Module untyped.
Import Js RegExp api.

(** A call returns a value or throws a [TypeError]. *)
Inductive completion (A : Type) :=
| Normal (a : A)
| TypeError.
Arguments Normal {A} a.
Arguments TypeError {A}.

(** The value of a [name] property, as the function sees it: a
    string, or a value that is no string.  Of the latter only the
    string that the conversion [ToString] makes of it counts
    (["undefined"] for a property that is missing, ["5"] for the number
    5), [None] when the conversion throws; it has no [match] method. *)
Inductive name :=
| Text (s : jstring)
| Other (shown : option jstring).

(** An element of the array: [null] or [undefined], or any other value
    with its [name] property (missing on a value that is no object). *)
Inductive element :=
| Nullish
| Labelled (n : name).

(** [ToString] of the argument of [test]. *)
Definition shown (n : name) : completion jstring :=
  match n with
  | Text s => Normal s
  | Other (Some s) => Normal s
  | Other None => TypeError
  end.

(** The callback of [labels.find]: [l.name] throws on [null] and
    [undefined]. *)
Definition isPointLabel (l : element) : completion bool :=
  match l with
  | Nullish => TypeError
  | Labelled n =>
      match shown n with
      | Normal s =>
          if test digitsFirst s then Normal true
          else if test wordFirst s then Normal true
          else Normal false
      | TypeError => TypeError
      end
  end.

(** [labels.find(callback)]: the elements are visited in order up to
    the first for which the callback returns [true]. *)
Fixpoint find (labels : list element) : completion (option element) :=
  match labels with
  | [] => Normal None
  | l :: labels' =>
      match isPointLabel l with
      | Normal true => Normal (Some l)
      | Normal false => find labels'
      | TypeError => TypeError
      end
  end.

(** The argument, as JSON data may have it: a value that is falsy or
    has no truthy [length] ([undefined], [null], a boolean, a number,
    the empty string, an object without that property); an array; or a
    value with a truthy [length] that is no array (a string that is not
    empty, an object with that property), which has no [find] method. *)
Inductive argument :=
| Absent
| Elements (labels : list element)
| Lengthy.

Definition parsePointsFromLabels (labels : argument) : completion number :=
  match labels with
  | Absent => Normal (Num 0)
  | Lengthy => TypeError
  | Elements labels =>
      if (length labels =? 0)%nat then Normal (Num 0)
      else
        match find labels with
        | Normal None => Normal (Num 0)
        | Normal (Some pointLabel) =>
            match pointLabel with
            | Labelled (Text s) =>
                match match_ digits s with
                | Some m => Normal (parseInt10 m)
                | None => Normal (Num 0)
                end
            | _ => TypeError
            end
        | TypeError => TypeError
        end
  end.

(** An array of label objects as an array of values. *)
Definition ofLabel (l : Label.t) : element := Labelled (Text (Label.name l)).

Definition ofLabels (labels : option (list Label.t)) : argument :=
  match labels with
  | Some labels => Elements (List.map ofLabel labels)
  | None => Absent
  end.

End untyped.

(* ================================================================== *)
(** * Further notions used to state the properties *)
(* ================================================================== *)

Module aux2.
Import Js filters.

(** A comparison of names for the examples: the order of the code
    units. *)
Definition codeUnitCompare (x y : string) : Z :=
  match String.compare x y with
  | Lt => -1
  | Eq => 0
  | Gt => 1
  end.

(** ** The filter *)

(** No value of the filters is one that a predicate recognises. *)
Definition inert (f : Filters.t) : Prop :=
  Filters.status f ≠ "open" ∧ Filters.status f ≠ "closed"
  ∧ Filters.assignment f ≠ "assigned" ∧ Filters.assignment f ≠ "unassigned"
  ∧ Filters.comments f ≠ "has-comments" ∧ Filters.comments f ≠ "no-comments"
  ∧ Filters.points f ≠ "has-points".

(** The filters that select everything. *)
Definition allFilters : Filters.t :=
  {| Filters.status := "all";
     Filters.assignment := "all";
     Filters.comments := "all";
     Filters.points := "all";
     Filters.sortBy := "order";
     Filters.sortOrder := "asc";
     Filters.contribSort := "points" |}.

(** The filtered statistics that [applyFilters] derives for a project. *)
Definition filteredStatsOf (f : Filters.t) (p : Project.t) : Stats.t :=
  default (Project.stats p) (Project.filteredStats (extend f p)).

(** ** The order of the projects *)

(** The number that a sort order other than [name] compares. *)
Definition sortKey (sortBy : string) (p : Project.t) : Z :=
  ordering.verdict (ordering.sortValue sortBy p).

(** ** The leaderboard *)


(** What the loop keeps true of every contributor. *)
Definition contributorOk (c : Contributor.t) : Prop :=
  0 <= Contributor.closedCount c <= Contributor.assignedCount c
  ∧ Z.of_nat (length (Contributor.closedIssuesWithPoints c))
    <= Contributor.closedCount c
  ∧ Z.of_nat (length (Contributor.closedIssuesWithPoints c))
    <= Contributor.totalPoints c
  ∧ ∀ a, In a (Contributor.closedIssuesWithPoints c) →
         In a (Contributor.assignedIssues c).

(** ** The daily counts *)

(** An issue that the loop counts as assigned, or as closed, on the
    day [k], and a pull request that it counts as open. *)
Definition createdOn (h : Host) (k : string) (i : Issue.t) : bool :=
  truthy (Issue.created_at i)
  && bool_decide (toISOString_date (new_Date h (Issue.created_at i)) = Some k).

Definition issueClosedOn (h : Host) (k : string) (i : Issue.t) : bool :=
  String.eqb (Issue.state i) "closed"
  && truthy (Issue.closed_at i)
  && bool_decide (toISOString_date (new_Date h (Issue.closed_at i)) = Some k).

Definition openOn (h : Host) (k : string) (pr : PullRequest.t) : bool :=
  String.eqb (PullRequest.state pr) "open"
  && bool_decide
       (toISOString_date (new_Date h (PullRequest.created_at pr)) = Some k).

(** The mapping that a type of the heatmap shows. *)
Definition bucket (type : string) (data : DailyCounts.t)
    : option (gmap string Z) :=
  if String.eqb type "assigned" then Some (DailyCounts.assigned data)
  else if String.eqb type "closed" then Some (DailyCounts.closed data)
  else if String.eqb type "merged_prs" then Some (DailyCounts.merged_prs data)
  else if String.eqb type "open_prs" then Some (DailyCounts.open_prs data)
  else None.

(** Between [data] and [data'] the entries of the day [k], where there
    are any, have advanced by [a], [c], [m] and [o]. *)
Definition shifted (k : string) (a c m o : Z) (data data' : DailyCounts.t)
    : Prop :=
  DailyCounts.assigned data' !! k
  = (fun n => n + a) <$> (DailyCounts.assigned data !! k)
  ∧ DailyCounts.closed data' !! k
    = (fun n => n + c) <$> (DailyCounts.closed data !! k)
  ∧ DailyCounts.merged_prs data' !! k
    = (fun n => n + m) <$> (DailyCounts.merged_prs data !! k)
  ∧ DailyCounts.open_prs data' !! k
    = (fun n => n + o) <$> (DailyCounts.open_prs data !! k).

(** Every entry of the four mappings is 0. *)
Definition allZeros (data : DailyCounts.t) : Prop :=
  ∀ k n,
    DailyCounts.assigned data !! k = Some n
    ∨ DailyCounts.closed data !! k = Some n
    ∨ DailyCounts.merged_prs data !! k = Some n
    ∨ DailyCounts.open_prs data !! k = Some n →
    n = 0.

(** The issues or pull requests of a project that the heatmap of
    [type] counts on the day [date], as items of the list of the day. *)
Definition picked (h : Host) (date type : string) (p : Project.t)
    : list app.item :=
  if String.eqb type "assigned" then
    List.map (fun i => app.mkItem (app.AnIssue i) p)
      (List.filter (createdOn h date) (Project.issues p))
  else if String.eqb type "closed" then
    List.map (fun i => app.mkItem (app.AnIssue i) p)
      (List.filter (issueClosedOn h date) (Project.issues p))
  else if String.eqb type "merged_prs" then
    List.map (fun pr => app.mkItem (app.APull pr) p)
      (List.filter (aux.closedOn h date) (default [] (Project.prs p)))
  else if String.eqb type "open_prs" then
    List.map (fun pr => app.mkItem (app.APull pr) p)
      (List.filter (openOn h date) (default [] (Project.prs p)))
  else [].

(** ** The token *)

(** A string that does not begin with white space. *)
Definition headOk (s : jstring) : Prop :=
  match s with [] => True | c :: _ => isSpace c = false end.

(** ** The groups of pull requests *)

(** The time at which a pull request was created. *)
Definition createdTime (h : Host) (pr : PullRequest.t) : Z :=
  ordering.verdict (ui.valueOf (new_Date h (PullRequest.created_at pr))).

(** The group of a project that has pull requests to show. *)
Definition groupOf (h : Host) (prStatus : string) (p : Project.t)
    (prs : list PullRequest.t) : Group.t :=
  {| Group.projectName := Project.name p;
     Group.owner := Project.owner p;
     Group.repo := Project.repo p;
     Group.prs := sort (ui.byDate h) (List.filter (ui.keep prStatus) prs) |}.

(** ** The points parser *)

(** An element on which the callback of [find] throws, or that it
    selects although its name has no [match] method. *)
Definition faulty (e : untyped.element) : Prop :=
  match e with
  | untyped.Nullish => True
  | untyped.Labelled (untyped.Text _) => False
  | untyped.Labelled (untyped.Other None) => True
  | untyped.Labelled (untyped.Other (Some s)) =>
      RegExp.test api.digitsFirst s = true ∨ RegExp.test api.wordFirst s = true
  end.

End aux2.

Module sample2.
Import Js.

(** The answers of the API for the repository of the examples; any
    other request fails. *)
Definition network : fetch.Network :=
  {| fetch.issuesOf := fun owner repo _ =>
       if String.eqb owner "owner" && String.eqb repo "tracker"
       then sample.raw else [];
     fetch.pullsOf := fun owner repo _ =>
       if String.eqb owner "owner" && String.eqb repo "tracker"
       then Some sample.pulls else None |}.

Definition settings : Settings.t :=
  {| Settings.thresholdDate := sample.threshold; Settings.perPage := 100 |}.

Definition configs : list ProjectConfig.t :=
  [ {| ProjectConfig.owner := "owner"; ProjectConfig.repo := "tracker";
       ProjectConfig.name := "tracker"; ProjectConfig.order := Some 1 |};
    {| ProjectConfig.owner := "owner"; ProjectConfig.repo := "missing";
       ProjectConfig.name := "missing"; ProjectConfig.order := None |} ].

Definition fetched : list Project.t :=
  fetch.fetchAllProjectsData network Hosts.utc configs settings.

(** A project with an issue whose creation timestamp is no date. *)
Definition undated : Project.t :=
  sample.project "tracker"
    [sample.issue 9 "open" (Str "soon") Null None []] None.

(** A label name of 309 digits and a point word. *)
Definition huge : string :=
  String.concat EmptyString (repeat "9" 309) +:+ " pts".

(** A project with two pull requests that were closed on 30 March
    2026, one merged and one not. *)
Definition closedLastDay : Project.t :=
  sample.project "tracker" []
    (Some [ sample.pr 11 "closed" (Str "2026-03-29T09:00:00Z")
              (Str "2026-03-30T10:00:00Z") (Str "2026-03-30T10:00:00Z");
            sample.pr 12 "closed" (Str "2026-03-29T12:00:00Z")
              (Str "2026-03-30T18:00:00Z") Null ]).

End sample2.

(* ================================================================== *)
(** * The Number value of an integer *)
(* ================================================================== *)

Section Rounding.
Import Js.

Lemma roundTiesToEven_exact n : n <= 2 ^ 53 → roundTiesToEven n = n.
Proof.
  intros Hn. unfold roundTiesToEven.
  destruct (Z.ltb_spec n (2 ^ 53)) as [|Hge]; [reflexivity|].
  assert (n = 2 ^ 53) as -> by lia. vm_compute. reflexivity.
Qed.

(** What the rounding of a number of at least 54 bits works with. *)
Lemma ulp_spec n :
  2 ^ 53 <= n →
  let ulp := 2 ^ (Z.log2 n - 52) in
  2 <= ulp ∧ 2 ^ 52 * ulp <= n < 2 ^ 53 * ulp.
Proof.
  intros Hn ulp.
  assert (H53 : 53 <= Z.log2 n).
  { apply Z.log2_le_pow2; lia. }
  destruct (Z.log2_spec n ltac:(lia)) as [Hlo Hhi].
  assert (E1 : 2 ^ Z.log2 n = 2 ^ 52 * ulp).
  { unfold ulp. rewrite <- Z.pow_add_r by lia. f_equal. lia. }
  assert (E2 : 2 ^ Z.succ (Z.log2 n) = 2 ^ 53 * ulp).
  { unfold ulp. rewrite <- Z.pow_add_r by lia. f_equal. lia. }
  rewrite E1 in Hlo. rewrite E2 in Hhi. split; [|lia].
  unfold ulp. change 2 with (2 ^ 1) at 1.
  apply Z.pow_le_mono_r; lia.
Qed.

Lemma roundTiesToEven_nonneg n : 0 <= n → 0 <= roundTiesToEven n.
Proof.
  intros Hn. unfold roundTiesToEven.
  destruct (Z.ltb_spec n (2 ^ 53)) as [|Hge]; [done|].
  destruct (ulp_spec n Hge) as [Hu _].
  set (ulp := 2 ^ (Z.log2 n - 52)) in *.
  assert (0 <= n / ulp) by (apply Z.div_pos; lia).
  destruct (_ || _); nia.
Qed.

Lemma roundTiesToEven_overflow n :
  0 <= n →
  Infinity <= roundTiesToEven n ↔ 2 ^ 1024 - 2 ^ 970 <= n.
Proof.
  intros Hn. unfold roundTiesToEven, Infinity.
  destruct (Z.ltb_spec n (2 ^ 53)) as [Hlt|Hge].
  { assert (2 ^ 53 < 2 ^ 1024 - 2 ^ 970) by (vm_compute; reflexivity).
    assert (2 ^ 53 < 2 ^ 1024) by (vm_compute; reflexivity). lia. }
  destruct (ulp_spec n Hge) as [Hu [Hlo Hhi]].
  assert (H53 : 53 <= Z.log2 n) by (apply Z.log2_le_pow2; lia).
  set (ulp := 2 ^ (Z.log2 n - 52)) in *.
  assert (Hq : 2 ^ 52 <= n / ulp < 2 ^ 53).
  { split; [apply Z.div_le_lower_bound | apply Z.div_lt_upper_bound]; lia. }
  pose proof (Z.div_mod n ulp ltac:(lia)) as Hdiv.
  pose proof (Z.mod_pos_bound n ulp ltac:(lia)) as Hr.
  set (q := n / ulp) in *. set (r := n mod ulp) in *.
  set (q' := if (ulp <? 2 * r) || ((2 * r =? ulp) && Z.odd q) then q + 1 else q).
  assert (Hq' : q <= q' <= q + 1) by (unfold q'; destruct (_ || _); lia).
  destruct (Z.lt_trichotomy (Z.log2 n) 1023) as [Hl | [He | Hg]].
  - (* at most 1023 bits *)
    assert (Hule : ulp <= 2 ^ 970) by (apply Z.pow_le_mono_r; lia).
    assert (E : 2 ^ 53 * 2 ^ 970 = 2 ^ 1023) by (vm_compute; reflexivity).
    assert (2 ^ 1023 < 2 ^ 1024 - 2 ^ 970) by (vm_compute; reflexivity).
    assert (2 ^ 1023 < 2 ^ 1024) by (vm_compute; reflexivity).
    assert (q' * ulp <= 2 ^ 53 * 2 ^ 970).
    { apply Z.mul_le_mono_nonneg; lia. }
    assert (2 ^ 53 * ulp <= 2 ^ 53 * 2 ^ 970).
    { apply Z.mul_le_mono_nonneg_l; lia. }
    lia.
  - (* 1024 bits *)
    assert (Eu : ulp = 2 ^ 971) by (unfold ulp; rewrite He; reflexivity).
    assert (Hodd : q = 2 ^ 53 - 1 → Z.odd q = true) by (by intros ->).
    unfold q' in *. clearbody q r. clear q'. rewrite Eu in *. clear Eu ulp.
    change (2 ^ 1024) with (2 ^ 53 * 2 ^ 971).
    change (2 ^ 970) with (2 ^ 971 / 2).
    remember (2 ^ 971) as U eqn:HU.
    assert (HU2 : U = 2 * (U / 2)) by (subst U; vm_compute; reflexivity).
    clear HU. remember (U / 2) as H eqn:HH. clear HH.
    change (2 ^ 52) with 4503599627370496 in *.
    change (2 ^ 53) with 9007199254740992 in *.
    destruct (Z.eq_dec q (9007199254740992 - 1)) as [Hq53 | Hq53].
    + rewrite (Hodd Hq53) in *. rewrite andb_true_r in *. subst q.
      destruct (Z.ltb_spec U (2 * r)), (Z.eqb_spec (2 * r) U);
        cbn [orb] in *; lia.
    + assert (U * q <= U * (9007199254740992 - 2))
        by (apply Z.mul_le_mono_nonneg_l; lia).
      destruct (_ || _); lia.
  - (* more than 1024 bits *)
    assert (Hule : 2 ^ 972 <= ulp) by (apply Z.pow_le_mono_r; lia).
    assert (E : 2 ^ 52 * 2 ^ 972 = 2 ^ 1024) by (vm_compute; reflexivity).
    assert (0 < 2 ^ 970) by (vm_compute; reflexivity).
    assert (2 ^ 52 * 2 ^ 972 <= q' * ulp).
    { apply Z.mul_le_mono_nonneg; lia. }
    assert (2 ^ 52 * 2 ^ 972 <= 2 ^ 52 * ulp).
    { apply Z.mul_le_mono_nonneg_l; lia. }
    fold q'. lia.
Qed.

Lemma toNumber_exact z : Z.abs z <= 2 ^ 53 → toNumber z = Num z.
Proof.
  intros Hz. unfold toNumber. rewrite roundTiesToEven_exact by done.
  assert (2 ^ 53 < Infinity) by (vm_compute; reflexivity).
  destruct (Z.leb_spec Infinity (Z.abs z)); [lia|].
  f_equal. lia.
Qed.

(** The Number value of a natural number: it is not negative, and it is
    Infinity from 2^1024 - 2^970 on, half way between the largest double
    and 2^1024. *)
Lemma toNumber_nonneg z :
  0 <= z →
  ∃ v, toNumber z = Num v ∧ 0 <= v <= Infinity
       ∧ (v = Infinity ↔ 2 ^ 1024 - 2 ^ 970 <= z).
Proof.
  intros Hz. unfold toNumber. rewrite (Z.abs_eq z Hz).
  pose proof (roundTiesToEven_nonneg z Hz) as Hr.
  pose proof (roundTiesToEven_overflow z Hz) as Ho.
  assert (Hinf : 0 < Infinity) by (vm_compute; reflexivity).
  assert (Hb : 0 < 2 ^ 1024 - 2 ^ 970) by (vm_compute; reflexivity).
  destruct (Z.eq_dec z 0) as [-> | Hne].
  - exists 0. split; [reflexivity|]. split; [lia|]. split; [lia|].
    intros H. exfalso. lia.
  - replace (Z.sgn z) with 1 by (symmetry; apply Z.sgn_pos; lia).
    destruct (Z.leb_spec Infinity (roundTiesToEven z)) as [Hge | Hlt].
    + exists Infinity. split; [f_equal; lia|]. split; [lia|].
      split; [intros _; by apply Ho | done].
    + exists (roundTiesToEven z). split; [f_equal; lia|]. split; [lia|].
      split; [intros E; lia | intros H; apply Ho in H; lia].
Qed.

End Rounding.

(* ================================================================== *)
(** * Properties of the built-ins *)
(* ================================================================== *)

Section Calendar.
Import Js aux.

(** What [civil_from_days] computes from the day of the 400-year era:
    the year of the era, the day of the year counted from 1 March, the
    month counted from March and the day of the month are in range. *)
Lemma era_day_range doe :
  0 <= doe < 146097 →
  let yoe := (doe - doe / 1460 + doe / 36524 - doe / 146096) / 365 in
  let doy := doe - (365 * yoe + yoe / 4 - yoe / 100) in
  let mp := (5 * doy + 2) / 153 in
  let d := doy - (153 * mp + 2) / 5 + 1 in
  0 <= yoe <= 399 ∧ 0 <= doy <= 365 ∧ 0 <= mp <= 11 ∧ 1 <= d <= 31.
Proof.
  intros H. cbv zeta.
  assert (Hy : 0 <= (doe - doe / 1460 + doe / 36524 - doe / 146096) / 365 <= 399
               ∧ 0 <= doe - (365 * ((doe - doe / 1460 + doe / 36524 - doe / 146096) / 365)
                             + (doe - doe / 1460 + doe / 36524 - doe / 146096) / 365 / 4
                             - (doe - doe / 1460 + doe / 36524 - doe / 146096) / 365 / 100)
                 <= 365).
  { Z.div_mod_to_equations. lia. }
  destruct Hy as [Hy Hdoy]. split; [exact Hy|]. split; [exact Hdoy|].
  revert Hdoy. generalize (doe - (365 * ((doe - doe / 1460 + doe / 36524 - doe / 146096) / 365)
                             + (doe - doe / 1460 + doe / 36524 - doe / 146096) / 365 / 4
                             - (doe - doe / 1460 + doe / 36524 - doe / 146096) / 365 / 100)).
  intros doy Hdoy. Z.div_mod_to_equations. lia.
Qed.

Lemma era_day doe n :
  doe = n + 719468 - (n + 719468) / 146097 * 146097 → 0 <= doe < 146097.
Proof. intros ->. Z.div_mod_to_equations. lia. Qed.

(** The civil date of a day number is a date of the calendar, and
    [days_from_civil] maps it back. *)
Lemma civil_from_days_range n :
  let '(y, m, d) := civil_from_days n in 1 <= m <= 12 ∧ 1 <= d <= 31.
Proof.
  unfold civil_from_days.
  set (doe := n + 719468 - (n + 719468) / 146097 * 146097).
  pose proof (era_day_range doe (era_day doe n eq_refl)) as (_ & _ & Hmp & Hd).
  cbv zeta in *. split; [|exact Hd].
  match goal with |- context [?a <? 10] => destruct (Z.ltb_spec a 10) end; lia.
Qed.

Lemma days_from_civil_from_days n :
  let '(y, m, d) := civil_from_days n in days_from_civil y m d = n.
Proof.
  unfold civil_from_days.
  set (era := (n + 719468) / 146097).
  set (doe := n + 719468 - era * 146097).
  pose proof (era_day_range doe (era_day doe n eq_refl)) as (Hy & _ & Hmp & _).
  cbv zeta in *.
  set (yoe := (doe - doe / 1460 + doe / 36524 - doe / 146096) / 365) in *.
  set (doy := doe - (365 * yoe + yoe / 4 - yoe / 100)) in *.
  set (mp := (5 * doy + 2) / 153) in *.
  set (d := doy - (153 * mp + 2) / 5 + 1) in *.
  set (m := if mp <? 10 then mp + 3 else mp - 9) in *.
  assert (Hm : (if 2 <? m then m - 3 else m + 9) = mp).
  { subst m. destruct (Z.ltb_spec mp 10).
    - destruct (Z.ltb_spec 2 (mp + 3)); lia.
    - destruct (Z.ltb_spec 2 (mp - 9)); lia. }
  unfold days_from_civil.
  assert (Hyear : (if m <=? 2 then yoe + era * 400 + (if m <=? 2 then 1 else 0) - 1
                   else yoe + era * 400 + (if m <=? 2 then 1 else 0))
                  = yoe + era * 400).
  { destruct (m <=? 2); lia. }
  rewrite Hyear, Hm.
  assert (He : (yoe + era * 400) / 400 = era).
  { rewrite Z.div_add by lia. rewrite Z.div_small by lia. lia. }
  rewrite He. replace (yoe + era * 400 - era * 400) with yoe by lia.
  subst d doy doe. lia.
Qed.

(** The year on a day number that a time value can have. *)
Lemma civil_year_range n :
  -100000000 <= n <= 100000000 →
  -1000000 < (civil_from_days n).1.1 < 1000000.
Proof.
  intros Hn. unfold civil_from_days.
  set (era := (n + 719468) / 146097).
  set (doe := n + 719468 - era * 146097).
  pose proof (era_day_range doe (era_day doe n eq_refl)) as (Hy & _).
  cbv zeta in *. simpl fst.
  assert (-700 <= era <= 700).
  { subst era. split.
    - apply Z.div_le_lower_bound; lia.
    - apply Z.div_le_upper_bound; lia. }
  destruct (_ <=? 2); lia.
Qed.

End Calendar.

Section DateStrings.
Import Js aux.

(** The digit that [pad] writes for [k]. *)
Local Abbreviation dig k := (ascii_of_N (Z.to_N (48 + k mod 10))).

Lemma dig_code k : N_of_ascii (dig k) = Z.to_N (48 + k mod 10).
Proof.
  apply N_ascii_embedding.
  pose proof (Z.mod_pos_bound k 10 ltac:(lia)). lia.
Qed.

Lemma dig_inj a b : dig a = dig b → a mod 10 = b mod 10.
Proof.
  intros H. apply (f_equal N_of_ascii) in H. rewrite !dig_code in H.
  pose proof (Z.mod_pos_bound a 10 ltac:(lia)).
  pose proof (Z.mod_pos_bound b 10 ltac:(lia)). lia.
Qed.

Lemma dig_not_sign k : dig k ≠ "-"%char ∧ dig k ≠ "+"%char.
Proof.
  split; intros H; apply (f_equal N_of_ascii) in H; rewrite dig_code in H;
    pose proof (Z.mod_pos_bound k 10 ltac:(lia)); simpl in H; lia.
Qed.

Lemma Day_range t :
  Z.abs t <= 8640000000000000 → -100000000 <= Day t <= 100000000.
Proof.
  intros H. unfold Day, msPerDay. split.
  - apply Z.div_le_lower_bound; lia.
  - apply Z.div_le_upper_bound; lia.
Qed.

Lemma two_digits a b :
  0 <= a < 100 → 0 <= b < 100 →
  (a / 10) mod 10 = (b / 10) mod 10 → a mod 10 = b mod 10 → a = b.
Proof. intros. Z.div_mod_to_equations. lia. Qed.

Lemma four_digits a b :
  0 <= a < 10000 → 0 <= b < 10000 →
  (a / 10 / 10 / 10) mod 10 = (b / 10 / 10 / 10) mod 10 →
  (a / 10 / 10) mod 10 = (b / 10 / 10) mod 10 →
  (a / 10) mod 10 = (b / 10) mod 10 → a mod 10 = b mod 10 → a = b.
Proof. intros. Z.div_mod_to_equations. lia. Qed.

Lemma six_digits a b :
  0 <= a < 1000000 → 0 <= b < 1000000 →
  (a / 10 / 10 / 10 / 10 / 10) mod 10 = (b / 10 / 10 / 10 / 10 / 10) mod 10 →
  (a / 10 / 10 / 10 / 10) mod 10 = (b / 10 / 10 / 10 / 10) mod 10 →
  (a / 10 / 10 / 10) mod 10 = (b / 10 / 10 / 10) mod 10 →
  (a / 10 / 10) mod 10 = (b / 10 / 10) mod 10 →
  (a / 10) mod 10 = (b / 10) mod 10 → a mod 10 = b mod 10 → a = b.
Proof. intros. Z.div_mod_to_equations. lia. Qed.

(** Two valid time values with the same date string are on the same
    day. *)
Lemma isoDate_inj t1 t2 :
  Z.abs t1 <= 8640000000000000 → Z.abs t2 <= 8640000000000000 →
  isoDate t1 = isoDate t2 → Day t1 = Day t2.
Proof.
  intros H1%Day_range H2%Day_range. unfold isoDate.
  pose proof (civil_from_days_range (Day t1)) as R1.
  pose proof (civil_from_days_range (Day t2)) as R2.
  pose proof (days_from_civil_from_days (Day t1)) as D1.
  pose proof (days_from_civil_from_days (Day t2)) as D2.
  pose proof (civil_year_range _ H1) as Y1.
  pose proof (civil_year_range _ H2) as Y2.
  destruct (civil_from_days (Day t1)) as [[y1 m1] d1].
  destruct (civil_from_days (Day t2)) as [[y2 m2] d2].
  simpl in Y1, Y2. intros Heq.
  assert (y1 = y2 ∧ m1 = m2 ∧ d1 = d2) as (-> & -> & ->); [|congruence].
  destruct (Z.leb_spec 0 y1), (Z.leb_spec y1 9999),
           (Z.leb_spec 0 y2), (Z.leb_spec y2 9999);
    cbn [andb] in Heq;
    repeat match type of Heq with
    | context [?a <? 0] => destruct (Z.ltb_spec a 0)
    end; try lia;
    cbn in Heq; injection Heq as ?;
    repeat match goal with
    | H : dig _ = "-"%char |- _ => by apply dig_not_sign in H
    | H : dig _ = "+"%char |- _ => by apply dig_not_sign in H
    | H : "-"%char = dig _ |- _ => symmetry in H; by apply dig_not_sign in H
    | H : "+"%char = dig _ |- _ => symmetry in H; by apply dig_not_sign in H
    | H : dig _ = dig _ |- _ => apply dig_inj in H
    end;
    try discriminate.
  all: split;
    [ first
        [ apply four_digits; assumption || lia
        | apply six_digits; assumption || lia
        | assert (- y1 = - y2) by (apply six_digits; assumption || lia); lia ]
    | split; apply two_digits; assumption || lia ].
Qed.

Lemma Day_MakeDate d : Day (MakeDate d 0) = d.
Proof.
  unfold Day, MakeDate, msPerDay. rewrite Z.add_0_r. by apply Z.div_mul.
Qed.

(** Distinct days have distinct date strings. *)
Lemma dayString_inj d d' :
  -100000000 <= d <= 100000000 → -100000000 <= d' <= 100000000 →
  dayString d = dayString d' → d = d'.
Proof.
  intros Hd Hd' H. unfold dayString in H.
  apply isoDate_inj in H; [|unfold MakeDate, msPerDay; lia..].
  by rewrite !Day_MakeDate in H.
Qed.

(** A mapping whose keys are the days of a range has the date string
    of a day as a key exactly when the day is in the range. *)
Lemma keysAre_day d0 d1 m d :
  keysAre d0 d1 m →
  -100000000 <= d0 → d1 <= 100000000 → -100000000 <= d <= 100000000 →
  dayString d ∈ dom m ↔ d0 <= d <= d1.
Proof.
  intros Hk H0 H1 Hd. rewrite (Hk (dayString d)). split.
  - intros (d' & Hd' & Heq). apply dayString_inj in Heq; lia.
  - intros H. by exists d.
Qed.

Lemma isoDate_Day t : isoDate t = dayString (Day t).
Proof. unfold dayString, isoDate. by rewrite Day_MakeDate. Qed.

End DateStrings.

Section RegExpFacts.
Import Js RegExp.

Lemma test_Void s : test Void s = false.
Proof. induction s; simpl; auto. Qed.

Lemma test_Eps s : test Eps s = true ↔ s = [].
Proof.
  destruct s as [|c s]; simpl; [tauto|].
  rewrite test_Void. split; discriminate.
Qed.

Lemma test_Cls p s : test (Cls p) s = true ↔ ∃ c, s = [c] ∧ p c = true.
Proof.
  destruct s as [|c s]; simpl.
  - split; [discriminate | intros (c & H & _); discriminate].
  - destruct (p c) eqn:Hp.
    + rewrite test_Eps. split.
      * intros ->. eauto.
      * intros (c' & H & _). by inversion H.
    + rewrite test_Void. split; [discriminate|].
      intros (c' & H & Hc'). inversion H; subst. congruence.
Qed.

Lemma test_Alt r1 r2 s : test (Alt r1 r2) s = test r1 s || test r2 s.
Proof. revert r1 r2. induction s as [|c s IH]; intros; simpl; auto. Qed.

Lemma test_Cat r1 r2 s :
  test (Cat r1 r2) s = true
  ↔ ∃ u v, s = u ++ v ∧ test r1 u = true ∧ test r2 v = true.
Proof.
  revert r1. induction s as [|c s IH]; intros r1.
  - simpl. rewrite andb_true_iff. split.
    + intros [H1 H2]. exists [], []. auto.
    + intros (u & v & Huv & H1 & H2).
      symmetry in Huv. apply app_eq_nil in Huv as [-> ->]. auto.
  - simpl. destruct (nullable r1) eqn:Hn.
    + rewrite test_Alt, orb_true_iff, IH. split.
      * intros [(u & v & -> & H1 & H2) | H2].
        -- exists (c :: u), v. auto.
        -- exists [], (c :: s). auto.
      * intros (u & v & Huv & H1 & H2). destruct u as [|c' u].
        -- simpl in Huv. subst v. right. exact H2.
        -- simpl in Huv. inversion Huv; subst. left. exists u, v. auto.
    + rewrite IH. split.
      * intros (u & v & -> & H1 & H2). exists (c :: u), v. auto.
      * intros (u & v & Huv & H1 & H2). destruct u as [|c' u].
        -- simpl in H1. congruence.
        -- simpl in Huv. inversion Huv; subst. exists u, v. auto.
Qed.

Lemma test_Opt r s : test (Opt r) s = true ↔ test r s = true ∨ s = [].
Proof. unfold Opt. by rewrite test_Alt, orb_true_iff, test_Eps. Qed.

Lemma test_Star_Cls p s :
  test (Star (Cls p)) s = true ↔ Forall (fun c => p c = true) s.
Proof.
  induction s as [|c s IH]; [simpl; split; auto|].
  change (test (Star (Cls p)) (c :: s))
    with (test (Cat (deriv c (Cls p)) (Star (Cls p))) s).
  rewrite test_Cat. simpl. split.
  - intros (u & v & -> & H1 & H2). destruct (p c) eqn:Hp.
    + apply test_Eps in H1 as ->. constructor; [done | by apply IH].
    + by rewrite test_Void in H1.
  - intros H. inversion H as [|? ? Hc Hs]; subst. exists [], s.
    rewrite Hc. split; [done|]. split; [done | by apply IH].
Qed.

Lemma test_Plus_Cls p s :
  test (Plus (Cls p)) s = true ↔ s ≠ [] ∧ Forall (fun c => p c = true) s.
Proof.
  unfold Plus. rewrite test_Cat. split.
  - intros (u & v & -> & H1 & H2).
    apply test_Cls in H1 as (c & -> & Hc). apply test_Star_Cls in H2.
    split; [done | by constructor].
  - intros [Hne H]. destruct s as [|c s]; [done|].
    inversion H; subst. exists [c], s. split; [done|]. split.
    + apply test_Cls. eauto.
    + by apply test_Star_Cls.
Qed.

Lemma test_Lit_i w s :
  test (Lit_i w) s = true
  ↔ List.map Canonicalize s = List.map Canonicalize (js w).
Proof.
  revert s. induction w as [|a w IH]; intros s; simpl Lit_i.
  - rewrite test_Eps. simpl. split; [by intros -> |].
    by destruct s.
  - rewrite test_Cat. split.
    + intros (u & v & -> & H1 & H2).
      apply test_Cls in H1 as (c & -> & Hc). apply N.eqb_eq in Hc.
      apply IH in H2. simpl. by rewrite Hc, H2.
    + destruct s as [|c s]; [discriminate|]. simpl. intros H.
      inversion H as [[Hc Hs]]. exists [c], s. split; [done|]. split.
      * apply test_Cls. exists c. split; [done|]. by apply N.eqb_eq.
      * by apply IH.
Qed.

End RegExpFacts.

Section PointsParser.
Import Js RegExp api.

Lemma sep_spec c :
  sep c = true ↔ isSpace c = true ∨ c = 58%N ∨ c = 45%N.
Proof.
  unfold sep. rewrite !orb_true_iff, !N.eqb_eq. tauto.
Qed.

Lemma test_Chr_i a s :
  test (Chr_i a) s = true
  ↔ ∃ c, s = [c] ∧ Canonicalize c = Canonicalize (N_of_ascii a).
Proof.
  unfold Chr_i. rewrite test_Cls.
  split; intros (c & -> & H); exists c; (split; [done|]); by apply N.eqb_eq.
Qed.

Lemma test_points_opt w :
  test (Cat (Lit_i "point") (Opt (Chr_i "s"))) w = true
  ↔ spec.sameWord w "points" ∨ spec.sameWord w "point".
Proof.
  unfold spec.sameWord. rewrite test_Cat. split.
  - intros (u & v & -> & H1 & H2). apply test_Lit_i in H1.
    apply test_Opt in H2 as [H2 | ->].
    + apply test_Chr_i in H2 as (c & -> & Hc). left.
      rewrite map_app, H1. simpl. by rewrite Hc.
    + right. by rewrite app_nil_r.
  - intros [H | H].
    + do 7 (destruct w as [|? w]; try discriminate H).
      inversion H. eexists [_; _; _; _; _], [_].
      split; [reflexivity|]. split.
      * apply test_Lit_i. simpl. congruence.
      * apply test_Opt. left. apply test_Chr_i. eauto.
    + exists w, []. rewrite app_nil_r. split; [done|]. split.
      * by apply test_Lit_i.
      * apply test_Opt. by right.
Qed.

Lemma test_word1 w : test word1 w = true ↔ spec.isPointWord w.
Proof.
  unfold word1, spec.isPointWord, spec.pointWords.
  rewrite !test_Alt, !orb_true_iff, test_points_opt, !test_Lit_i.
  split.
  - intros [[H | H] | [H | H]]; eexists; (split; [|exact H]); simpl; auto 10.
  - intros (w0 & Hin & H). simpl in Hin.
    destruct Hin as [<- | [<- | [<- | [<- | []]]]]; tauto.
Qed.

Lemma test_word2 w : test word2 w = true ↔ spec.isPointWord w.
Proof.
  rewrite <- test_word1. unfold word1, word2.
  rewrite !test_Alt, !orb_true_iff. tauto.
Qed.

Lemma isSeparator_spec ss :
  Forall (fun c => sep c = true) ss ↔ spec.isSeparator ss.
Proof.
  unfold spec.isSeparator. rewrite !Forall_forall.
  split; intros H c Hc; apply sep_spec; auto.
Qed.

Lemma test_digitsFirst name :
  test digitsFirst name = true ↔ spec.numberThenWord name.
Proof.
  unfold digitsFirst, spec.numberThenWord, spec.isNumeric.
  rewrite test_Cat. split.
  - intros (ds & rest & -> & Hds & Hrest).
    apply test_Plus_Cls in Hds.
    apply test_Cat in Hrest as (ss & w & -> & Hss & Hw).
    apply test_Star_Cls, isSeparator_spec in Hss.
    apply test_Opt in Hw. rewrite test_word1 in Hw.
    exists ds, ss, w. tauto.
  - intros (ds & ss & w & -> & Hds & Hss & Hw).
    exists ds, (ss ++ w). split; [done|]. split.
    + by apply test_Plus_Cls.
    + apply test_Cat. exists ss, w. split; [done|]. split.
      * by apply test_Star_Cls, isSeparator_spec.
      * apply test_Opt. rewrite test_word1. tauto.
Qed.

Lemma test_wordFirst name :
  test wordFirst name = true ↔ spec.wordThenNumber name.
Proof.
  unfold wordFirst, spec.wordThenNumber, spec.isNumeric.
  rewrite test_Cat. split.
  - intros (w & rest & -> & Hw & Hrest).
    apply test_word2 in Hw.
    apply test_Cat in Hrest as (ss & ds & -> & Hss & Hds).
    apply test_Star_Cls, isSeparator_spec in Hss.
    apply test_Plus_Cls in Hds.
    exists w, ss, ds. tauto.
  - intros (w & ss & ds & -> & Hw & Hss & Hds).
    exists w, (ss ++ ds). split; [done|]. split.
    + by apply test_word2.
    + apply test_Cat. exists ss, ds. split; [done|]. split.
      * by apply test_Star_Cls, isSeparator_spec.
      * by apply test_Plus_Cls.
Qed.

Lemma isPointLabel_spec l : isPointLabel l = true ↔ spec.matching l.
Proof.
  unfold isPointLabel, spec.matching.
  rewrite <- test_digitsFirst, <- test_wordFirst.
  destruct (test digitsFirst _), (test wordFirst _); intuition.
Qed.

(** ** [match] with [/\d+/] and [parseInt] *)

Lemma longest_Some r s n :
  longest r s = Some n →
  (n ≤ length s)%nat ∧ test r (take n s) = true
  ∧ ∀ m, (n < m ≤ length s)%nat → test r (take m s) = false.
Proof.
  revert r n. induction s as [|c s IH]; intros r n; simpl.
  - destruct (nullable r) eqn:Hn; [|discriminate].
    intros [= <-]. split; [done|]. split; [done|].
    intros m Hm. simpl in Hm. lia.
  - destruct (longest (deriv c r) s) as [k|] eqn:Hl.
    + intros [= <-]. apply IH in Hl as (Hk & Ht & Hm).
      split; [lia|]. split; [done|].
      intros m Hlt. destruct m as [|m]; [lia|]. simpl. apply Hm. lia.
    + destruct (nullable r) eqn:Hn; [|discriminate].
      intros [= <-]. split; [lia|]. split; [done|].
      intros m Hlt. destruct m as [|m]; [lia|]. simpl.
      destruct (test (deriv c r) (take m s)) eqn:Ht; [|done].
      exfalso. clear IH Hn Hlt.
      assert (Hgen : ∀ r' s' m', longest r' s' = None →
                test r' (take m' s') = false).
      { clear. intros r' s'. revert r'.
        induction s' as [|c' s' IH']; intros r' m'; simpl.
        - destruct (nullable r') eqn:Hn'; [discriminate|].
          by destruct m'.
        - destruct (longest (deriv c' r') s') eqn:Hl'; [discriminate|].
          destruct (nullable r') eqn:Hn'; [discriminate|]. intros _.
          destruct m'; simpl; [done|]. by apply IH'. }
      rewrite (Hgen _ _ m Hl) in Ht. discriminate.
Qed.

Lemma longest_None r s m : longest r s = None → test r (take m s) = false.
Proof.
  revert r m. induction s as [|c s IH]; intros r m; simpl.
  - destruct (nullable r) eqn:Hn; [discriminate|]. by destruct m.
  - destruct (longest (deriv c r) s) eqn:Hl; [discriminate|].
    destruct (nullable r) eqn:Hn; [discriminate|]. intros _.
    destruct m; simpl; [done|]. by apply IH.
Qed.

Lemma takeWhile_take {A} (p : A → bool) (s : list A) :
  take (length (spec.takeWhile p s)) s = spec.takeWhile p s.
Proof.
  induction s as [|c s IH]; simpl; [done|].
  destruct (p c); simpl; [by rewrite IH | done].
Qed.

Lemma takeWhile_Forall {A} (p : A → bool) (s : list A) :
  Forall (fun c => p c = true) (spec.takeWhile p s).
Proof.
  induction s as [|c s IH]; simpl; [constructor|].
  destruct (p c) eqn:Hp; by constructor.
Qed.

Lemma Forall_take_takeWhile {A} (p : A → bool) (s : list A) m :
  Forall (fun c => p c = true) (take m s) →
  (m ≤ length s)%nat → (m ≤ length (spec.takeWhile p s))%nat.
Proof.
  revert m. induction s as [|c s IH]; intros m H Hm; simpl in *; [lia|].
  destruct m as [|m]; [lia|]. simpl in H. inversion H as [|? ? Hc Hs]; subst.
  rewrite Hc. simpl. apply le_n_S, IH; [done | lia].
Qed.

Lemma longest_digits s :
  longest digits s
  = match spec.takeWhile isDigit s with
    | [] => None
    | run => Some (length run)
    end.
Proof.
  pose proof (takeWhile_take isDigit s) as Htake.
  pose proof (takeWhile_Forall isDigit s) as Hall.
  assert (Hlen : (length (spec.takeWhile isDigit s) ≤ length s)%nat).
  { rewrite <- Htake at 1. rewrite length_take. lia. }
  destruct (longest digits s) as [n|] eqn:Hl.
  - apply longest_Some in Hl as (Hn & Ht & Hmax).
    apply test_Plus_Cls in Ht as [Hne Hd].
    pose proof (Forall_take_takeWhile _ _ _ Hd Hn) as Hle.
    destruct (spec.takeWhile isDigit s) as [|c run] eqn:Hrun.
    + simpl in Hle. destruct n; [|lia]. by rewrite take_0 in Hne.
    + f_equal. destruct (decide (n = length (c :: run))) as [|Hneq]; [done|].
      exfalso. specialize (Hmax (length (c :: run)) ltac:(lia)).
      rewrite Htake in Hmax.
      assert (test digits (c :: run) = true) as Hok
        by (apply test_Plus_Cls; done).
      congruence.
  - destruct (spec.takeWhile isDigit s) as [|c run] eqn:Hrun; [done|].
    pose proof (longest_None _ _ (length (c :: run)) Hl) as Hf.
    rewrite Htake in Hf.
    assert (test digits (c :: run) = true) as Hok
      by (apply test_Plus_Cls; done).
    congruence.
Qed.

Lemma match_digits s :
  match_ digits s
  = match spec.firstDigits s with
    | [] => None
    | run => Some run
    end.
Proof.
  unfold spec.firstDigits.
  induction s as [|c s IH].
  - reflexivity.
  - cbn [match_]. rewrite longest_digits.
    cbn [spec.takeWhile spec.dropWhile].
    destruct (isDigit c) eqn:Hc; cbn [negb].
    + cbn [spec.takeWhile]. rewrite Hc.
      f_equal. cbn [length take]. f_equal. apply takeWhile_take.
    + exact IH.
Qed.

Lemma isDigit_range c : isDigit c = true ↔ (48 <= c <= 57)%N.
Proof.
  unfold isDigit. rewrite andb_true_iff, !N.leb_le. tauto.
Qed.

Lemma digit_not_space c : isDigit c = true → isSpace c = false.
Proof.
  intros H%isDigit_range. unfold isSpace.
  assert (E1 : (c <=? 13)%N = false) by (apply N.leb_gt; lia).
  assert (E2 : (8192 <=? c)%N = false) by (apply N.leb_gt; lia).
  assert (E3 : ∀ n, (57 < n)%N ∨ (n < 48)%N → (c =? n)%N = false)
    by (intros n Hn; apply N.eqb_neq; lia).
  rewrite E1, E2, !E3 by lia. by rewrite andb_false_r.
Qed.

Lemma digitsValue_decimal ds acc :
  Forall (fun c => isDigit c = true) ds →
  digitsValue acc ds
  = fold_left (fun a c => 10 * a + (Z.of_N c - 48)) ds acc.
Proof.
  revert acc. induction ds as [|c ds IH]; intros acc H; [done|].
  inversion H as [|? ? Hc Hds]; subst. simpl. rewrite Hc.
  rewrite IH by done. f_equal. lia.
Qed.

Lemma parseInt10_digits ds :
  ds ≠ [] → Forall (fun c => isDigit c = true) ds →
  parseInt10 ds = toNumber (spec.decimal ds).
Proof.
  intros Hne H. destruct ds as [|c ds]; [done|].
  inversion H as [|? ? Hc Hds]; subst.
  unfold parseInt10. simpl skipSpace. rewrite (digit_not_space c Hc).
  apply isDigit_range in Hc as Hr.
  assert (Hsign : readSign (c :: ds) = (1, c :: ds)).
  { unfold readSign. destruct c as [|p]; [lia|].
    do 6 (destruct p as [p|p|]; try reflexivity); lia. }
  rewrite Hsign. simpl startsWithDigit. rewrite Hc.
  rewrite digitsValue_decimal by done. unfold spec.decimal.
  f_equal. lia.
Qed.

Lemma decimal_nonneg ds :
  Forall (fun c => isDigit c = true) ds → 0 <= spec.decimal ds.
Proof.
  unfold spec.decimal.
  assert (∀ acc, 0 <= acc → Forall (fun c => isDigit c = true) ds →
            0 <= fold_left (fun a c => 10 * a + (Z.of_N c - 48)) ds acc)
    as Hgen.
  { induction ds as [|c ds IH]; intros acc Hacc H; [done|].
    inversion H as [|? ? Hc Hds]; subst. simpl. apply IH; [|done].
    apply isDigit_range in Hc. lia. }
  apply Hgen. lia.
Qed.

Lemma find_first {A} (p : A → bool) (l : list A) x :
  List.find p l = Some x →
  ∃ pre post, l = pre ++ x :: post ∧ p x = true
              ∧ ∀ y, In y pre → p y = false.
Proof.
  induction l as [|a l IH]; simpl; [discriminate|].
  destruct (p a) eqn:Hp.
  - intros [= <-]. exists [], l. split; [done|]. split; [done|].
    intros y [].
  - intros H. destruct (IH H) as (pre & post & -> & Hx & Hpre).
    exists (a :: pre), post. split; [done|]. split; [done|].
    intros y [<- | Hy]; auto.
Qed.

(** The first element of a list that a property does not hold of. *)
Lemma first_hit {A} (P : A → Prop) pre1 x1 post1 pre2 x2 post2 :
  pre1 ++ x1 :: post1 = pre2 ++ x2 :: post2 →
  (∀ y, In y pre1 → P y) → ¬ P x1 →
  (∀ y, In y pre2 → P y) → ¬ P x2 →
  x1 = x2.
Proof.
  revert pre2. induction pre1 as [|a pre1 IH]; intros [|b pre2] Heq H1 Hx1 H2 Hx2;
    simpl in Heq; inversion Heq; subst.
  - reflexivity.
  - exfalso. apply Hx1, H2. by left.
  - exfalso. apply Hx2, H1. by left.
  - apply (IH pre2); auto.
    + intros y Hy. apply H1. by right.
    + intros y Hy. apply H2. by right.
Qed.

Lemma firstDigits_Forall name :
  Forall (fun c => isDigit c = true) (spec.firstDigits name).
Proof. apply takeWhile_Forall. Qed.

(** What the parser returns on a label array that is present. *)
Lemma parsePointsFromLabels_Some ls :
  parsePointsFromLabels (Some ls)
  = match List.find isPointLabel ls with
    | Some l => toNumber (spec.decimal (spec.firstDigits (Label.name l)))
    | None => Num 0
    end.
Proof.
  unfold parsePointsFromLabels.
  destruct ls as [|l0 ls]; [reflexivity|].
  cbn [length Nat.eqb].
  destruct (List.find isPointLabel (l0 :: ls)) as [l|]; [|reflexivity].
  rewrite match_digits.
  pose proof (firstDigits_Forall (Label.name l)) as Hd.
  destruct (spec.firstDigits (Label.name l)) as [|c ds] eqn:Hf.
  - reflexivity.
  - by apply parseInt10_digits.
Qed.

(** The parser returns a number that is not negative, up to Infinity. *)
Lemma parsePointsFromLabels_range labels :
  ∃ v, parsePointsFromLabels labels = Num v ∧ 0 <= v <= Infinity.
Proof.
  assert (0 <= Infinity) by (vm_compute; discriminate).
  destruct labels as [ls|]; [|exists 0; split; [reflexivity | lia]].
  rewrite parsePointsFromLabels_Some.
  destruct (List.find isPointLabel ls) as [l|];
    [|exists 0; split; [reflexivity | lia]].
  destruct (toNumber_nonneg (spec.decimal (spec.firstDigits (Label.name l))))
    as (v & Hv & Hr & _); [apply decimal_nonneg, firstDigits_Forall|].
  eauto.
Qed.

(** ** The parser on an array of any values *)

Lemma untyped_find_ofLabel ls :
  untyped.find (List.map untyped.ofLabel ls)
  = untyped.Normal (untyped.ofLabel <$> List.find isPointLabel ls).
Proof.
  induction ls as [|l ls IH]; [reflexivity|].
  cbn [List.map untyped.find untyped.ofLabel untyped.isPointLabel
         untyped.shown List.find].
  unfold isPointLabel.
  destruct (test digitsFirst (Label.name l)); [reflexivity|].
  destruct (test wordFirst (Label.name l)); [reflexivity|]. exact IH.
Qed.

Lemma untyped_ofLabels labels :
  untyped.parsePointsFromLabels (untyped.ofLabels labels)
  = untyped.Normal (parsePointsFromLabels labels).
Proof.
  destruct labels as [ls|]; [|reflexivity].
  unfold untyped.parsePointsFromLabels, parsePointsFromLabels,
    untyped.ofLabels.
  rewrite length_map. destruct (length ls =? 0)%nat; [reflexivity|].
  rewrite untyped_find_ofLabel.
  destruct (List.find isPointLabel ls) as [l|]; [|reflexivity].
  cbn [fmap option_fmap option_map untyped.ofLabel].
  by destruct (match_ digits (Label.name l)).
Qed.

(** A name that the callback selects is a string, or a value that has
    no [match] method. *)
Lemma untyped_find_Some es e :
  untyped.find es = untyped.Normal (Some e) →
  ∃ pre post, es = pre ++ e :: post
    ∧ (∀ x, In x pre → untyped.isPointLabel x = untyped.Normal false)
    ∧ untyped.isPointLabel e = untyped.Normal true.
Proof.
  induction es as [|x es IH]; [discriminate|]. cbn [untyped.find].
  destruct (untyped.isPointLabel x) as [[|]|] eqn:Hx; [| |discriminate].
  - intros [= <-]. exists [], es. split; [done|]. split; [by intros ? []|done].
  - intros (pre & post & -> & Hpre & He)%IH.
    exists (x :: pre), post. split; [done|]. split; [|done].
    intros y [<- | Hy]; auto.
Qed.

Lemma untyped_find_None es :
  untyped.find es = untyped.Normal None →
  ∀ x, In x es → untyped.isPointLabel x = untyped.Normal false.
Proof.
  induction es as [|x es IH]; [by intros _ ? []|]. cbn [untyped.find].
  destruct (untyped.isPointLabel x) as [[|]|] eqn:Hx; try discriminate.
  intros H y [<- | Hy]; auto.
Qed.

Lemma untyped_find_TypeError es :
  untyped.find es = untyped.TypeError ↔
  ∃ pre e post, es = pre ++ e :: post
    ∧ (∀ x, In x pre → untyped.isPointLabel x = untyped.Normal false)
    ∧ untyped.isPointLabel e = untyped.TypeError.
Proof.
  induction es as [|x es IH].
  - split; [discriminate|]. intros (pre & e & post & H & _). by destruct pre.
  - cbn [untyped.find].
    destruct (untyped.isPointLabel x) as [[|]|] eqn:Hx.
    + split; [discriminate|]. intros (pre & e & post & H & Hpre & He).
      destruct pre as [|y pre]; simpl in H; inversion H; subst.
      * congruence.
      * specialize (Hpre y (or_introl eq_refl)). congruence.
    + rewrite IH. split.
      * intros (pre & e & post & -> & Hpre & He).
        exists (x :: pre), e, post. split; [done|]. split; [|done].
        intros y [<- | Hy]; auto.
      * intros (pre & e & post & H & Hpre & He).
        destruct pre as [|y pre]; simpl in H; inversion H; subst.
        -- congruence.
        -- exists pre, e, post. split; [done|]. split; [|done].
           intros z Hz. apply Hpre. by right.
    + split; [intros _|done]. exists [], x, es. split; [done|].
      split; [by intros ? []|done].
Qed.

Lemma isPointLabel_faulty e :
  aux2.faulty e ↔
  untyped.isPointLabel e = untyped.TypeError
  ∨ (untyped.isPointLabel e = untyped.Normal true
     ∧ ∀ s, e ≠ untyped.Labelled (untyped.Text s)).
Proof.
  destruct e as [|[s|[s|]]]; simpl.
  - split; [by left | done].
  - split; [done|]. intros [H | [_ H]].
    + by destruct (test digitsFirst s), (test wordFirst s).
    + by destruct (H s).
  - destruct (test digitsFirst s), (test wordFirst s); split;
      try (intros _; right; split; [done | discriminate]);
      try (intros [H | H]; discriminate);
      try (intros [H | [H _]]; discriminate); auto.
  - split; [by left | done].
Qed.

(** The parser throws when, and only when, it comes upon a faulty
    element before any label that matches. *)
Lemma untyped_TypeError es :
  untyped.parsePointsFromLabels (untyped.Elements es) = untyped.TypeError ↔
  ∃ pre e post, es = pre ++ e :: post
    ∧ (∀ x, In x pre → untyped.isPointLabel x = untyped.Normal false)
    ∧ aux2.faulty e.
Proof.
  unfold untyped.parsePointsFromLabels.
  destruct es as [|e0 es0]; cbn [length Nat.eqb].
  { split; [discriminate|]. intros (pre & e & post & H & _). by destruct pre. }
  set (es := e0 :: es0).
  destruct (untyped.find es) as [[e|]|] eqn:Hfind.
  - apply untyped_find_Some in Hfind as (pre & post & Hes & Hpre & He).
    split.
    + intros Hthrow. exists pre, e, post. split; [done|]. split; [done|].
      apply isPointLabel_faulty. right. split; [done|]. intros s ->.
      by destruct (match_ digits s).
    + intros (pre' & e' & post' & Hes' & Hpre' & Hf).
      apply isPointLabel_faulty in Hf.
      assert (e' = e) as ->.
      { rewrite Hes in Hes'.
        apply (first_hit (fun x => untyped.isPointLabel x = untyped.Normal false)
                 pre' e' post' pre e post); try done; symmetry in Hes'; try done.
        - destruct Hf as [Hf | [Hf _]]; congruence.
        - congruence. }
      destruct Hf as [Hf | [_ Hf]]; [congruence|].
      destruct e as [|[s|o]]; try done. by destruct (Hf s).
  - split; [discriminate|].
    intros (pre & e & post & Hes & Hpre & Hf).
    pose proof (untyped_find_None _ Hfind e) as He.
    rewrite Hes in He. specialize (He ltac:(apply in_or_app; right; by left)).
    apply isPointLabel_faulty in Hf as [Hf | [Hf _]]; congruence.
  - split; [intros _|done].
    apply untyped_find_TypeError in Hfind as (pre & e & post & Hes & Hpre & He).
    exists pre, e, post. split; [done|]. split; [done|].
    apply isPointLabel_faulty. by left.
Qed.

End PointsParser.

(* ================================================================== *)
(** * The label points parser *)
(* ================================================================== *)

Section ParserClaims.
Import Js api.

Lemma first_unique {A} (P : A → Prop) pre1 l1 post1 pre2 l2 post2 :
  pre1 ++ l1 :: post1 = pre2 ++ l2 :: post2 →
  (∀ l', In l' pre1 → ¬ P l') → P l1 →
  (∀ l', In l' pre2 → ¬ P l') → P l2 →
  l1 = l2.
Proof.
  revert pre2. induction pre1 as [|a pre1 IH]; intros [|b pre2] Heq H1 Hl1 H2 Hl2;
    simpl in Heq; inversion Heq; subst.
  - reflexivity.
  - exfalso. eapply H2; [by left | done].
  - exfalso. eapply H1; [by left | done].
  - apply (IH pre2); auto.
    + intros l' H. apply H1. by right.
    + intros l' H. apply H2. by right.
Qed.

(** The specification determines the points of a label set. *)
Lemma points_functional ls v1 v2 :
  spec.points ls v1 → spec.points ls v2 → v1 = v2.
Proof.
  intros H1 H2.
  inversion H1 as [pre1 l1 post1 Hpre1 Hl1 E1 | ? Hnone1]; subst;
    inversion H2 as [pre2 l2 post2 Hpre2 Hl2 E2 | ? Hnone2]; subst.
  - by rewrite (first_unique _ _ _ _ _ _ _ E2 Hpre2 Hl2 Hpre1 Hl1).
  - exfalso. apply (Hnone2 l1); [|done]. apply in_or_app. right. by left.
  - exfalso. apply (Hnone1 l2); [|done]. apply in_or_app. right. by left.
  - reflexivity.
Qed.

(** C1, as amended: the parser returns the value of the first label
    whose name matches one of the two patterns, read from the first run
    of digits of that name in base 10 and made a Number, that is,
    rounded to the nearest double; up to 2^53 it is the integer itself.
    It returns 0 when no label matches; the four examples of the
    specification evaluate to 100, 50, 0 and 7. *)
Theorem parsePointsFromLabels_first_match :
  (∀ labels : list Label.t,
     ∃ v, parsePointsFromLabels (Some labels) = toNumber v
          ∧ spec.points labels v)
  ∧ (∀ v, 0 <= v <= 2 ^ 53 → toNumber v = Num v)
  ∧ parsePointsFromLabels (Some [sample.label "100 points"]) = Num 100
  ∧ parsePointsFromLabels (Some [sample.label "pts-50"]) = Num 50
  ∧ parsePointsFromLabels (Some [sample.label "bug"]) = Num 0
  ∧ parsePointsFromLabels
      (Some [sample.label "points:7"; sample.label "5 pts"]) = Num 7.
Proof.
  split; [|split; [|repeat split; vm_compute; reflexivity]].
  - intros labels. rewrite parsePointsFromLabels_Some.
    destruct (List.find isPointLabel labels) as [l|] eqn:Hfind.
    + eexists. split; [reflexivity|].
      apply find_first in Hfind as (pre & post & -> & Hl & Hpre).
      constructor.
      * intros l' Hin Hm. apply isPointLabel_spec in Hm.
        rewrite (Hpre l' Hin) in Hm. discriminate.
      * by apply isPointLabel_spec.
    + exists 0. split; [reflexivity|]. constructor.
      intros l Hin Hm. apply isPointLabel_spec in Hm.
      pose proof (find_none _ _ Hfind l Hin) as Hf. congruence.
  - intros v Hv. apply toNumber_exact. lia.
Qed.

(** C1 as it is stated fails on a label whose digits denote an integer
    that is no double: the parser returns the neighbour that is one. *)
Lemma parsePointsFromLabels_rounds :
  parsePointsFromLabels (Some [sample.label "9007199254740993 pts"])
  = Num 9007199254740992
  ∧ spec.points [sample.label "9007199254740993 pts"] 9007199254740993
  ∧ ¬ ∃ v, parsePointsFromLabels (Some [sample.label "9007199254740993 pts"])
           = Num v
           ∧ spec.points [sample.label "9007199254740993 pts"] v.
Proof.
  assert (Hp : spec.points [sample.label "9007199254740993 pts"]
                 9007199254740993).
  { apply (spec.points_first [] (sample.label "9007199254740993 pts") []).
    - intros ? [].
    - apply isPointLabel_spec. vm_compute. reflexivity. }
  split; [vm_compute; reflexivity|]. split; [exact Hp|].
  intros (v & Hv & Hpv).
  rewrite (points_functional _ _ _ Hpv Hp) in Hv.
  vm_compute in Hv. discriminate Hv.
Qed.

(** C2, as amended: on an array of label objects, and on an array that
    is missing, the parser does not fail and returns a number that is
    not negative: an integer below 2^1024, or Infinity when the digits
    of the label denote 2^1024 - 2^970 or more.  A label array that is
    missing gives 0, and so does one without a matching label name.
    On an array of other values it throws a [TypeError] exactly when
    an element that is [null] or [undefined], or whose name is no
    string but reads as a matching one, comes before every matching
    label; and it throws on a value with a length that is no array. *)
Theorem parsePointsFromLabels_total :
  (∀ labels : option (list Label.t),
     untyped.parsePointsFromLabels (untyped.ofLabels labels)
     = untyped.Normal (parsePointsFromLabels labels)
     ∧ ∃ v, parsePointsFromLabels labels = Num v ∧ 0 <= v <= Infinity)
  ∧ (∀ (ls : list Label.t) n,
       spec.points ls n →
       parsePointsFromLabels (Some ls) = Num Infinity
       ↔ 2 ^ 1024 - 2 ^ 970 <= n)
  ∧ parsePointsFromLabels None = Num 0
  ∧ untyped.parsePointsFromLabels untyped.Absent = untyped.Normal (Num 0)
  ∧ (∀ ls : list Label.t,
       (∀ l, In l ls → ¬ spec.matching l) →
       parsePointsFromLabels (Some ls) = Num 0)
  ∧ (∀ es : list untyped.element,
       untyped.parsePointsFromLabels (untyped.Elements es) = untyped.TypeError
       ↔ ∃ pre e post,
           es = pre ++ e :: post
           ∧ (∀ x, In x pre → untyped.isPointLabel x = untyped.Normal false)
           ∧ aux2.faulty e)
  ∧ untyped.parsePointsFromLabels untyped.Lengthy = untyped.TypeError.
Proof.
  split; [|split; [|split; [reflexivity|split; [reflexivity|split;
    [|split; [|reflexivity]]]]]].
  - intros labels. split; [apply untyped_ofLabels|].
    apply parsePointsFromLabels_range.
  - intros ls n Hn.
    assert (H0 : 0 <= n).
    { inversion Hn; subst; [|lia]. apply decimal_nonneg, firstDigits_Forall. }
    assert (Hv : parsePointsFromLabels (Some ls) = toNumber n).
    { rewrite parsePointsFromLabels_Some.
      destruct (List.find isPointLabel ls) as [l|] eqn:Hfind.
      - apply find_first in Hfind as (pre & post & -> & Hl & Hpre).
        f_equal. apply (points_functional (pre ++ l :: post)); [|done].
        constructor.
        + intros l' Hin Hm. apply isPointLabel_spec in Hm.
          rewrite (Hpre l' Hin) in Hm. discriminate.
        + by apply isPointLabel_spec.
      - assert (n = 0) as ->; [|reflexivity].
        apply (points_functional ls); [done|]. constructor.
        intros l Hin Hm. apply isPointLabel_spec in Hm.
        pose proof (find_none _ _ Hfind l Hin) as Hf. congruence. }
    rewrite Hv.
    destruct (toNumber_nonneg n H0) as (v & -> & _ & Hinf).
    rewrite <- Hinf. split; [by intros [= ->] | by intros ->].
  - intros ls Hnone. rewrite parsePointsFromLabels_Some.
    destruct (List.find isPointLabel ls) as [l|] eqn:Hfind; [|done].
    exfalso. apply find_some in Hfind as [Hin Hl].
    apply (Hnone l Hin). by apply isPointLabel_spec.
  - apply untyped_TypeError.
Qed.

Lemma parsePointsFromLabels_total_witness :
  parsePointsFromLabels
    (Some [sample.label "bug"; sample.label "help wanted"]) = Num 0.
Proof.
  apply (proj1 (proj2 (proj2 (proj2 (proj2 parsePointsFromLabels_total))))).
  intros l Hin Hm. apply isPointLabel_spec in Hm.
  destruct Hin as [<- | [<- | []]]; vm_compute in Hm; discriminate Hm.
Defined.

(** C2 as it is stated fails: the parser throws on an array with an
    element that is [null], and on a label whose name is the number 5;
    and what it returns for a label of 309 digits is no integer. *)
Lemma parsePointsFromLabels_fails :
  untyped.parsePointsFromLabels (untyped.Elements [untyped.Nullish])
  = untyped.TypeError
  ∧ untyped.parsePointsFromLabels
      (untyped.Elements [untyped.Labelled (untyped.Other (Some (js "5")))])
    = untyped.TypeError
  ∧ parsePointsFromLabels (Some [sample.label sample2.huge]) = Num Infinity.
Proof. repeat split; vm_compute; reflexivity. Qed.

End ParserClaims.

(* ================================================================== *)
(** * The normalizer *)
(* ================================================================== *)

Section NormalizerClaims.
Import Js api.

(** Every issue that is not closed is retained, whatever its dates. *)
Lemma processIssues_open h issues thresholdDate i :
  In i issues → Issue.state i = "open" →
  In (process i) (processIssues h issues thresholdDate).
Proof.
  intros Hin Hst. unfold processIssues. apply filter_In. split.
  - by apply in_map.
  - unfold retained. simpl. by rewrite Hst.
Qed.

(** A retained closed issue has a closing date at or after a valid
    threshold: the date that [new Date] makes of the field. *)
Lemma processIssues_closed h issues thresholdDate j :
  In j (processIssues h issues thresholdDate) → Issue.state j = "closed" →
  ∃ t T, new_Date h (Issue.closed_at j) = Some t
         ∧ thresholdDate = Some T ∧ T <= t.
Proof.
  unfold processIssues. intros [_ Hret]%filter_In Hst.
  unfold retained in Hret. rewrite Hst in Hret. simpl in Hret.
  destruct (new_Date h (Issue.closed_at j)) as [t|]; [|done].
  destruct thresholdDate as [T|]; [|done].
  exists t, T. simpl in Hret. apply Z.leb_le in Hret. auto.
Qed.

(** With a threshold after the epoch, the closing timestamp of a
    retained closed issue is a string. *)
Lemma processIssues_closed_dated h issues T j :
  0 < T →
  In j (processIssues h issues (Some T)) → Issue.state j = "closed" →
  ∃ s, Issue.closed_at j = Str s.
Proof.
  intros HT Hin Hst.
  destruct (processIssues_closed _ _ _ _ Hin Hst) as (t & T' & Ht & [= <-] & Hle).
  destruct (Issue.closed_at j) as [| |s]; simpl in Ht.
  - discriminate.
  - inversion Ht. lia.
  - eauto.
Qed.

(** C3, at the input where the code departs from it: with the epoch
    as threshold, a closed issue whose closing timestamp is [null] is
    retained, because [new Date(null)] is the epoch. *)
Theorem processIssues_retains_closed_undated :
  processIssues Hosts.utc [sample.closedUndated]
                (new_Date Hosts.utc (Str "1970-01-01"))
  = [process sample.closedUndated]
  ∧ Issue.state (process sample.closedUndated) = "closed"
  ∧ Issue.closed_at (process sample.closedUndated) = Null.
Proof. vm_compute. auto. Qed.

(** The scenario of the specification: only issue 1 is retained. *)
Example processIssues_scenario :
  processIssues Hosts.utc [sample.issue1; sample.issue2]
                (new_Date Hosts.utc (Str "2026-01-30"))
  = [process sample.issue1].
Proof. vm_compute. reflexivity. Qed.

End NormalizerClaims.

(* ================================================================== *)
(** * Global statistics *)
(* ================================================================== *)

Section GlobalStatsClaims.
Import Js filters.

Lemma sumPoints_filter_le (p : Issue.t → bool) (l : list Issue.t) a b :
  (∀ i, In i l → ∃ z, Issue.points i = Num z ∧ 0 <= z) → a <= b →
  le (fold_left (fun sum i => add sum (Issue.points i)) (List.filter p l) (Num a))
     (fold_left (fun sum i => add sum (Issue.points i)) l (Num b)).
Proof.
  revert a b. induction l as [|i l IH]; intros a b Hpts Hab; [done|].
  destruct (Hpts i (or_introl eq_refl)) as (z & Hz & Hpos).
  assert (Hl : ∀ i', In i' l → ∃ z, Issue.points i' = Num z ∧ 0 <= z)
    by (intros i' Hi'; apply Hpts; by right).
  simpl. destruct (p i); simpl; rewrite Hz; simpl; apply IH; auto; lia.
Qed.

(** C4: when every issue carries non-negative points, the collected
    points of the global statistics do not exceed the total points. *)
Theorem calculateGlobalStats_collected_le_total
    (h : Host) (projects : list Project.t) (thresholdDate : field) :
  (∀ p i, In p projects → In i (Project.issues p) →
          ∃ z, Issue.points i = Num z ∧ 0 <= z) →
  le (GlobalStats.collectedPoints (calculateGlobalStats h projects thresholdDate))
     (GlobalStats.totalPoints (calculateGlobalStats h projects thresholdDate)).
Proof.
  intros Hpts. unfold calculateGlobalStats, sumPoints. simpl.
  apply sumPoints_filter_le; [|lia].
  intros i Hin. apply in_flat_map in Hin as (p & Hp & Hi). eauto.
Qed.

Lemma calculateGlobalStats_collected_le_total_witness :
  le (GlobalStats.collectedPoints
        (calculateGlobalStats Hosts.utc
           [sample.project "tracker"
              (api.processIssues Hosts.utc [sample.issue1; sample.issue2]
                 (new_Date Hosts.utc (Str "2026-01-01"))) None]
           (Str "2026-01-10")))
     (GlobalStats.totalPoints
        (calculateGlobalStats Hosts.utc
           [sample.project "tracker"
              (api.processIssues Hosts.utc [sample.issue1; sample.issue2]
                 (new_Date Hosts.utc (Str "2026-01-01"))) None]
           (Str "2026-01-10"))).
Proof.
  apply calculateGlobalStats_collected_le_total.
  intros p i [<- | []] Hi. vm_compute in Hi.
  destruct Hi as [<- | [<- | []]]; eexists; (split; [reflexivity | lia]).
Defined.

(** The scenario of the specification: 50 points in total, none
    collected. *)
Example calculateGlobalStats_scenario :
  let issues :=
    api.processIssues Hosts.utc [sample.issue1; sample.issue2]
      (new_Date Hosts.utc (Str "2026-01-30")) in
  let stats :=
    calculateGlobalStats Hosts.utc [sample.project "tracker" issues None]
      (Str "2026-01-30") in
  GlobalStats.totalPoints stats = Num 50
  ∧ GlobalStats.collectedPoints stats = Num 0.
Proof. vm_compute. auto. Qed.

End GlobalStatsClaims.

(* ================================================================== *)
(** * Arrays and Maps *)
(* ================================================================== *)

Section MapFacts.
Import Js.
Context {V : Type}.
Implicit Types (m : Map V) (k : string) (v : V).

Lemma Map_get_set_eq k v m : Map_get k (Map_set k v m) = Some v.
Proof.
  induction m as [|[k' v'] m IH]; simpl.
  - by rewrite String.eqb_refl.
  - destruct (String.eqb k k') eqn:E; simpl; by rewrite E.
Qed.

Lemma Map_get_set_ne k k' v m :
  k ≠ k' → Map_get k' (Map_set k v m) = Map_get k' m.
Proof.
  intros Hne. induction m as [|[k0 v0] m IH]; simpl.
  - destruct (String.eqb_spec k' k); congruence.
  - destruct (String.eqb_spec k k0) as [->|]; simpl.
    + destruct (String.eqb_spec k' k0); congruence.
    + by rewrite IH.
Qed.

Lemma Map_has_In k m : Map_has k m = true ↔ In k (List.map fst m).
Proof.
  unfold Map_has. induction m as [|[k' v'] m IH]; simpl.
  - split; [discriminate | tauto].
  - destruct (String.eqb_spec k k') as [->|Hne].
    + split; auto.
    + rewrite IH. split; [tauto|]. intros [E | H]; [congruence | done].
Qed.

Lemma Map_keys_set k v m :
  List.map fst (Map_set k v m)
  = if Map_has k m then List.map fst m else List.map fst m ++ [k].
Proof.
  unfold Map_has. induction m as [|[k' v'] m IH]; simpl; [done|].
  destruct (String.eqb_spec k k') as [->|Hne]; simpl; [done|].
  rewrite IH. by destruct (Map_get k m).
Qed.

Lemma Map_get_In k v m : Map_get k m = Some v → In (k, v) m.
Proof.
  induction m as [|[k' v'] m IH]; simpl; [discriminate|].
  destruct (String.eqb_spec k k') as [->|Hne].
  - intros [= ->]. by left.
  - intros H. right. by apply IH.
Qed.

Lemma Map_In_get k v m :
  List.NoDup (List.map fst m) → In (k, v) m → Map_get k m = Some v.
Proof.
  induction m as [|[k' v'] m IH]; simpl; [done|].
  intros Hnd Hin. apply NoDup_cons_iff in Hnd as [Hk' Hnd].
  destruct Hin as [[= -> ->] | Hin].
  - by rewrite String.eqb_refl.
  - destruct (String.eqb_spec k k') as [->|Hne]; [|by apply IH].
    exfalso. apply Hk'. apply in_map_iff. by exists (k', v).
Qed.

Lemma sum_Map_set (f : V → Z) k v m :
  spec.sum f (Map_values (Map_set k v m))
  = spec.sum f (Map_values m) + f v
    - match Map_get k m with Some old => f old | None => 0 end.
Proof.
  unfold Map_values. induction m as [|[k' v'] m IH]; simpl; [lia|].
  destruct (String.eqb_spec k k') as [->|Hne]; simpl; [lia|].
  rewrite IH. lia.
Qed.

End MapFacts.

Section SortFacts.
Import Js.
Context {A : Type} (key : A → Z).
Local Abbreviation descending := (aux.descending key).
Local Abbreviation sameKey := (aux.sameKey key).

Lemma insert_Permutation x l : Permutation (insert descending x l) (x :: l).
Proof.
  induction l as [|y l IH]; simpl; [done|].
  destruct (descending x y <=? 0); [done|].
  rewrite IH. apply perm_swap.
Qed.

Lemma insert_sorted x l :
  StronglySorted (fun a b => key b <= key a) l →
  StronglySorted (fun a b => key b <= key a) (insert descending x l).
Proof.
  induction l as [|y l IH]; intros Hs; simpl.
  - repeat constructor.
  - apply StronglySorted_inv in Hs as [Hl Hy].
    unfold aux.descending at 1. destruct (Z.leb_spec (key y - key x) 0) as [Hle|Hgt].
    + constructor; [by constructor|].
      constructor; [lia|].
      eapply Forall_impl; [exact Hy|]. simpl. intros; lia.
    + constructor; [by apply IH|].
      rewrite insert_Permutation. constructor; [lia | done].
Qed.

Lemma insert_stable x l v :
  List.filter (sameKey v) (insert descending x l)
  = List.filter (sameKey v) (x :: l).
Proof.
  induction l as [|y l IH]; [done|].
  cbn [insert]. unfold aux.descending at 1.
  destruct (Z.leb_spec (key y - key x) 0) as [Hle|Hgt]; [done|].
  cbn [List.filter] in *. rewrite IH. unfold aux.sameKey.
  destruct (Z.eqb_spec (key y) v), (Z.eqb_spec (key x) v); try done. lia.
Qed.

(** [sort] with this comparison function returns a permutation that
    is in descending order of the key and keeps the elements of equal
    key in their order. *)
Lemma sort_Permutation l : Permutation (sort descending l) l.
Proof.
  induction l as [|x l IH]; simpl; [done|].
  rewrite insert_Permutation. by constructor.
Qed.

Lemma sort_sorted l :
  StronglySorted (fun a b => key b <= key a) (sort descending l).
Proof.
  induction l as [|x l IH]; simpl; [constructor|]. by apply insert_sorted.
Qed.

Lemma sort_stable l v :
  List.filter (sameKey v) (sort descending l) = List.filter (sameKey v) l.
Proof.
  induction l as [|x l IH]; [done|].
  cbn [sort foldr]. fold (sort descending l).
  rewrite insert_stable. cbn [List.filter]. by rewrite IH.
Qed.

End SortFacts.

(* ================================================================== *)
(** * The contributor leaderboard *)
(* ================================================================== *)

Section FirstOccurrences.

Lemma firstOccurrences_In x l : In x (spec.firstOccurrences l) ↔ In x l.
Proof.
  induction l as [|a l IH]; simpl; [done|].
  rewrite filter_In, IH. destruct (String.eqb_spec x a) as [->|Hne]; simpl.
  - tauto.
  - split; [tauto|]. intros [E | H]; [congruence | tauto].
Qed.

Lemma firstOccurrences_NoDup l : List.NoDup (spec.firstOccurrences l).
Proof.
  induction l as [|a l IH]; simpl; constructor.
  - rewrite filter_In, String.eqb_refl. simpl. intros [_ H]. discriminate.
  - by apply List.NoDup_filter.
Qed.

Lemma filter_snoc {A} (p : A → bool) l x :
  List.filter p (l ++ [x]) = List.filter p l ++ (if p x then [x] else []).
Proof. by rewrite List.filter_app. Qed.

Lemma firstOccurrences_snoc l x :
  spec.firstOccurrences (l ++ [x])
  = if existsb (String.eqb x) l then spec.firstOccurrences l
    else spec.firstOccurrences l ++ [x].
Proof.
  induction l as [|a l IH]; simpl; [done|].
  rewrite IH. destruct (String.eqb_spec x a) as [->|Hne]; simpl.
  - destruct (existsb (String.eqb a) l); [done|].
    rewrite filter_snoc, String.eqb_refl. simpl. by rewrite app_nil_r.
  - destruct (existsb (String.eqb x) l); [done|].
    rewrite filter_snoc. destruct (String.eqb_spec x a); [done|]. done.
Qed.

Lemma existsb_eqb_In x l : existsb (String.eqb x) l = true ↔ In x l.
Proof.
  rewrite existsb_exists. split.
  - intros (y & Hy & ->%String.eqb_eq). done.
  - intros H. exists x. by rewrite String.eqb_refl.
Qed.

End FirstOccurrences.

Section Leaderboard.
Import Js filters.
Variables (h : Host) (thresholdDate : field).
Local Abbreviation item := aux.item.
Local Abbreviation items := aux.items.
Local Abbreviation visitItem := (aux.visitItem h thresholdDate).
Local Abbreviation bucketStep := (aux.bucketStep h thresholdDate).
Local Abbreviation bucketOk := aux.bucketOk.

Lemma collectContributors_items projects :
  collectContributors h projects thresholdDate
  = fold_left visitItem (items projects) [].
Proof.
  unfold collectContributors, aux.items. generalize (@nil (string * Contributor.t)).
  induction projects as [|p projects IH]; intros m; simpl; [done|].
  rewrite fold_left_app, IH. f_equal.
  generalize (Project.issues p) as l. clear. intros l. revert m.
  induction l as [|i l IH]; intros m; simpl; [done|]. by rewrite IH.
Qed.

Lemma items_issues projects :
  List.map snd (items projects) = flat_map Project.issues projects.
Proof.
  unfold aux.items. induction projects as [|p projects IH]; simpl; [done|].
  rewrite map_app, IH. f_equal. rewrite map_map. simpl. apply map_id.
Qed.

Lemma items_attributed projects :
  List.map (fun x : item => attribute x.1 x.2) (items projects)
  = spec.attributed projects.
Proof.
  unfold aux.items, spec.attributed.
  induction projects as [|p projects IH]; simpl; [done|].
  rewrite map_app, IH. f_equal. by rewrite map_map.
Qed.

Lemma Map_get_visitItem k m x :
  Map_get k (visitItem m x) = bucketStep k (Map_get k m) x.
Proof.
  unfold aux.visitItem, visit, aux.bucketStep.
  destruct (Issue.assignee x.2) as [a|]; [|done].
  set (u := User.login a).
  destruct (String.eqb_spec u k) as [<-|Hne].
  - unfold Map_has. destruct (Map_get u m) as [c|] eqn:Hget; simpl.
    + rewrite Hget. by rewrite Map_get_set_eq.
    + rewrite Map_get_set_eq. by rewrite Map_get_set_eq.
  - destruct (negb (Map_has u m)).
    + rewrite Map_get_set_eq, !Map_get_set_ne by done. done.
    + destruct (Map_get u m) as [c|] eqn:Hget; [|done].
      by rewrite Map_get_set_ne.
Qed.

Lemma Map_get_fold k l m :
  Map_get k (fold_left visitItem l m)
  = fold_left (bucketStep k) l (Map_get k m).
Proof.
  revert m. induction l as [|x l IH]; intros m; simpl; [done|].
  by rewrite IH, Map_get_visitItem.
Qed.

Lemma keys_visitItem m x :
  List.map fst (visitItem m x)
  = match Issue.assignee x.2 with
    | Some a =>
        if Map_has (User.login a) m then List.map fst m
        else List.map fst m ++ [User.login a]
    | None => List.map fst m
    end.
Proof.
  unfold aux.visitItem, visit.
  destruct (Issue.assignee x.2) as [a|]; [|done].
  set (u := User.login a).
  destruct (Map_has u m) eqn:Hhas; simpl.
  - unfold Map_has in Hhas. destruct (Map_get u m) as [c|] eqn:Hget; [|done].
    rewrite Map_keys_set. unfold Map_has. by rewrite Hget.
  - rewrite Map_get_set_eq, Map_keys_set.
    unfold Map_has at 1. rewrite Map_get_set_eq.
    rewrite Map_keys_set. by rewrite Hhas.
Qed.

Lemma assignees_snoc l i :
  spec.assignees (l ++ [i])
  = spec.assignees l
    ++ match Issue.assignee i with Some a => [User.login a] | None => [] end.
Proof.
  unfold spec.assignees. rewrite omap_app. f_equal. simpl.
  by destruct (Issue.assignee i).
Qed.

(** The keys of the map are the usernames of the assignees in the
    order of first encounter. *)
Lemma keys_fold l :
  List.map fst (fold_left visitItem l [])
  = spec.firstOccurrences (spec.assignees (List.map snd l)).
Proof.
  induction l as [|x l IH] using rev_ind; [done|].
  rewrite fold_left_app. simpl. rewrite keys_visitItem, IH.
  rewrite map_app. change (List.map snd [x]) with [x.2].
  rewrite assignees_snoc.
  destruct (Issue.assignee x.2) as [a|]; [|by rewrite app_nil_r].
  rewrite firstOccurrences_snoc.
  destruct (Map_has (User.login a) _) eqn:Hhas.
  - apply Map_has_In in Hhas. rewrite IH, firstOccurrences_In in Hhas.
    apply existsb_eqb_In in Hhas. by rewrite Hhas.
  - destruct (existsb _ _) eqn:Hex; [|done].
    apply existsb_eqb_In, firstOccurrences_In in Hex. rewrite <- IH in Hex.
    apply Map_has_In in Hex. congruence.
Qed.

Lemma credit_username p i c :
  Contributor.username (credit h thresholdDate p i c) = Contributor.username c.
Proof.
  unfold credit.
  repeat match goal with
  | |- context [if ?b then _ else _] => destruct b
  | |- context [match ?n with Num _ => _ | NaN => _ end] => destruct n
  end; reflexivity.
Qed.

Lemma credit_assignedIssues p i c :
  Contributor.assignedIssues (credit h thresholdDate p i c)
  = Contributor.assignedIssues c ++ [attribute p i].
Proof.
  unfold credit.
  repeat match goal with
  | |- context [if ?b then _ else _] => destruct b
  | |- context [match ?n with Num _ => _ | NaN => _ end] => destruct n
  end; reflexivity.
Qed.

Lemma credit_assignedCount p i c :
  Contributor.assignedCount (credit h thresholdDate p i c)
  = Contributor.assignedCount c + 1.
Proof.
  unfold credit.
  repeat match goal with
  | |- context [if ?b then _ else _] => destruct b
  | |- context [match ?n with Num _ => _ | NaN => _ end] => destruct n
  end; reflexivity.
Qed.

Lemma bucket_fold k l : bucketOk k l (fold_left (bucketStep k) l None).
Proof.
  induction l as [|x l IH] using rev_ind; [done|].
  rewrite fold_left_app. cbn [fold_left].
  unfold aux.bucketOk at 1. rewrite filter_snoc. unfold aux.bucketStep at 1.
  assert (Hat : spec.assignedTo k x.2
                = match Issue.assignee x.2 with
                  | Some a => String.eqb (User.login a) k
                  | None => false
                  end) by reflexivity.
  destruct (Issue.assignee x.2) as [a|];
    [|rewrite Hat, app_nil_r; exact IH].
  destruct (String.eqb_spec (User.login a) k) as [Hk|Hne];
    [|rewrite Hat, app_nil_r; exact IH].
  rewrite Hat.
  rewrite credit_username, credit_assignedIssues, credit_assignedCount.
  rewrite map_app. cbn [List.map]. unfold aux.bucketOk in IH.
  destruct (fold_left (bucketStep k) l None) as [c|]; cbn [default from_option id].
  - destruct IH as (Hu & Hi & Hc & Hpos). rewrite <- Hi, length_app.
    cbn [length]. repeat split; [done | lia | lia].
  - rewrite IH. cbn. repeat split; done.
Qed.

Lemma sum_visitItem m x :
  spec.sum Contributor.assignedCount (Map_values (visitItem m x))
  = spec.sum Contributor.assignedCount (Map_values m)
    + (if hasAssignee x.2 then 1 else 0).
Proof.
  unfold aux.visitItem, visit, hasAssignee.
  destruct (Issue.assignee x.2) as [a|]; simpl; [|lia].
  set (u := User.login a). unfold Map_has.
  destruct (Map_get u m) as [c|] eqn:Hget; simpl.
  - rewrite Hget, sum_Map_set, Hget, credit_assignedCount. lia.
  - rewrite Map_get_set_eq, sum_Map_set, Map_get_set_eq.
    rewrite sum_Map_set, Hget, credit_assignedCount. simpl. lia.
Qed.

Lemma sum_fold l m :
  spec.sum Contributor.assignedCount (Map_values (fold_left visitItem l m))
  = spec.sum Contributor.assignedCount (Map_values m)
    + count hasAssignee (List.map snd l).
Proof.
  revert m. induction l as [|x l IH]; intros m; simpl.
  - unfold count. simpl. lia.
  - rewrite IH, sum_visitItem. unfold count. simpl.
    destruct (hasAssignee x.2); simpl length; lia.
Qed.

(** The entries of the map, seen from the array of its values. *)
Lemma In_Map_values l c :
  In c (Map_values (fold_left visitItem l []))
  ↔ ∃ k, fold_left (bucketStep k) l None = Some c.
Proof.
  pose proof (firstOccurrences_NoDup (spec.assignees (List.map snd l))) as Hnd.
  rewrite <- keys_fold in Hnd.
  unfold Map_values. rewrite in_map_iff. split.
  - intros ([k c'] & <- & Hin). exists k.
    apply (Map_In_get _ _ _ Hnd) in Hin. by rewrite Map_get_fold in Hin.
  - intros (k & Hk). exists (k, c). split; [done|].
    apply Map_get_In. by rewrite Map_get_fold.
Qed.

Lemma Map_values_username (m : Map Contributor.t) :
  (∀ k c, In (k, c) m → Contributor.username c = k) →
  List.map Contributor.username (Map_values m) = List.map fst m.
Proof.
  unfold Map_values. rewrite map_map. intros H.
  apply map_ext_in. intros [k c] Hin. simpl. by apply H.
Qed.

Lemma usernames_fold l :
  List.map Contributor.username (Map_values (fold_left visitItem l []))
  = spec.firstOccurrences (spec.assignees (List.map snd l)).
Proof.
  rewrite <- keys_fold. apply Map_values_username.
  intros k c Hin.
  pose proof (firstOccurrences_NoDup (spec.assignees (List.map snd l))) as Hnd.
  rewrite <- keys_fold in Hnd.
  apply (Map_In_get _ _ _ Hnd) in Hin. rewrite Map_get_fold in Hin.
  cbn [Map_get] in Hin.
  pose proof (bucket_fold k l) as Hb. rewrite Hin in Hb. apply Hb.
Qed.

(** Sorting rearranges the values of the map and nothing else. *)
Lemma buildContributorLeaderboard_Permutation projects sortBy :
  Permutation (buildContributorLeaderboard h projects thresholdDate sortBy)
              (Map_values (collectContributors h projects thresholdDate)).
Proof.
  unfold buildContributorLeaderboard.
  repeat match goal with
  | |- context [if ?b then _ else _] => destruct b
  end; try apply sort_Permutation; reflexivity.
Qed.

Lemma sum_Permutation {A} (f : A → Z) l1 l2 :
  Permutation l1 l2 → spec.sum f l1 = spec.sum f l2.
Proof. induction 1; simpl; lia. Qed.

Lemma filter_map_attributed k (l : list item) :
  List.map (fun x : item => attribute x.1 x.2)
    (List.filter (fun x : item => spec.assignedTo k x.2) l)
  = List.filter (fun a => spec.assignedTo k (Attributed.issue a))
      (List.map (fun x : item => attribute x.1 x.2) l).
Proof.
  induction l as [|x l IH]; simpl; [done|].
  destruct (spec.assignedTo k x.2); simpl; by rewrite IH.
Qed.

End Leaderboard.

Section LeaderboardClaims.
Import Js filters aux.

Lemma In_assignees u issues :
  In u (spec.assignees issues)
  ↔ ∃ i a, In i issues ∧ Issue.assignee i = Some a ∧ User.login a = u.
Proof.
  unfold spec.assignees. induction issues as [|i issues IH]; simpl.
  - split; [done | intros (? & ? & [] & _)].
  - destruct (Issue.assignee i) as [a|] eqn:Ha; simpl.
    + rewrite IH. split.
      * intros [<- | (i' & a' & Hin & H)]; [exists i, a; auto|].
        exists i', a'. tauto.
      * intros (i' & a' & [<- | Hin] & Ha' & Hu).
        -- left. congruence.
        -- right. eauto.
    + rewrite IH. split.
      * intros (i' & a' & Hin & H). exists i', a'. tauto.
      * intros (i' & a' & [<- | Hin] & Ha' & Hu); [congruence | eauto].
Qed.

(** C5: the assigned counts of the leaderboard add up to the number of
    issues that have an assignee.  No username has two entries, and the
    entry of a username holds exactly the issues assigned to it, so that
    an assigned issue is attributed to one contributor. *)
Theorem buildContributorLeaderboard_assignedCount
    (h : Host) (projects : list Project.t) (thresholdDate : field)
    (sortBy : option string) :
  let leaderboard := buildContributorLeaderboard h projects thresholdDate sortBy in
  spec.sum Contributor.assignedCount leaderboard
  = count hasAssignee (flat_map Project.issues projects)
  ∧ List.NoDup (List.map Contributor.username leaderboard)
  ∧ ∀ c, In c leaderboard →
      Contributor.assignedIssues c
      = List.filter
          (fun a => spec.assignedTo (Contributor.username c) (Attributed.issue a))
          (spec.attributed projects)
      ∧ Contributor.assignedCount c
        = Z.of_nat (length (Contributor.assignedIssues c)).
Proof.
  intros leaderboard.
  pose proof (buildContributorLeaderboard_Permutation h thresholdDate projects sortBy)
    as Hperm. fold leaderboard in Hperm.
  rewrite collectContributors_items in Hperm.
  split; [|split].
  - rewrite (sum_Permutation _ _ _ Hperm), sum_fold, items_issues. simpl. lia.
  - eapply Permutation_NoDup.
    + symmetry. apply Permutation_map, Hperm.
    + rewrite usernames_fold. apply firstOccurrences_NoDup.
  - intros c Hc. apply (Permutation_in _ Hperm) in Hc.
    apply In_Map_values in Hc as (k & Hk).
    pose proof (bucket_fold h thresholdDate k (items projects)) as Hb.
    rewrite Hk in Hb. destruct Hb as (Hu & Hi & Hn & _).
    split; [|done]. rewrite Hi, Hu, filter_map_attributed.
    by rewrite items_attributed.
Qed.

Lemma buildContributorLeaderboard_assignedCount_witness :
  match
    nth_error
      (buildContributorLeaderboard Hosts.utc [sample.tracker] sample.threshold None) 2
  with
  | Some c =>
      Contributor.username c = "amal"
      ∧ Contributor.assignedCount c = 2
      ∧ Contributor.assignedCount c
        = Z.of_nat (length (Contributor.assignedIssues c))
  | None => False
  end.
Proof.
  destruct (nth_error _ 2) as [c|] eqn:Hc; [|vm_compute in Hc; discriminate Hc].
  split; [|split].
  - vm_compute in Hc. by inversion Hc.
  - vm_compute in Hc. by inversion Hc.
  - apply (buildContributorLeaderboard_assignedCount Hosts.utc
             [sample.tracker] sample.threshold None).
    eapply nth_error_In, Hc.
Defined.

(** C6: a username has an entry in the leaderboard exactly when an
    issue of some project is assigned to it, and every entry counts at
    least one assigned issue. *)
Theorem buildContributorLeaderboard_entries
    (h : Host) (projects : list Project.t) (thresholdDate : field)
    (sortBy : option string) :
  let leaderboard := buildContributorLeaderboard h projects thresholdDate sortBy in
  (∀ u, (∃ c, In c leaderboard ∧ Contributor.username c = u)
        ↔ (∃ p i a, In p projects ∧ In i (Project.issues p)
                    ∧ Issue.assignee i = Some a ∧ User.login a = u))
  ∧ (∀ c, In c leaderboard → 1 <= Contributor.assignedCount c).
Proof.
  intros leaderboard.
  pose proof (buildContributorLeaderboard_Permutation h thresholdDate projects sortBy)
    as Hperm. fold leaderboard in Hperm.
  rewrite collectContributors_items in Hperm.
  split.
  - intros u.
    assert (Hiff : (∃ c, In c leaderboard ∧ Contributor.username c = u)
                   ↔ In u (List.map Contributor.username leaderboard)).
    { rewrite in_map_iff. split; intros (c & H1 & H2); exists c; auto. }
    rewrite Hiff.
    assert (Hp : Permutation (List.map Contributor.username leaderboard)
                   (spec.firstOccurrences
                      (spec.assignees (flat_map Project.issues projects)))).
    { rewrite <- items_issues, <- (usernames_fold h thresholdDate).
      apply Permutation_map, Hperm. }
    split.
    + intros Hin. apply (Permutation_in _ Hp) in Hin.
      apply firstOccurrences_In, In_assignees in Hin as (i & a & Hi & Ha & Hu).
      apply in_flat_map in Hi as (p & Hp' & Hi). exists p, i, a. auto.
    + intros (p & i & a & Hp' & Hi & Ha & Hu).
      apply (Permutation_in _ (Permutation_sym Hp)).
      apply firstOccurrences_In, In_assignees. exists i, a.
      split; [|auto]. apply in_flat_map. eauto.
  - intros c Hc. apply (Permutation_in _ Hperm) in Hc.
    apply In_Map_values in Hc as (k & Hk).
    pose proof (bucket_fold h thresholdDate k (items projects)) as Hb.
    rewrite Hk in Hb. apply Hb.
Qed.

Lemma buildContributorLeaderboard_entries_witness :
  match
    nth_error
      (buildContributorLeaderboard Hosts.utc [sample.tracker] sample.threshold None) 0
  with
  | Some c => Contributor.username c = "badr" ∧ 1 <= Contributor.assignedCount c
  | None => False
  end.
Proof.
  destruct (nth_error _ 0) as [c|] eqn:Hc; [|vm_compute in Hc; discriminate Hc].
  split.
  - vm_compute in Hc. by inversion Hc.
  - apply (proj2 (buildContributorLeaderboard_entries Hosts.utc
                    [sample.tracker] sample.threshold None)).
    eapply nth_error_In, Hc.
Defined.

(** C7: for each of the three sort orders the leaderboard is the list
    of contributors in the order of first encounter, rearranged into
    descending order of the selected key, with the contributors of equal
    key left in the order of first encounter. *)
Theorem buildContributorLeaderboard_stable_sort
    (h : Host) (projects : list Project.t) (thresholdDate : field)
    (sortBy : option string) (key : Contributor.t → Z) :
  spec.sortKey (default "points" sortBy) = Some key →
  let encounter := Map_values (collectContributors h projects thresholdDate) in
  let leaderboard := buildContributorLeaderboard h projects thresholdDate sortBy in
  List.map Contributor.username encounter
  = spec.firstOccurrences (spec.assignees (flat_map Project.issues projects))
  ∧ Permutation leaderboard encounter
  ∧ StronglySorted (fun a b => key b <= key a) leaderboard
  ∧ ∀ v, List.filter (fun c => key c =? v) leaderboard
         = List.filter (fun c => key c =? v) encounter.
Proof.
  intros Hkey encounter leaderboard. split; [|split].
  - subst encounter. rewrite collectContributors_items, usernames_fold.
    by rewrite items_issues.
  - apply buildContributorLeaderboard_Permutation.
  - subst leaderboard. unfold buildContributorLeaderboard. fold encounter.
    unfold spec.sortKey in Hkey.
    destruct (String.eqb (default "points" sortBy) "points");
      [|destruct (String.eqb (default "points" sortBy) "closed");
        [|destruct (String.eqb (default "points" sortBy) "assigned");
          [|discriminate]]];
      injection Hkey as <-;
      (split; [apply (sort_sorted _ encounter) | intros v; apply (sort_stable _ encounter v)]).
Qed.

Lemma buildContributorLeaderboard_stable_sort_witness :
  List.map Contributor.username
    (Map_values (collectContributors Hosts.utc [sample.tracker] sample.threshold))
  = ["amal"; "badr"; "chadi"]
  ∧ List.map Contributor.username
      (buildContributorLeaderboard Hosts.utc [sample.tracker] sample.threshold None)
    = ["badr"; "chadi"; "amal"]
  ∧ List.map Contributor.totalPoints
      (buildContributorLeaderboard Hosts.utc [sample.tracker] sample.threshold None)
    = [10; 10; 3]
  ∧ StronglySorted
      (fun a b => Contributor.totalPoints b <= Contributor.totalPoints a)
      (buildContributorLeaderboard Hosts.utc [sample.tracker] sample.threshold None).
Proof.
  split; [vm_compute; reflexivity|].
  split; [vm_compute; reflexivity|].
  split; [vm_compute; reflexivity|].
  apply (buildContributorLeaderboard_stable_sort Hosts.utc [sample.tracker]
           sample.threshold None Contributor.totalPoints eq_refl).
Defined.

End LeaderboardClaims.

(* ================================================================== *)
(** * The daily counts *)
(* ================================================================== *)

Section DailyInit.
Import Js filters aux.

Lemma days_from_civil_linear y m d :
  days_from_civil y m d = days_from_civil y m 1 + d - 1.
Proof. unfold days_from_civil. lia. Qed.

Lemma MakeDay_next t :
  MakeDay (YearFromTime t) (MonthFromTime t) (DateFromTime t + 1) = Day t + 1.
Proof.
  unfold MakeDay, YearFromTime, MonthFromTime, DateFromTime.
  pose proof (civil_from_days_range (Day t)) as Hr.
  pose proof (days_from_civil_from_days (Day t)) as Hd.
  destruct (civil_from_days (Day t)) as [[y m] d]. simpl.
  rewrite Z.div_small, Z.mod_small by lia.
  rewrite days_from_civil_linear in Hd.
  replace (m - 1 + 1) with m by lia. replace (y + 0) with y by lia. lia.
Qed.

(** On such a host [curr.setDate(curr.getDate() + 1)] adds a day. *)
Lemma setDate_next h t :
  fixedOffset h →
  setDate h (Some t) (d ← getDate h (Some t); Some (d + 1))
  = TimeClip (t + msPerDay).
Proof.
  intros [offset Hoff]. unfold setDate, getDate. simpl.
  unfold LocalTime, UTC. rewrite !Hoff. rewrite MakeDay_next.
  f_equal. unfold MakeDate, Day, TimeWithinDay.
  pose proof (Z.div_mod (t + offset) msPerDay ltac:(done)). lia.
Qed.

Lemma initDays_exit h fuel curr end_ data :
  Date_le curr end_ = false →
  initDays h (S fuel) curr end_ data = Returns data.
Proof. intros H. simpl. by rewrite H. Qed.

Lemma initDays_step h fuel t end_ data :
  Date_le (Some t) end_ = true →
  initDays h (S fuel) (Some t) end_ data
  = initDays h fuel (setDate h (Some t) (d ← getDate h (Some t); Some (d + 1)))
      end_ (initDay (isoDate t) data).
Proof. intros H. cbn [initDays]. by rewrite H. Qed.

Lemma initAll_cons d days data :
  initAll (d :: days) data = initAll days (initDay (dayString d) data).
Proof. reflexivity. Qed.

Lemma dayString_eq d : isoDate (MakeDate d 0) = dayString d.
Proof. unfold dayString. reflexivity. Qed.

Lemma initDays_fixed h n d d1 fuel data :
  fixedOffset h →
  d + Z.of_nat n = d1 + 1 → -100000000 <= d → d1 <= 100000000 →
  (n < fuel)%nat →
  initDays h fuel (Some (MakeDate d 0)) (Some (MakeDate d1 0)) data
  = Returns (initAll (daysFrom d n) data).
Proof.
  intros Hh. revert d fuel data.
  induction n as [|n IH]; intros d fuel data Hn Hlo Hhi Hfuel.
  - destruct fuel as [|fuel]; [lia|]. apply initDays_exit.
    unfold Date_le, MakeDate, msPerDay. apply Z.leb_gt. lia.
  - destruct fuel as [|fuel]; [lia|].
    rewrite initDays_step
      by (unfold Date_le, MakeDate, msPerDay; apply Z.leb_le; lia).
    rewrite setDate_next by done.
    replace (MakeDate d 0 + msPerDay) with (MakeDate (d + 1) 0)
      by (unfold MakeDate; lia).
    change (daysFrom d (S n)) with (d :: daysFrom (d + 1) n).
    rewrite initAll_cons, dayString_eq.
    destruct n as [|n].
    + destruct fuel as [|fuel]; [lia|]. apply initDays_exit.
      unfold TimeClip. destruct (Z.abs _ <=? _); [|done].
      unfold Date_le, MakeDate, msPerDay. apply Z.leb_gt. lia.
    + assert (Hclip : TimeClip (MakeDate (d + 1) 0) = Some (MakeDate (d + 1) 0)).
      { unfold TimeClip, MakeDate, msPerDay.
        destruct (Z.leb_spec (Z.abs ((d + 1) * 86400000 + 0)) 8640000000000000);
          [done | lia]. }
      rewrite Hclip. apply IH; lia.
Qed.

End DailyInit.

Section DailyCount.
Import Js filters aux.
Variable h : Host.
Local Abbreviation closedOn := (aux.closedOn h).
Local Abbreviation datedIssue := (aux.datedIssue h).
Local Abbreviation datedPr := (aux.datedPr h).
Local Abbreviation datedProject := (aux.datedProject h).

Lemma lookup_bump d (m : gmap string Z) k :
  bump d m !! k
  = (fun n => n + (if bool_decide (d = k) then 1 else 0)) <$> (m !! k).
Proof.
  unfold bump. destruct (m !! d) as [n|] eqn:Hd.
  - case_bool_decide as Hk.
    + subst k. rewrite lookup_insert_eq, Hd. simpl. done.
    + rewrite lookup_insert_ne by done.
      destruct (m !! k); simpl; f_equal; lia.
  - case_bool_decide as Hk.
    + subst k. by rewrite Hd.
    + destruct (m !! k); simpl; f_equal; lia.
Qed.

Lemma dom_bump d (m : gmap string Z) : dom (bump d m) = dom m.
Proof.
  apply set_eq. intros k. rewrite !elem_of_dom, lookup_bump.
  by rewrite fmap_is_Some.
Qed.

Lemma forEach_invariant {A S} (f : S → A → outcome S) (P : S → Prop) l s s' :
  (∀ s x s', In x l → f s x = Returns s' → P s → P s') →
  forEach f l s = Returns s' → P s → P s'.
Proof.
  revert s. induction l as [|x l IH]; intros s Hstep Hrun Hs; simpl in Hrun.
  - by injection Hrun as <-.
  - destruct (f s x) as [s1| |] eqn:Hf; simpl in Hrun; try discriminate.
    apply (IH s1); [|done|].
    + intros ? ? ? Hin. apply Hstep. by right.
    + apply (Hstep s x); [by left | done | done].
Qed.

Lemma forEach_returns {A S} (f : S → A → outcome S) l s :
  (∀ s x, In x l → ∃ s', f s x = Returns s') →
  ∃ s', forEach f l s = Returns s'.
Proof.
  revert s. induction l as [|x l IH]; intros s Hstep; simpl; [eauto|].
  destruct (Hstep s x (or_introl eq_refl)) as [s1 ->]. simpl.
  apply IH. intros ? ? Hin. apply Hstep. by right.
Qed.

Lemma dateOf_Returns v s :
  dateOf h v = Returns s ↔ toISOString_date (new_Date h v) = Some s.
Proof.
  unfold dateOf. destruct (toISOString_date _); split; congruence.
Qed.

(** *** The loop over the issues *)

Lemma countIssue_merged data i data' :
  countIssue h data i = Returns data' →
  DailyCounts.merged_prs data' = DailyCounts.merged_prs data.
Proof.
  unfold countIssue.
  destruct (truthy (Issue.created_at i));
    [destruct (dateOf h (Issue.created_at i)); simpl; try discriminate|];
    simpl;
    (destruct (String.eqb (Issue.state i) "closed" && truthy (Issue.closed_at i));
     [destruct (dateOf h (Issue.closed_at i)); simpl; try discriminate|]);
    by intros [= <-].
Qed.

Lemma countIssue_keys data i data' :
  countIssue h data i = Returns data' → sameKeys data data'.
Proof.
  unfold countIssue, sameKeys.
  destruct (truthy (Issue.created_at i));
    [destruct (dateOf h (Issue.created_at i)); simpl; try discriminate|];
    simpl;
    (destruct (String.eqb (Issue.state i) "closed" && truthy (Issue.closed_at i));
     [destruct (dateOf h (Issue.closed_at i)); simpl; try discriminate|]);
    intros [= <-]; simpl; rewrite ?dom_bump; done.
Qed.

Lemma countIssue_returns data i :
  datedIssue i = true → ∃ data', countIssue h data i = Returns data'.
Proof.
  unfold aux.datedIssue, countIssue, dateOf, toISOString_date.
  intros [H1 H2]%andb_true_iff.
  destruct (truthy (Issue.created_at i)); simpl in H1.
  - destruct (new_Date h (Issue.created_at i)); [|done]. simpl.
    destruct (String.eqb (Issue.state i) "closed" && truthy (Issue.closed_at i));
      simpl in H2; [|eauto].
    destruct (new_Date h (Issue.closed_at i)); [|done]. simpl. eauto.
  - simpl.
    destruct (String.eqb (Issue.state i) "closed" && truthy (Issue.closed_at i));
      simpl in H2; [|eauto].
    destruct (new_Date h (Issue.closed_at i)); [|done]. simpl. eauto.
Qed.

(** *** The loop over the pull requests *)

Lemma countPr_merged data pr data' k :
  countPr h data pr = Returns data' →
  DailyCounts.merged_prs data' !! k
  = (fun n => n + (if closedOn k pr then 1 else 0))
      <$> (DailyCounts.merged_prs data !! k).
Proof.
  unfold countPr, aux.closedOn.
  destruct (dateOf h (PullRequest.created_at pr)) as [dc| |];
    simpl; try discriminate.
  destruct (String.eqb (PullRequest.state pr) "closed"
            && truthy (PullRequest.closed_at pr)) eqn:Hc; simpl.
  - destruct (dateOf h (PullRequest.closed_at pr)) as [d| |] eqn:Hd;
      simpl; try discriminate.
    intros [= <-]. simpl. rewrite lookup_bump.
    apply dateOf_Returns in Hd. rewrite Hd.
    destruct (DailyCounts.merged_prs data !! k); simpl; [|done].
    f_equal. do 2 case_bool_decide; congruence.
  - destruct (String.eqb (PullRequest.state pr) "open");
      intros [= <-]; simpl;
      destruct (DailyCounts.merged_prs data !! k); simpl; f_equal; lia.
Qed.

Lemma countPr_keys data pr data' :
  countPr h data pr = Returns data' → sameKeys data data'.
Proof.
  unfold countPr, sameKeys.
  destruct (dateOf h (PullRequest.created_at pr)) as [dc| |];
    simpl; try discriminate.
  destruct (String.eqb (PullRequest.state pr) "closed"
            && truthy (PullRequest.closed_at pr)); simpl.
  - destruct (dateOf h (PullRequest.closed_at pr)) as [d| |];
      simpl; try discriminate.
    intros [= <-]. simpl. by rewrite dom_bump.
  - destruct (String.eqb (PullRequest.state pr) "open");
      intros [= <-]; simpl; rewrite ?dom_bump; done.
Qed.

Lemma countPr_returns data pr :
  datedPr pr = true → ∃ data', countPr h data pr = Returns data'.
Proof.
  unfold aux.datedPr, countPr, dateOf, toISOString_date.
  intros [H1 H2]%andb_true_iff.
  destruct (new_Date h (PullRequest.created_at pr)); [|done]. simpl.
  destruct (String.eqb (PullRequest.state pr) "closed"
            && truthy (PullRequest.closed_at pr)); simpl in H2.
  - destruct (new_Date h (PullRequest.closed_at pr)); [|done]. simpl. eauto.
  - destruct (String.eqb (PullRequest.state pr) "open"); eauto.
Qed.

Lemma sameKeys_refl data : sameKeys data data.
Proof. by repeat split. Qed.

Lemma sameKeys_trans d1 d2 d3 :
  sameKeys d1 d2 → sameKeys d2 d3 → sameKeys d1 d3.
Proof.
  unfold sameKeys. intros (?&?&?&?) (?&?&?&?). repeat split; congruence.
Qed.

Lemma forEach_countPr_merged prs data data' k :
  forEach (countPr h) prs data = Returns data' →
  DailyCounts.merged_prs data' !! k
  = (fun n => n + count (closedOn k) prs)
      <$> (DailyCounts.merged_prs data !! k).
Proof.
  revert data. induction prs as [|pr prs IH]; intros data Hrun; simpl in Hrun.
  - inversion Hrun; subst. unfold count. simpl.
    destruct (DailyCounts.merged_prs data' !! k); simpl; f_equal; lia.
  - destruct (countPr h data pr) as [d1| |] eqn:Hpr; simpl in Hrun;
      try discriminate.
    rewrite (IH d1 Hrun), (countPr_merged _ _ _ k Hpr).
    destruct (DailyCounts.merged_prs data !! k); simpl; [|done].
    f_equal. unfold count. simpl. destruct (closedOn k pr); simpl length; lia.
Qed.

(** *** The loop over the projects *)

Lemma countProject_merged data p data' k :
  countProject h data p = Returns data' →
  DailyCounts.merged_prs data' !! k
  = (fun n => n + count (closedOn k) (default [] (Project.prs p)))
      <$> (DailyCounts.merged_prs data !! k).
Proof.
  unfold countProject.
  destruct (forEach (countIssue h) (Project.issues p) data) as [d1| |] eqn:Hi;
    simpl; try discriminate.
  assert (Hm : DailyCounts.merged_prs d1 = DailyCounts.merged_prs data).
  { apply (forEach_invariant (countIssue h)
             (fun d => DailyCounts.merged_prs d = DailyCounts.merged_prs data)
             _ _ _ ltac:(intros ? ? ? _ Hs <-; symmetry; rewrite <- (countIssue_merged _ _ _ Hs); done)
             Hi eq_refl). }
  destruct (Project.prs p) as [prs|]; simpl.
  - intros Hrun. by rewrite (forEach_countPr_merged _ _ _ k Hrun), Hm.
  - intros [= <-]. rewrite Hm. unfold count. simpl.
    destruct (DailyCounts.merged_prs data !! k); simpl; f_equal; lia.
Qed.

Lemma countProject_keys data p data' :
  countProject h data p = Returns data' → sameKeys data data'.
Proof.
  unfold countProject.
  destruct (forEach (countIssue h) (Project.issues p) data) as [d1| |] eqn:Hi;
    simpl; try discriminate.
  assert (H1 : sameKeys data d1).
  { apply (forEach_invariant (countIssue h) (sameKeys data) _ _ _
             ltac:(intros ? ? ? _ Hs Hk; eapply sameKeys_trans;
                   [exact Hk | exact (countIssue_keys _ _ _ Hs)])
             Hi (sameKeys_refl data)). }
  destruct (Project.prs p) as [prs|]; simpl.
  - intros Hrun.
    apply (forEach_invariant (countPr h) (sameKeys data) _ _ _
             ltac:(intros ? ? ? _ Hs Hk; eapply sameKeys_trans;
                   [exact Hk | exact (countPr_keys _ _ _ Hs)])
             Hrun H1).
  - by intros [= <-].
Qed.

Lemma countProject_returns data p :
  datedProject p = true → ∃ data', countProject h data p = Returns data'.
Proof.
  unfold aux.datedProject, countProject. intros [Hi Hp]%andb_true_iff.
  rewrite forallb_forall in Hi, Hp.
  destruct (forEach_returns (countIssue h) (Project.issues p) data) as [d1 ->].
  { intros s x Hx. apply countIssue_returns. auto. }
  simpl. destruct (Project.prs p) as [prs|]; [|eauto].
  apply forEach_returns. intros s x Hx. apply countPr_returns. auto.
Qed.

Lemma forEach_countProject_merged projects data data' k :
  forEach (countProject h) projects data = Returns data' →
  DailyCounts.merged_prs data' !! k
  = (fun n => n + count (closedOn k) (allPrs projects))
      <$> (DailyCounts.merged_prs data !! k).
Proof.
  revert data. induction projects as [|p projects IH]; intros data Hrun;
    simpl in Hrun.
  - inversion Hrun; subst. unfold count. simpl.
    destruct (DailyCounts.merged_prs data' !! k); simpl; f_equal; lia.
  - destruct (countProject h data p) as [d1| |] eqn:Hp; simpl in Hrun;
      try discriminate.
    rewrite (IH d1 Hrun), (countProject_merged _ _ _ k Hp).
    destruct (DailyCounts.merged_prs data !! k); simpl; [|done].
    f_equal. unfold count, allPrs. simpl.
    rewrite List.filter_app, length_app. lia.
Qed.

(** *** The initialisation *)

(** Whatever the host, every entry that the [while] loop leaves is 0. *)
Lemma initDays_allZero fuel curr end_ data data' :
  initDays h fuel curr end_ data = Returns data' →
  allZero data → allZero data'.
Proof.
  revert curr data. induction fuel as [|fuel IH]; intros curr data; simpl;
    [discriminate|].
  destruct (Date_le curr end_); [|by intros [= <-]].
  destruct (toISOString_date curr) as [s|]; [|discriminate].
  intros Hrun Hz. apply (IH _ _ Hrun).
  intros k n. simpl. destruct (decide (s = k)) as [->|Hne].
  - rewrite lookup_insert_eq. by intros [= <-].
  - rewrite lookup_insert_ne by done. apply Hz.
Qed.

End DailyCount.

Section DailyClaims.
Import Js filters aux.

Lemma In_daysFrom d a n : In d (daysFrom a n) ↔ a <= d < a + Z.of_nat n.
Proof.
  revert a. induction n as [|n IH]; intros a; simpl; [lia|].
  rewrite IH. lia.
Qed.

Lemma In_daysOfRange d d0 d1 : In d (daysOfRange d0 d1) ↔ d0 <= d <= d1.
Proof. unfold daysOfRange. rewrite In_daysFrom. lia. Qed.

Lemma initAll_keys days data k :
  (k ∈ dom (DailyCounts.assigned (initAll days data))
   ↔ k ∈ dom (DailyCounts.assigned data) ∨ ∃ d, In d days ∧ k = dayString d)
  ∧ (k ∈ dom (DailyCounts.closed (initAll days data))
     ↔ k ∈ dom (DailyCounts.closed data) ∨ ∃ d, In d days ∧ k = dayString d)
  ∧ (k ∈ dom (DailyCounts.merged_prs (initAll days data))
     ↔ k ∈ dom (DailyCounts.merged_prs data) ∨ ∃ d, In d days ∧ k = dayString d)
  ∧ (k ∈ dom (DailyCounts.open_prs (initAll days data))
     ↔ k ∈ dom (DailyCounts.open_prs data) ∨ ∃ d, In d days ∧ k = dayString d).
Proof.
  revert data. induction days as [|d days IH]; intros data.
  - simpl. repeat split; try tauto; intros [? | (? & [] & _)]; done.
  - cbn [initAll fold_left]. fold (initAll days (initDay (dayString d) data)).
    destruct (IH (initDay (dayString d) data)) as (Ha & Hc & Hm & Ho).
    rewrite Ha, Hc, Hm, Ho. simpl. rewrite !dom_insert, !elem_of_union,
      !elem_of_singleton.
    repeat split;
      (intros [[-> | H] | (d' & Hd' & ->)];
         [right; exists d; auto | by left | right; exists d'; auto])
      || (intros [H | (d' & [<- | Hd'] & ->)];
            [left; by right | left; by left | right; exists d'; auto]).
Qed.

Lemma new_Date_range h v t :
  new_Date h v = Some t → Z.abs t <= 8640000000000000.
Proof.
  destruct v as [| |s]; simpl; [done | intros [= <-]; lia |].
  destruct (Date_parse h s) as [t'|]; simpl; [|done].
  unfold TimeClip. destruct (Z.leb_spec (Z.abs t') 8640000000000000); [|done].
  by intros [= <-].
Qed.

(** A valid date is formatted as a given day exactly when its time
    value is on that day. *)
Lemma toISOString_date_day h v d :
  -100000000 <= d <= 100000000 →
  toISOString_date (new_Date h v) = Some (dayString d)
  ↔ ∃ t, new_Date h v = Some t ∧ Day t = d.
Proof.
  intros Hd. destruct (new_Date h v) as [t|] eqn:Hn; simpl.
  - split.
    + intros [= Heq]. exists t. split; [done|].
      rewrite isoDate_Day in Heq. apply dayString_inj in Heq; [done| |done].
      apply Day_range. by apply (new_Date_range h v).
    + intros (t' & [= <-] & <-). by rewrite isoDate_Day.
  - split; [done | by intros (? & ? & _)].
Qed.

(** A pull request is counted on a day when it is closed and its
    closing time is on that day. *)
Lemma closedOn_day h d pr :
  -100000000 <= d <= 100000000 →
  closedOn h (dayString d) pr = true
  ↔ PullRequest.state pr = "closed"
    ∧ truthy (PullRequest.closed_at pr) = true
    ∧ ∃ t, new_Date h (PullRequest.closed_at pr) = Some t ∧ Day t = d.
Proof.
  intros Hd. unfold closedOn.
  rewrite !andb_true_iff, String.eqb_eq, bool_decide_eq_true.
  rewrite (toISOString_date_day h _ d Hd). tauto.
Qed.

(** The [while] loop on a host at a constant offset, for a range given
    by two dates at midnight UTC: it returns, given fuel for one test
    of the condition more than there are days, and has set the entries
    of the days of the range. *)
Lemma initDays_range h fuel d0 d1 data :
  fixedOffset h →
  Z.abs (MakeDate d0 0) <= 8640000000000000 →
  Z.abs (MakeDate d1 0) <= 8640000000000000 →
  (Z.to_nat (d1 - d0 + 1) < fuel)%nat →
  initDays h fuel (Some (MakeDate d0 0)) (Some (MakeDate d1 0)) data
  = Returns (initAll (daysOfRange d0 d1) data).
Proof.
  intros Hh H0 H1 Hfuel. unfold MakeDate, msPerDay in H0, H1.
  destruct (Z.le_gt_cases d0 (d1 + 1)) as [Hle|Hgt].
  - apply initDays_fixed; try done; lia.
  - unfold daysOfRange. replace (Z.to_nat (d1 - d0 + 1)) with O by lia.
    destruct fuel as [|fuel]; [lia|]. apply initDays_exit.
    unfold Date_le, MakeDate, msPerDay. apply Z.leb_gt. lia.
Qed.

(** On a host at a constant offset from UTC, for a range of two dates
    and projects whose timestamps are valid, the call returns and the
    keys of each of the four mappings are the days of the range. *)
Theorem calculateDailyCounts_keys
    (h : Host) (fuel : nat) (projects : list Project.t)
    (startDateStr endDateStr : string) (d0 d1 : Z) :
  fixedOffset h →
  new_Date h (Str startDateStr) = Some (MakeDate d0 0) →
  new_Date h (Str endDateStr) = Some (MakeDate d1 0) →
  (Z.to_nat (d1 - d0 + 1) < fuel)%nat →
  forallb (datedProject h) projects = true →
  ∃ data,
    calculateDailyCounts h fuel projects startDateStr endDateStr = Returns data
    ∧ keysAre d0 d1 (DailyCounts.assigned data)
    ∧ keysAre d0 d1 (DailyCounts.closed data)
    ∧ keysAre d0 d1 (DailyCounts.merged_prs data)
    ∧ keysAre d0 d1 (DailyCounts.open_prs data).
Proof.
  intros Hh Hs He Hfuel Hdated. unfold calculateDailyCounts.
  rewrite Hs, He.
  rewrite initDays_range; try done; try (eapply new_Date_range; eassumption).
  simpl.
  destruct (forEach_returns (countProject h) projects
              (initAll (daysOfRange d0 d1) emptyCounts)) as [data Hrun].
  { intros s p Hp. apply countProject_returns.
    rewrite forallb_forall in Hdated. auto. }
  exists data. split; [done|].
  assert (Hk : sameKeys (initAll (daysOfRange d0 d1) emptyCounts) data).
  { apply (forEach_invariant (countProject h) (sameKeys _) _ _ _
             ltac:(intros ? ? ? _ Hstep Hk; eapply sameKeys_trans;
                   [exact Hk | exact (countProject_keys _ _ _ _ Hstep)])
             Hrun (sameKeys_refl _)). }
  destruct Hk as (Ka & Kc & Km & Ko).
  unfold keysAre. rewrite Ka, Kc, Km, Ko.
  repeat split; intros Hin.
  all: try (apply (initAll_keys (daysOfRange d0 d1) emptyCounts k) in Hin
              as [Hin | (d & Hd & ->)];
            [simpl in Hin; by rewrite dom_empty, elem_of_empty in Hin
            | exists d; split; [by apply In_daysOfRange | done]]).
  all: destruct Hin as (d & Hd & ->);
       apply (initAll_keys (daysOfRange d0 d1) emptyCounts (dayString d));
       right; exists d; split; [by apply In_daysOfRange | done].
Qed.

(** C8, at the input where the code departs from it: the call that
    the application makes, on a host whose summer time starts within the
    range.  The loop advances by local calendar days and formats the date
    in UTC; from the change of the offset on it reaches the same UTC day
    twice and stops one day early.  The last day of the range is a key
    of none of the mappings, and the issue created on that day is not
    counted, although its date is within the range. *)
Theorem calculateDailyCounts_misses_last_day :
  match calculateDailyCounts Hosts.cet 100 [sample.lastDay] "2026-01-30" "2026-03-30" with
  | Returns data =>
      DailyCounts.assigned data !! "2026-03-30" = None
      ∧ DailyCounts.closed data !! "2026-03-30" = None
      ∧ DailyCounts.merged_prs data !! "2026-03-30" = None
      ∧ DailyCounts.open_prs data !! "2026-03-30" = None
      ∧ DailyCounts.assigned data !! "2026-03-29" = Some 0
      ∧ size (DailyCounts.assigned data) = 59%nat
  | _ => False
  end
  ∧ match calculateDailyCounts Hosts.utc 100 [sample.lastDay] "2026-01-30" "2026-03-30" with
    | Returns data =>
        DailyCounts.assigned data !! "2026-03-30" = Some 1
        ∧ DailyCounts.open_prs data !! "2026-03-30" = Some 1
        ∧ size (DailyCounts.assigned data) = 60%nat
    | _ => False
    end.
Proof. vm_compute. repeat split; reflexivity. Qed.

(** C9, at the input where the code departs from it: the call that
    the application makes, on a host whose summer time starts within the
    range, for a project with two pull requests that were closed on
    30 March 2026, the last day of the range, one of them merged.  The
    loop that sets the entries stops one day early (see C8), so that
    [merged_prs] has no entry for that day and the two pull requests
    are not counted; on a host at UTC the entry is 2. *)
Theorem calculateDailyCounts_merged_prs_last_day :
  match calculateDailyCounts Hosts.cet 100 [sample2.closedLastDay]
          "2026-01-30" "2026-03-30" with
  | Returns data =>
      DailyCounts.merged_prs data !! "2026-03-30" = None
      ∧ DailyCounts.merged_prs data !! "2026-03-29" = Some 0
  | _ => False
  end
  ∧ count (closedOn Hosts.cet "2026-03-30") (allPrs [sample2.closedLastDay]) = 2
  ∧ match calculateDailyCounts Hosts.utc 100 [sample2.closedLastDay]
            "2026-01-30" "2026-03-30" with
    | Returns data => DailyCounts.merged_prs data !! "2026-03-30" = Some 2
    | _ => False
    end.
Proof. vm_compute. repeat split; reflexivity. Qed.

(** X26: when the call returns, the entry of a day in [merged_prs] is
    the number of pull requests that are closed and whose closing
    timestamp falls on that day, whether they carry a merge timestamp or
    not.  The call does return, with an entry for every day of the
    range, on a host at a constant offset from UTC, for a range of two
    dates and valid timestamps. *)
Theorem calculateDailyCounts_merged_prs
    (h : Host) (fuel : nat) (projects : list Project.t)
    (startDateStr endDateStr : string) :
  (∀ data k n,
     calculateDailyCounts h fuel projects startDateStr endDateStr = Returns data →
     DailyCounts.merged_prs data !! k = Some n →
     n = count (closedOn h k) (allPrs projects))
  ∧ (∀ d0 d1,
       fixedOffset h →
       new_Date h (Str startDateStr) = Some (MakeDate d0 0) →
       new_Date h (Str endDateStr) = Some (MakeDate d1 0) →
       (Z.to_nat (d1 - d0 + 1) < fuel)%nat →
       forallb (datedProject h) projects = true →
       ∃ data,
         calculateDailyCounts h fuel projects startDateStr endDateStr
         = Returns data
         ∧ ∀ d, d0 <= d <= d1 →
             DailyCounts.merged_prs data !! dayString d
             = Some (count (closedOn h (dayString d)) (allPrs projects))).
Proof.
  assert (Hpartial : ∀ data k n,
            calculateDailyCounts h fuel projects startDateStr endDateStr
            = Returns data →
            DailyCounts.merged_prs data !! k = Some n →
            n = count (closedOn h k) (allPrs projects)).
  { intros data k n. unfold calculateDailyCounts.
    destruct (initDays h fuel _ _ emptyCounts) as [data0| |] eqn:Hinit;
      simpl; try discriminate.
    intros Hrun Hk.
    rewrite (forEach_countProject_merged h _ _ _ k Hrun) in Hk.
    destruct (DailyCounts.merged_prs data0 !! k) as [n0|] eqn:H0;
      simpl in Hk; [|discriminate].
    assert (n0 = 0) as ->.
    { apply (initDays_allZero h _ _ _ _ _ Hinit) with (k := k); [|done].
      intros k' n'. simpl. by rewrite lookup_empty. }
    inversion Hk. lia. }
  split; [exact Hpartial|].
  intros d0 d1 Hh Hs He Hfuel Hdated.
  destruct (calculateDailyCounts_keys h fuel projects startDateStr endDateStr
              d0 d1 Hh Hs He Hfuel Hdated) as (data & Hrun & _ & _ & Hm & _).
  exists data. split; [done|]. intros d Hd.
  assert (Hin : dayString d ∈ dom (DailyCounts.merged_prs data))
    by (apply Hm; eauto).
  apply elem_of_dom in Hin as [n Hn]. rewrite Hn. f_equal.
  by apply (Hpartial data).
Qed.

Lemma calculateDailyCounts_merged_prs_witness :
  ∃ data,
    calculateDailyCounts Hosts.utc 100 [sample.tracker] "2026-01-30" "2026-03-30"
    = Returns data
    ∧ DailyCounts.merged_prs data !! "2026-02-10" = Some 2
    ∧ DailyCounts.merged_prs data !! "2026-02-11" = Some 0.
Proof.
  destruct (proj2 (calculateDailyCounts_merged_prs Hosts.utc 100 [sample.tracker]
                     "2026-01-30" "2026-03-30")
              20483 20542) as (data & Hrun & Hm).
  - exists 0. reflexivity.
  - vm_compute. reflexivity.
  - vm_compute. reflexivity.
  - vm_compute. lia.
  - vm_compute. reflexivity.
  - exists data. split; [exact Hrun|]. split.
    + apply (Hm 20494). lia.
    + apply (Hm 20495). lia.
Defined.

End DailyClaims.

(* ================================================================== *)
(** * The filter *)
(* ================================================================== *)

Section FilterClaims.
Import Js filters aux.

Lemma reads_app (σ σ' : store) (a : list ref) : valid σ a → reads (σ ++ σ') a = reads σ a.
Proof.
  induction a as [|r a IH]; intros Hv; cbn [reads]; [done|].
  rewrite lookup_app_l by (apply Hv; by left).
  rewrite IH; [done|]. intros r' Hr'. apply Hv. by right.
Qed.

Lemma reads_length σ a : valid σ a → length (reads σ a) = length a.
Proof.
  induction a as [|r a IH]; intros Hv; cbn [reads]; [done|].
  destruct (lookup_lt_is_Some_2 σ r (Hv r (or_introl eq_refl))) as [p ->].
  cbn [length]. rewrite IH; [done|]. intros r' Hr'. apply Hv. by right.
Qed.

(** What [map] does to the store: the records of the array are read,
    the new records are created after the existing ones, in order, and
    the array of their references is returned. *)
Lemma Array_map_spec f a σ :
  valid σ a →
  Array_map f a σ
  = Some (seq (length σ) (length a), σ ++ List.map f (reads σ a)).
Proof.
  revert σ. induction a as [|r a IH]; intros σ Hv; cbn [Array_map reads].
  - by rewrite app_nil_r.
  - destruct (lookup_lt_is_Some_2 σ r (Hv r (or_introl eq_refl))) as [p Hp].
    assert (Hv' : valid σ a) by (intros r' Hr'; apply Hv; by right).
    rewrite Hp. cbn [mbind option_bind].
    rewrite IH.
    + cbn [mbind option_bind]. rewrite reads_app by done.
      rewrite length_app. simpl.
      rewrite Nat.add_1_r, <- app_assoc. done.
    + intros r' Hr'. rewrite length_app. specialize (Hv' r' Hr'). lia.
Qed.

Lemma statsOf_new (f : Project.t → Project.t) (σ : store) (ps : list Project.t) n :
  n = length σ →
  statsOf (σ ++ List.map f ps) (seq n (length ps))
  = List.map (fun p => Project.filteredStats (f p)) ps.
Proof.
  intros ->. unfold statsOf. revert σ.
  induction ps as [|p ps IH]; intros σ; simpl; [done|].
  rewrite lookup_app_r by lia. rewrite Nat.sub_diag. simpl. f_equal.
  specialize (IH (σ ++ [f p])). rewrite <- app_assoc in IH. simpl in IH.
  rewrite length_app in IH. simpl in IH. rewrite Nat.add_1_r in IH. exact IH.
Qed.

Lemma statsOf_app (σ σ' : store) (a : list ref) : valid σ a → statsOf (σ ++ σ') a = statsOf σ a.
Proof.
  unfold statsOf. intros Hv. apply map_ext_in. intros r Hr.
  by rewrite lookup_app_l by (by apply Hv).
Qed.

Lemma valid_seq (σ σ' : store) n : (n = length σ')%nat → valid (σ ++ σ') (seq (length σ) n).
Proof.
  intros -> r Hr. apply in_seq in Hr. rewrite length_app. lia.
Qed.

(** C10: two calls of [applyFilters] in succession with the same
    filters on the same array of projects both return; the records that
    the caller supplied are the same in the store after the two calls,
    each call having created its records after all the existing ones; and
    the filtered statistics of the records of the second call are those
    of the records of the first, namely those of the filtered issues of
    the caller's projects. *)
Theorem applyFilters_idempotent
    (σ : store) (projects : list ref) (filters : Filters.t) :
  valid σ projects →
  ∃ out1 σ1 out2 σ2,
    applyFilters projects filters σ = Some (out1, σ1)
    ∧ applyFilters projects filters σ1 = Some (out2, σ2)
    ∧ (∀ r, (r < length σ)%nat → σ1 !! r = σ !! r ∧ σ2 !! r = σ !! r)
    ∧ (∀ r, In r out1 → (length σ ≤ r)%nat)
    ∧ (∀ r, In r out2 → (length σ1 ≤ r)%nat)
    ∧ statsOf σ2 out2 = statsOf σ2 out1
    ∧ statsOf σ2 out1 = statsOf σ1 out1
    ∧ statsOf σ1 out1
      = List.map (fun p => Project.filteredStats (extend filters p))
          (reads σ projects).
Proof.
  intros Hv. unfold applyFilters.
  set (f := extend filters). set (ps := reads σ projects).
  assert (Hlen : length ps = length projects) by (by apply reads_length).
  assert (Hv1 : valid (σ ++ List.map f ps) projects).
  { intros r Hr. rewrite length_app. specialize (Hv r Hr). lia. }
  exists (seq (length σ) (length projects)), (σ ++ List.map f ps),
         (seq (length (σ ++ List.map f ps)) (length projects)),
         ((σ ++ List.map f ps) ++ List.map f ps).
  split; [by apply Array_map_spec|].
  split.
  { rewrite Array_map_spec by done. by rewrite reads_app. }
  split.
  { intros r Hr. split.
    - by rewrite lookup_app_l.
    - rewrite <- app_assoc. by rewrite lookup_app_l. }
  split; [intros r Hr; apply in_seq in Hr; lia|].
  split; [intros r Hr; apply in_seq in Hr; lia|].
  assert (H1 : statsOf (σ ++ List.map f ps) (seq (length σ) (length projects))
               = List.map (fun p => Project.filteredStats (f p)) ps).
  { rewrite <- Hlen. by apply statsOf_new. }
  assert (H2 : statsOf ((σ ++ List.map f ps) ++ List.map f ps)
                 (seq (length σ) (length projects))
               = statsOf (σ ++ List.map f ps) (seq (length σ) (length projects))).
  { apply statsOf_app. apply valid_seq. by rewrite length_map. }
  split; [|split; [exact H2 | exact H1]].
  rewrite H2, H1. rewrite <- Hlen. by apply statsOf_new.
Qed.

(** The scenario of the specification: the filter [status = open] on a
    project with three open and two closed issues. *)
Example applyFilters_scenario :
  match applyFilters [0%nat] defaultFilters [sample.mixed] with
  | Some (out, σ') =>
      out = [1%nat]
      ∧ (Stats.total <$> (p ← σ' !! 1%nat; Project.filteredStats p)) = Some 3
      ∧ (Stats.open <$> (p ← σ' !! 1%nat; Project.filteredStats p)) = Some 3
      ∧ (Stats.closed <$> (p ← σ' !! 1%nat; Project.filteredStats p)) = Some 0
      ∧ σ' !! 0%nat = Some sample.mixed
  | None => False
  end.
Proof. vm_compute. repeat split; reflexivity. Qed.

Lemma applyFilters_idempotent_witness :
  ∃ out1 σ1 out2 σ2,
    applyFilters [0%nat; 1%nat] defaultFilters [sample.mixed; sample.tracker]
    = Some (out1, σ1)
    ∧ applyFilters [0%nat; 1%nat] defaultFilters σ1 = Some (out2, σ2)
    ∧ statsOf σ2 out2 = statsOf σ2 out1.
Proof.
  destruct (applyFilters_idempotent [sample.mixed; sample.tracker] [0%nat; 1%nat]
              defaultFilters)
    as (out1 & σ1 & out2 & σ2 & H1 & H2 & _ & _ & _ & H3 & _).
  - intros r [<- | [<- | []]]; simpl; lia.
  - exists out1, σ1, out2, σ2. auto.
Defined.

End FilterClaims.

(* ================================================================== *)
(** * More on the filter *)
(* ================================================================== *)

Section FilterFacts.
Import Js filters aux aux2.

Lemma passes_inert f i : inert f → passes f i = true.
Proof.
  intros (H1 & H2 & H3 & H4 & H5 & H6 & H7). unfold passes.
  apply String.eqb_neq in H1, H2, H3, H4, H5, H6, H7.
  rewrite H1, H2, H3, H4, H5, H6, H7. simpl.
  by rewrite !andb_false_r.
Qed.

Lemma filter_all {A} (p : A → bool) l :
  (∀ x, In x l → p x = true) → List.filter p l = l.
Proof.
  induction l as [|x l IH]; intros H; simpl; [done|].
  rewrite (H x (or_introl eq_refl)), IH; [done|]. intros; apply H; by right.
Qed.

Lemma filterIssues_inert issues f : inert f → filterIssues issues f = issues.
Proof. intros H. apply filter_all. intros; by apply passes_inert. Qed.

(** X1: a value of the filters that no predicate recognises switches
    the predicate off, as [all] does: when none of the four values is a
    recognised one, the filter returns the issues as they are. *)
Theorem filterIssues_unrecognised (issues : list Issue.t) (f : Filters.t) :
  inert f → filterIssues issues f = issues.
Proof. apply filterIssues_inert. Qed.

Lemma filterIssues_unrecognised_witness :
  filterIssues (Project.issues sample.tracker)
    {| Filters.status := "done";
       Filters.assignment := "mine";
       Filters.comments := "some";
       Filters.points := "none";
       Filters.sortBy := "order";
       Filters.sortOrder := "asc";
       Filters.contribSort := "points" |}
  = Project.issues sample.tracker.
Proof.
  apply filterIssues_unrecognised. repeat split; discriminate.
Defined.

Lemma passes_status_open f i :
  Filters.status f = "open" → passes f i = true → isOpen i = true.
Proof.
  unfold passes, isOpen. intros ->. simpl.
  by destruct (String.eqb (Issue.state i) "open").
Qed.

Lemma passes_status_closed f i :
  Filters.status f = "closed" → passes f i = true → isClosed i = true.
Proof.
  unfold passes, isClosed. intros ->. simpl.
  by destruct (String.eqb (Issue.state i) "closed").
Qed.

Lemma filter_none {A} (p : A → bool) l :
  (∀ x, In x l → p x = false) → List.filter p l = [].
Proof.
  induction l as [|x l IH]; intros H; simpl; [done|].
  rewrite (H x (or_introl eq_refl)), IH; [done|]. intros; apply H; by right.
Qed.

Lemma open_not_closed i : isOpen i = true → isClosed i = false.
Proof.
  unfold isOpen, isClosed. intros H%String.eqb_eq. by rewrite H.
Qed.

(** X2: with the status filter on [open] the filtered statistics of a
    project count no closed issue and as many open issues as issues; with
    the status filter on [closed] it is the other way round. *)
Theorem applyFilters_status (f : Filters.t) (p : Project.t) :
  (Filters.status f = "open" →
     Stats.closed (filteredStatsOf f p) = 0
     ∧ Stats.open (filteredStatsOf f p) = Stats.total (filteredStatsOf f p))
  ∧ (Filters.status f = "closed" →
       Stats.open (filteredStatsOf f p) = 0
       ∧ Stats.closed (filteredStatsOf f p) = Stats.total (filteredStatsOf f p)).
Proof.
  unfold filteredStatsOf, extend, count. simpl. split; intros Hs.
  - assert (Hopen : ∀ i, In i (filterIssues (Project.issues p) f) → isOpen i = true).
    { intros i [_ Hi]%filter_In. by apply (passes_status_open f). }
    rewrite (filter_all isOpen) by done.
    rewrite (filter_none isClosed); [done|].
    intros i Hi. by apply open_not_closed, Hopen.
  - assert (Hcl : ∀ i, In i (filterIssues (Project.issues p) f) → isClosed i = true).
    { intros i [_ Hi]%filter_In. by apply (passes_status_closed f). }
    rewrite (filter_all isClosed) by done.
    rewrite (filter_none isOpen); [done|].
    intros i Hi. specialize (Hcl i Hi).
    destruct (isOpen i) eqn:Ho; [|done].
    apply open_not_closed in Ho. congruence.
Qed.

Lemma applyFilters_status_witness :
  Stats.closed (filteredStatsOf defaultFilters sample.mixed) = 0
  ∧ Stats.open (filteredStatsOf defaultFilters sample.mixed)
    = Stats.total (filteredStatsOf defaultFilters sample.mixed).
Proof. apply (proj1 (applyFilters_status defaultFilters sample.mixed)). reflexivity. Defined.

Lemma filter_length_le {A} (p : A → bool) l :
  (length (List.filter p l) ≤ length l)%nat.
Proof. induction l as [|x l IH]; simpl; [lia|]. destruct (p x); simpl; lia. Qed.

Lemma filter_disjoint_length {A} (p q : A → bool) l :
  (∀ x, p x = true → q x = false) →
  (length (List.filter p l) + length (List.filter q l) ≤ length l)%nat.
Proof.
  intros H. induction l as [|x l IH]; simpl; [lia|].
  destruct (p x) eqn:Hp; [rewrite (H x Hp)|destruct (q x)]; simpl; lia.
Qed.

Lemma filter_cover_length {A} (p q : A → bool) l :
  (∀ x, p x = true → q x = false) →
  (∀ x, In x l → p x = true ∨ q x = true) →
  (length (List.filter p l) + length (List.filter q l) = length l)%nat.
Proof.
  intros H. induction l as [|x l IH]; intros Hc; simpl; [lia|].
  assert (IH' := IH (fun y Hy => Hc y (or_intror Hy))).
  destruct (Hc x (or_introl eq_refl)) as [Hp | Hq].
  - rewrite Hp, (H x Hp). simpl. lia.
  - destruct (p x) eqn:Hp; [rewrite (H x Hp) in Hq; discriminate|].
    rewrite Hq. simpl. lia.
Qed.

(** X3: the filtered statistics of a project are consistent, whatever
    the filters: the total is the number of issues that pass, at most the
    number of issues of the project; open and closed issues together, and
    the assigned ones, are at most the total; and when every issue of the
    project is open or closed, open and closed add up to the total. *)
Theorem applyFilters_stats (f : Filters.t) (p : Project.t) :
  let s := filteredStatsOf f p in
  Project.filteredIssues (extend f p) = Some (filterIssues (Project.issues p) f)
  ∧ Stats.total s = Z.of_nat (length (filterIssues (Project.issues p) f))
  ∧ Stats.total s <= Z.of_nat (length (Project.issues p))
  ∧ 0 <= Stats.open s ∧ 0 <= Stats.closed s
  ∧ Stats.open s + Stats.closed s <= Stats.total s
  ∧ 0 <= Stats.assigned s <= Stats.total s
  ∧ ((∀ i, In i (Project.issues p) →
           Issue.state i = "open" ∨ Issue.state i = "closed") →
     Stats.open s + Stats.closed s = Stats.total s).
Proof.
  unfold filteredStatsOf, extend, count. simpl.
  set (l := filterIssues (Project.issues p) f).
  pose proof (filter_length_le (passes f) (Project.issues p)) as H1.
  pose proof (filter_disjoint_length isOpen isClosed l open_not_closed) as H2.
  pose proof (filter_length_le hasAssignee l) as H3.
  fold (filterIssues (Project.issues p) f) in H1. fold l in H1.
  repeat split; try lia.
  intros Hst.
  pose proof (filter_cover_length isOpen isClosed l open_not_closed) as H4.
  rewrite <- Nat2Z.inj_add, H4; [done|].
  intros i [Hi _]%filter_In. unfold isOpen, isClosed.
  destruct (Hst i Hi) as [-> | ->]; auto.
Qed.

Lemma applyFilters_stats_witness :
  Stats.open (filteredStatsOf allFilters sample.mixed)
  + Stats.closed (filteredStatsOf allFilters sample.mixed)
  = Stats.total (filteredStatsOf allFilters sample.mixed).
Proof.
  apply (applyFilters_stats allFilters sample.mixed).
  intros i Hi. vm_compute in Hi.
  destruct Hi as [<- | [<- | [<- | [<- | [<- | []]]]]]; auto.
Defined.

Lemma reads_new (f : Project.t → Project.t) (σ : store) (ps : list Project.t) :
  reads (σ ++ List.map f ps) (seq (length σ) (length ps)) = List.map f ps.
Proof.
  revert σ. induction ps as [|p ps IH]; intros σ; [done|].
  cbn [length seq reads List.map].
  rewrite lookup_app_r by lia. rewrite Nat.sub_diag. cbn [lookup list_lookup].
  f_equal. specialize (IH (σ ++ [f p])).
  rewrite <- app_assoc, length_app in IH. cbn [length app] in IH.
  rewrite Nat.add_1_r in IH. exact IH.
Qed.

Lemma extend_extend f1 f2 p : extend f2 (extend f1 p) = extend f2 p.
Proof. reflexivity. Qed.

(** X4: filters do not accumulate.  Applying filters to the records
    that an earlier call of [applyFilters] has returned gives the records
    that the same filters give on the caller's projects: each call filters
    the issues of the project afresh, not the issues that passed before. *)
Theorem applyFilters_restarts
    (σ : store) (projects : list ref) (f1 f2 : Filters.t) :
  valid σ projects →
  ∃ out1 σ1 out2 σ2,
    applyFilters projects f1 σ = Some (out1, σ1)
    ∧ applyFilters out1 f2 σ1 = Some (out2, σ2)
    ∧ reads σ1 out1 = List.map (extend f1) (reads σ projects)
    ∧ reads σ2 out2 = List.map (extend f2) (reads σ projects).
Proof.
  intros Hv. unfold applyFilters.
  set (ps := reads σ projects).
  assert (Hlen : length ps = length projects) by (by apply reads_length).
  rewrite (Array_map_spec _ _ _ Hv). fold ps.
  assert (Hr1 : reads (σ ++ List.map (extend f1) ps)
                  (seq (length σ) (length projects))
                = List.map (extend f1) ps).
  { rewrite <- Hlen. apply reads_new. }
  assert (Hv1 : valid (σ ++ List.map (extend f1) ps)
                  (seq (length σ) (length projects))).
  { apply valid_seq. by rewrite length_map. }
  do 4 eexists. split; [reflexivity|].
  rewrite (Array_map_spec _ _ _ Hv1), Hr1.
  split; [reflexivity|]. split; [reflexivity|].
  rewrite length_seq, <- Hlen.
  replace (length ps)
    with (length (List.map (extend f1) ps))
    by (by rewrite !length_map).
  rewrite reads_new, map_map. apply map_ext. intros; apply extend_extend.
Qed.

Lemma applyFilters_restarts_witness :
  ∃ out1 σ1 out2 σ2,
    applyFilters [0%nat; 1%nat] defaultFilters [sample.mixed; sample.tracker]
    = Some (out1, σ1)
    ∧ applyFilters out1 allFilters σ1 = Some (out2, σ2)
    ∧ reads σ2 out2 = [extend allFilters sample.mixed; extend allFilters sample.tracker].
Proof.
  destruct (applyFilters_restarts [sample.mixed; sample.tracker] [0%nat; 1%nat]
              defaultFilters allFilters)
    as (out1 & σ1 & out2 & σ2 & H1 & H2 & _ & H3).
  - intros r [<- | [<- | []]]; simpl; lia.
  - exists out1, σ1, out2, σ2. auto.
Defined.

End FilterFacts.

(* ================================================================== *)
(** * The order and the visibility of the projects *)
(* ================================================================== *)

Section SortGeneral.
Import Js.
Context {A : Type}.
Implicit Types (cmp : A → A → Z) (l : list A).

Lemma insert_perm cmp x l : Permutation (insert cmp x l) (x :: l).
Proof.
  induction l as [|y l IH]; simpl; [done|].
  destruct (cmp x y <=? 0); [done|].
  rewrite IH. apply perm_swap.
Qed.

Lemma sort_perm cmp l : Permutation (sort cmp l) l.
Proof.
  induction l as [|x l IH]; simpl; [done|].
  rewrite insert_perm. by constructor.
Qed.

Lemma insert_ext cmp1 cmp2 x l :
  (∀ y, In y l → cmp1 x y = cmp2 x y) → insert cmp1 x l = insert cmp2 x l.
Proof.
  induction l as [|y l IH]; intros H; simpl; [done|].
  rewrite (H y (or_introl eq_refl)), IH; [done|]. intros; apply H; by right.
Qed.

Lemma sort_ext cmp1 cmp2 l :
  (∀ x y, In x l → In y l → cmp1 x y = cmp2 x y) → sort cmp1 l = sort cmp2 l.
Proof.
  induction l as [|x l IH]; intros H; [done|].
  cbn [sort foldr]. fold (sort cmp1 l). fold (sort cmp2 l).
  rewrite IH by (intros; apply H; by right).
  apply insert_ext. intros y Hy. apply H; [by left|]. right.
  by apply (Permutation_in _ (sort_perm cmp2 l)).
Qed.

Lemma StronglySorted_mono (R1 R2 : A → A → Prop) l :
  (∀ x y, R1 x y → R2 x y) → StronglySorted R1 l → StronglySorted R2 l.
Proof.
  intros H. induction 1 as [|x l Hs IH Hx]; constructor; [done|].
  eapply Forall_impl; [exact Hx | auto].
Qed.

Lemma StronglySorted_filter (R : A → A → Prop) (p : A → bool) l :
  StronglySorted R l → StronglySorted R (List.filter p l).
Proof.
  induction 1 as [|x l Hs IH Hx]; simpl; [constructor|].
  destruct (p x); [|done]. constructor; [done|].
  rewrite List.Forall_forall in *. intros y [Hy _]%filter_In. by apply Hx.
Qed.

Lemma insert_top (key : A → Z) x l :
  (∀ z, In z l → key z <= key x) →
  insert (aux.descending key) x l = x :: l.
Proof.
  destruct l as [|z l]; [done|]. intros H. cbn [insert]. unfold aux.descending.
  specialize (H z (or_introl eq_refl)).
  destruct (Z.leb_spec (key z - key x) 0); [done | lia].
Qed.

Lemma insert_skip (key : A → Z) x y l :
  key x < key y →
  insert (aux.descending key) x (y :: l)
  = y :: insert (aux.descending key) x l.
Proof.
  intros H. cbn [insert]. unfold aux.descending at 1.
  destruct (Z.leb_spec (key y - key x) 0); [lia | done].
Qed.

(** Filtering commutes with the sort in descending order of a key. *)
Lemma filter_insert (key : A → Z) (p : A → bool) x l :
  StronglySorted (fun a b => key b <= key a) l →
  List.filter p (insert (aux.descending key) x l)
  = if p x then insert (aux.descending key) x (List.filter p l)
    else List.filter p l.
Proof.
  induction 1 as [|y l Hs IH Hy]; [simpl; by destruct (p x)|].
  cbn [insert]. unfold aux.descending at 1.
  destruct (Z.leb_spec (key y - key x) 0) as [Hle|Hgt].
  - change (List.filter p (x :: y :: l))
      with (if p x then x :: List.filter p (y :: l) else List.filter p (y :: l)).
    destruct (p x); [|done]. symmetry. apply insert_top.
    intros z [Hz _]%filter_In.
    destruct Hz as [<- | Hz]; [lia|].
    rewrite List.Forall_forall in Hy. specialize (Hy z Hz). simpl in Hy. lia.
  - cbn [List.filter]. rewrite IH.
    destruct (p y), (p x); try done.
    rewrite insert_skip by lia. done.
Qed.

Lemma filter_sort (key : A → Z) (p : A → bool) l :
  List.filter p (sort (aux.descending key) l)
  = sort (aux.descending key) (List.filter p l).
Proof.
  induction l as [|x l IH]; [done|].
  cbn [sort foldr]. fold (sort (aux.descending key) l).
  rewrite filter_insert by apply sort_sorted. rewrite IH.
  cbn [List.filter]. by destruct (p x).
Qed.

End SortGeneral.

Section Ordering.
Import Js filters aux aux2 ordering.
Variable localeCompare : string → string → Z.

(** The comparison function on projects whose sort value is a number. *)
Lemma compare_asc sortBy a b :
  String.eqb sortBy "name" = false →
  sortValue sortBy a ≠ NaN → sortValue sortBy b ≠ NaN →
  compare localeCompare sortBy "asc" a b
  = descending (fun p => - sortKey sortBy p) a b.
Proof.
  intros Hn Ha Hb. unfold compare, descending, sortKey. rewrite Hn. simpl.
  destruct (sortValue sortBy a), (sortValue sortBy b); try done. simpl. lia.
Qed.

Lemma compare_desc sortBy sortOrder a b :
  String.eqb sortBy "name" = false → String.eqb sortOrder "asc" = false →
  sortValue sortBy a ≠ NaN → sortValue sortBy b ≠ NaN →
  compare localeCompare sortBy sortOrder a b = descending (sortKey sortBy) a b.
Proof.
  intros Hn Ho Ha Hb. unfold compare, descending, sortKey. rewrite Hn, Ho.
  destruct (sortValue sortBy a), (sortValue sortBy b); done.
Qed.

Lemma sortProjects_asc projects sortBy :
  sortBy ≠ "name" →
  (∀ p, In p projects → sortValue sortBy p ≠ NaN) →
  sortProjects localeCompare projects sortBy "asc"
  = sort (descending (fun p => - sortKey sortBy p)) projects.
Proof.
  intros Hn%String.eqb_neq Hv. apply sort_ext. intros a b Ha Hb.
  apply compare_asc; auto.
Qed.

Lemma sortProjects_desc projects sortBy sortOrder :
  sortBy ≠ "name" → sortOrder ≠ "asc" →
  (∀ p, In p projects → sortValue sortBy p ≠ NaN) →
  sortProjects localeCompare projects sortBy sortOrder
  = sort (descending (sortKey sortBy)) projects.
Proof.
  intros Hn%String.eqb_neq Ho%String.eqb_neq Hv. apply sort_ext.
  intros a b Ha Hb. apply compare_desc; auto.
Qed.

(** X5: whatever the sort order, and whatever the host makes of the
    comparison of names, [sortProjects] returns the projects it was
    given, rearranged: none is lost and none is duplicated. *)
Theorem sortProjects_Permutation
    (projects : list Project.t) (sortBy sortOrder : string) :
  Permutation (sortProjects localeCompare projects sortBy sortOrder) projects.
Proof. apply sort_perm. Qed.

(** X6: sorted by a number (any sort order but [name], on projects
    whose value is not NaN) in ascending order, the projects are in
    non-decreasing order of that number, and projects with the same number
    stay in the order in which they were given; an order that the
    [switch] does not know sorts by the configured rank, 999 when it is
    not set. *)
Theorem sortProjects_ascending
    (projects : list Project.t) (sortBy : string) :
  sortBy ≠ "name" →
  (∀ p, In p projects → sortValue sortBy p ≠ NaN) →
  let sorted := sortProjects localeCompare projects sortBy "asc" in
  StronglySorted (fun a b => sortKey sortBy a <= sortKey sortBy b) sorted
  ∧ (∀ v, List.filter (fun p => sortKey sortBy p =? v) sorted
          = List.filter (fun p => sortKey sortBy p =? v) projects)
  ∧ (sortBy ≠ "order" → sortBy ≠ "points" → sortBy ≠ "issues" →
     sortBy ≠ "closed" →
     ∀ p, sortKey sortBy p = default 999 (Project.order p)).
Proof.
  intros Hn Hv sorted. subst sorted. rewrite sortProjects_asc by done.
  split; [|split].
  - eapply StronglySorted_mono; [|apply sort_sorted]. simpl. intros; lia.
  - intros v.
    pose proof (sort_stable (fun p => - sortKey sortBy p) projects (- v)) as Hs.
    unfold sameKey in Hs.
    assert (Hext : ∀ l : list Project.t,
              List.filter (fun p => sortKey sortBy p =? v) l
              = List.filter (fun a => - sortKey sortBy a =? - v) l).
    { intros l. apply filter_ext. intros a.
      destruct (Z.eqb_spec (sortKey sortBy a) v),
        (Z.eqb_spec (- sortKey sortBy a) (- v)); lia || done. }
    rewrite !Hext. exact Hs.
  - intros H1%String.eqb_neq H2%String.eqb_neq H3%String.eqb_neq
      H4%String.eqb_neq p.
    unfold sortKey, sortValue. by rewrite H1, H2, H3, H4.
Qed.

(** X7: with any sort direction other than [asc] the projects are in
    non-increasing order of the number, and projects with the same number
    still stay in the order in which they were given: the descending order
    is not the ascending one reversed. *)
Theorem sortProjects_descending
    (projects : list Project.t) (sortBy sortOrder : string) :
  sortBy ≠ "name" → sortOrder ≠ "asc" →
  (∀ p, In p projects → sortValue sortBy p ≠ NaN) →
  let sorted := sortProjects localeCompare projects sortBy sortOrder in
  StronglySorted (fun a b => sortKey sortBy b <= sortKey sortBy a) sorted
  ∧ ∀ v, List.filter (fun p => sortKey sortBy p =? v) sorted
         = List.filter (fun p => sortKey sortBy p =? v) projects.
Proof.
  intros Hn Ho Hv sorted. subst sorted. rewrite sortProjects_desc by done.
  split; [apply sort_sorted|]. intros v. apply (sort_stable (sortKey sortBy)).
Qed.

Lemma In_getVisibleProjects p projects :
  In p (getVisibleProjects projects) → In p projects.
Proof. unfold getVisibleProjects. by intros [? _]%filter_In. Qed.

(** X8: hiding the projects without issues and sorting by a number
    commute: the visible projects of the sorted list are the sorted list
    of the visible projects. *)
Theorem getVisibleProjects_sortProjects
    (projects : list Project.t) (sortBy sortOrder : string) :
  sortBy ≠ "name" →
  (∀ p, In p projects → sortValue sortBy p ≠ NaN) →
  getVisibleProjects (sortProjects localeCompare projects sortBy sortOrder)
  = sortProjects localeCompare (getVisibleProjects projects) sortBy sortOrder.
Proof.
  intros Hn Hv.
  assert (Hv' : ∀ p, In p (getVisibleProjects projects) →
                     sortValue sortBy p ≠ NaN)
    by (intros p Hp; by apply Hv, In_getVisibleProjects).
  destruct (String.eqb_spec sortOrder "asc") as [->|Ho].
  - rewrite !sortProjects_asc by done. apply filter_sort.
  - rewrite !sortProjects_desc by done. apply filter_sort.
Qed.

Lemma visible_extend f p :
  visible (extend f p) = true
  ↔ ∃ i, In i (Project.issues p) ∧ passes f i = true.
Proof.
  unfold visible, stat, extend. simpl. unfold filterIssues.
  destruct (List.filter (passes f) (Project.issues p)) as [|i l] eqn:Hf.
  - simpl. split; [discriminate|]. intros (i & Hi & Hp).
    assert (In i (List.filter (passes f) (Project.issues p)))
      by (by apply filter_In).
    rewrite Hf in H. destruct H.
  - split; [intros _|intros _; apply Z.ltb_lt; simpl length; lia].
    exists i. apply (filter_In (passes f)). rewrite Hf. by left.
Qed.

(** X9: what the page shows of the projects.  After the filters
    ([applyFilters]), the sort and [getVisibleProjects], the list holds
    the extended record of a project exactly when an issue of the project
    passes the filters; the other projects are hidden. *)
Theorem render_projects
    (projects : list Project.t) (f : Filters.t) (q : Project.t) :
  In q (getVisibleProjects
          (sortProjects localeCompare (List.map (extend f) projects)
             (Filters.sortBy f) (Filters.sortOrder f)))
  ↔ ∃ p, In p projects ∧ q = extend f p
         ∧ ∃ i, In i (Project.issues p) ∧ passes f i = true.
Proof.
  unfold getVisibleProjects. rewrite filter_In.
  split.
  - intros [Hin Hvis].
    apply (Permutation_in _ (sort_perm _ _)) in Hin.
    apply in_map_iff in Hin as (p & <- & Hp).
    exists p. split; [done|]. split; [done|]. by apply visible_extend.
  - intros (p & Hp & -> & Hi). split; [|by apply visible_extend].
    apply (Permutation_in _ (Permutation_sym (sort_perm _ _))).
    by apply in_map.
Qed.

End Ordering.

Section OrderingWitnesses.
Import Js filters aux aux2 ordering.

Lemma sortProjects_ascending_witness :
  StronglySorted
    (fun a b => sortKey "issues" a <= sortKey "issues" b)
    (sortProjects codeUnitCompare [sample.tracker; sample.mixed; sample.lastDay]
       "issues" "asc").
Proof.
  apply (sortProjects_ascending codeUnitCompare [sample.tracker; sample.mixed; sample.lastDay]
           "issues").
  - discriminate.
  - intros p _. unfold sortValue. simpl. discriminate.
Defined.

Lemma sortProjects_descending_witness :
  StronglySorted
    (fun a b => sortKey "closed" b <= sortKey "closed" a)
    (sortProjects codeUnitCompare [sample.tracker; sample.mixed; sample.lastDay]
       "closed" "desc").
Proof.
  apply (sortProjects_descending codeUnitCompare [sample.tracker; sample.mixed; sample.lastDay]
           "closed" "desc").
  - discriminate.
  - discriminate.
  - intros p _. unfold sortValue. simpl. discriminate.
Defined.

Lemma getVisibleProjects_sortProjects_witness :
  getVisibleProjects
    (sortProjects codeUnitCompare
       (List.map (extend defaultFilters)
          [sample.tracker; sample.mixed; sample.lastDay]) "issues" "desc")
  = sortProjects codeUnitCompare
      (getVisibleProjects
         (List.map (extend defaultFilters)
            [sample.tracker; sample.mixed; sample.lastDay])) "issues" "desc".
Proof.
  apply getVisibleProjects_sortProjects.
  - discriminate.
  - intros p _. unfold sortValue. simpl. discriminate.
Defined.

End OrderingWitnesses.

(* ================================================================== *)
(** * The projects built from the answers of the API *)
(* ================================================================== *)

Section Fetch.
Import Js api filters aux aux2 fetch.

Lemma parsePoints_nonneg labels :
  ∃ z, parsePointsFromLabels labels = Num z ∧ 0 <= z.
Proof.
  destruct (parsePointsFromLabels_range labels) as (z & Hz & H0 & _). eauto.
Qed.

Lemma In_processIssues h issues T j :
  In j (processIssues h issues T) →
  ∃ i, In i issues ∧ j = process i ∧ retained h T j = true.
Proof.
  unfold processIssues. intros [Hin Hr]%filter_In.
  apply in_map_iff in Hin as (i & <- & Hi). eauto.
Qed.

Lemma fetched_issue net h settings T config i :
  In i (Project.issues (fetchProject net h settings T config)) →
  Issue.isPR i = false ∧ ∃ z, Issue.points i = Num z ∧ 0 <= z.
Proof.
  unfold fetchProject. simpl. intros [Hin Hpr]%filter_In.
  apply negb_true_iff in Hpr. split; [done|].
  apply In_processIssues in Hin as (i0 & _ & -> & _). simpl.
  apply parsePoints_nonneg.
Qed.

(** An issue of a project is a raw record without the marker of a pull
    request, with the points of its labels. *)
Lemma fetched_issue_raw net h settings T config i :
  In i (Project.issues (fetchProject net h settings T config)) →
  Issue.pull_request i = false
  ∧ Issue.points i = parsePointsFromLabels (Issue.labels i)
  ∧ ∃ i0, In i0 (issuesOf net (ProjectConfig.owner config)
                    (ProjectConfig.repo config) (Settings.perPage settings))
          ∧ i = process i0.
Proof.
  unfold fetchProject. simpl. intros [Hin Hpr]%filter_In.
  apply negb_true_iff in Hpr.
  apply In_processIssues in Hin as (i0 & Hi0 & -> & _). simpl in *.
  repeat split; [done|]. by exists i0.
Qed.

Lemma In_fetched net h configs settings p :
  In p (fetchAllProjectsData net h configs settings) →
  ∃ config,
    In config configs
    ∧ p = fetchProject net h settings
            (new_Date h (Settings.thresholdDate settings)) config.
Proof.
  unfold fetchAllProjectsData. intros (c & <- & Hc)%in_map_iff. eauto.
Qed.

(** X10: the issues of the projects that [fetchAllProjectsData]
    builds are issues proper: each is the processed copy of a record of
    the API that does not carry the marker of a pull request, and its
    points are those of its labels, a number that is not negative (an
    integer, or Infinity).  So on these projects the collected points
    of the global statistics never exceed the total points, whatever the
    threshold. *)
Theorem fetchAllProjectsData_issues
    (net : Network) (h : Host) (configs : list ProjectConfig.t)
    (settings : Settings.t) :
  let projects := fetchAllProjectsData net h configs settings in
  (∀ p i, In p projects → In i (Project.issues p) →
          Issue.pull_request i = false ∧ Issue.isPR i = false
          ∧ Issue.points i = parsePointsFromLabels (Issue.labels i)
          ∧ (∃ z, Issue.points i = Num z ∧ 0 <= z <= Infinity)
          ∧ ∃ config i0,
              In config configs
              ∧ In i0 (issuesOf net (ProjectConfig.owner config)
                         (ProjectConfig.repo config)
                         (Settings.perPage settings))
              ∧ Issue.pull_request i0 = false
              ∧ i = process i0)
  ∧ ∀ thresholdDate,
      le (GlobalStats.collectedPoints
            (calculateGlobalStats h projects thresholdDate))
         (GlobalStats.totalPoints
            (calculateGlobalStats h projects thresholdDate)).
Proof.
  intros projects. split.
  - intros p i (c & Hc & ->)%In_fetched Hi.
    destruct (fetched_issue _ _ _ _ _ _ Hi) as [Hpr _].
    destruct (fetched_issue_raw _ _ _ _ _ _ Hi) as (Hraw & Hpts & i0 & Hi0 & ->).
    repeat split; try done.
    + simpl. apply parsePointsFromLabels_range.
    + exists c, i0. repeat split; done.
  - intros T. unfold calculateGlobalStats, sumPoints. simpl.
    apply sumPoints_filter_le; [|lia].
    intros i (p & (c & _ & ->)%In_fetched & Hi)%in_flat_map.
    by apply fetched_issue in Hi as [_ Hi].
Qed.

(** X11: the statistics that [fetchAllProjectsData] stores in a
    project are the filtered statistics that [applyFilters] derives when
    no filter is active. *)
Theorem fetchAllProjectsData_stats
    (net : Network) (h : Host) (configs : list ProjectConfig.t)
    (settings : Settings.t) (f : Filters.t) (p : Project.t) :
  inert f →
  In p (fetchAllProjectsData net h configs settings) →
  Project.filteredStats (extend f p) = Some (Project.stats p)
  ∧ Project.filteredIssues (extend f p) = Some (Project.issues p)
  ∧ Stats.total (Project.stats p) = Z.of_nat (length (Project.issues p)).
Proof.
  intros Hf (c & _ & ->)%In_fetched. unfold extend.
  rewrite filterIssues_inert by done. by simpl.
Qed.

Lemma fetchAllProjectsData_stats_witness :
  match sample2.fetched with
  | p :: _ =>
      Project.filteredStats (extend allFilters p) = Some (Project.stats p)
      ∧ Stats.total (Project.stats p) = 5
  | [] => False
  end.
Proof.
  destruct sample2.fetched as [|p l] eqn:Hf; [vm_compute in Hf; discriminate Hf|].
  assert (Hin : In p sample2.fetched) by (rewrite Hf; by left).
  destruct (fetchAllProjectsData_stats sample2.network Hosts.utc sample2.configs
              sample2.settings allFilters p) as (H1 & _ & _).
  - repeat split; discriminate.
  - exact Hin.
  - split; [exact H1|]. vm_compute in Hf. injection Hf as <- _. reflexivity.
Defined.

Lemma count_app {A} (p : A → bool) l1 l2 :
  count p (l1 ++ l2) = count p l1 + count p l2.
Proof. unfold count. rewrite List.filter_app, length_app. lia. Qed.

Lemma count_flat_map {A B} (p : B → bool) (g : A → list B) l :
  count p (flat_map g l) = spec.sum (fun x => count p (g x)) l.
Proof.
  induction l as [|x l IH]; [done|]. simpl. by rewrite count_app, IH.
Qed.




Lemma sum_ext_in {A} (g1 g2 : A → Z) l :
  (∀ x, In x l → g1 x = g2 x) → spec.sum g1 l = spec.sum g2 l.
Proof.
  induction l as [|x l IH]; intros H; [done|]. simpl.
  rewrite (H x (or_introl eq_refl)), IH; [done|]. intros; apply H; by right.
Qed.


Lemma closedSince_retained h threshold T i :
  Date_parse h EmptyString = None →
  new_Date h threshold = Some T → 0 < T →
  Issue.state i = "closed" →
  retained h (Some T) i = true →
  closedSince h threshold i = true.
Proof.
  intros Hparse HT Hpos Hst. unfold retained, closedSince.
  rewrite Hst, HT. simpl.
  destruct (Issue.closed_at i) as [| |s]; simpl; try done.
  - intros H%Z.leb_le. lia.
  - destruct (String.eqb_spec s EmptyString) as [->|]; simpl; [|done].
    by rewrite Hparse.
Qed.

Lemma closedSince_closed h threshold i :
  closedSince h threshold i = true → isClosed i = true.
Proof.
  unfold closedSince, isClosed.
  by destruct (String.eqb (Issue.state i) "closed").
Qed.

(** X13: with a valid threshold after the epoch, on a host that does
    not read the empty string as a date, every closed issue of the
    projects that [fetchAllProjectsData] builds counts as closed since the
    threshold: the global number of issues closed since the threshold is
    the sum of the closed issues of the projects. *)
Theorem calculateGlobalStats_closedSince
    (net : Network) (h : Host) (configs : list ProjectConfig.t)
    (settings : Settings.t) (T : Z) :
  Date_parse h EmptyString = None →
  new_Date h (Settings.thresholdDate settings) = Some T → 0 < T →
  let projects := fetchAllProjectsData net h configs settings in
  GlobalStats.closedSince
    (calculateGlobalStats h projects (Settings.thresholdDate settings))
  = spec.sum (fun p => Stats.closed (Project.stats p)) projects.
Proof.
  intros Hparse HT Hpos projects. unfold calculateGlobalStats. simpl.
  fold (count (closedSince h (Settings.thresholdDate settings))
          (flat_map Project.issues projects)).
  rewrite count_flat_map. apply sum_ext_in.
  intros p (c & _ & ->)%In_fetched. simpl. unfold count. do 2 f_equal.
  apply filter_ext_in. intros i [Hin _]%filter_In.
  apply In_processIssues in Hin as (i0 & _ & -> & Hret).
  rewrite HT in Hret.
  destruct (closedSince h _ (process i0)) eqn:Hcs.
  - symmetry. by apply (closedSince_closed h (Settings.thresholdDate settings)).
  - destruct (isClosed (process i0)) eqn:Hc; [|done].
    apply String.eqb_eq in Hc.
    by rewrite (closedSince_retained h _ T _ Hparse HT Hpos Hc Hret) in Hcs.
Qed.

Lemma calculateGlobalStats_closedSince_witness :
  GlobalStats.closedSince
    (calculateGlobalStats Hosts.utc sample2.fetched sample.threshold)
  = spec.sum (fun p => Stats.closed (Project.stats p)) sample2.fetched.
Proof.
  apply (calculateGlobalStats_closedSince sample2.network Hosts.utc
           sample2.configs sample2.settings 1769731200000).
  - reflexivity.
  - vm_compute. reflexivity.
  - lia.
Defined.

End Fetch.

(* ================================================================== *)
(** * More on the contributor leaderboard *)
(* ================================================================== *)

Section LeaderboardMore.
Import Js filters aux aux2.
Variables (h : Host) (thresholdDate : field).
Local Abbreviation visitItem := (aux.visitItem h thresholdDate).
Local Abbreviation bucketStep := (aux.bucketStep h thresholdDate).

Lemma credit_closedCount p i c :
  Contributor.closedCount (credit h thresholdDate p i c)
  = Contributor.closedCount c + (if closedSince h thresholdDate i then 1 else 0).
Proof.
  unfold credit, closedSince.
  destruct (String.eqb (Issue.state i) "closed"); simpl; [|lia].
  destruct (truthy (Issue.closed_at i)); simpl; [|lia].
  destruct (Date_ge _ _); simpl; [|lia].
  destruct (Issue.points i) as [|z]; [reflexivity|].
  destruct (0 <? z); reflexivity.
Qed.


Lemma contributorOk_new a : contributorOk (newContributor a).
Proof. unfold contributorOk. simpl. repeat split; try lia; try (intros ? []). Qed.

Lemma contributorOk_credit p i c :
  contributorOk c → contributorOk (credit h thresholdDate p i c).
Proof.
  intros (Hc & Hl & Ht & Hin). unfold contributorOk, credit.
  destruct (String.eqb (Issue.state i) "closed" && truthy (Issue.closed_at i));
    [destruct (Date_ge _ _);
     [destruct (Issue.points i) as [|z];
      [|destruct (Z.ltb_spec 0 z)]|]|];
    simpl; rewrite ?length_app; simpl;
    (repeat split; try lia;
     intros a; rewrite ?in_app_iff; intros Ha; auto;
     destruct Ha as [Ha | Ha]; auto).
Qed.

Lemma bucket_ok k l oc c :
  (∀ c', oc = Some c' → contributorOk c') →
  fold_left (bucketStep k) l oc = Some c → contributorOk c.
Proof.
  revert oc. induction l as [|x l IH]; intros oc Hoc; simpl.
  - intros ->. by apply Hoc.
  - apply IH. unfold aux.bucketStep.
    destruct (Issue.assignee x.2) as [a|]; [|done].
    destruct (String.eqb (User.login a) k); [|done].
    intros c' [= <-]. apply contributorOk_credit.
    destruct oc as [c0|]; simpl; [by apply Hoc | apply contributorOk_new].
Qed.

(** The sum over the contributors of a counter that starts at 0 and
    that the loop body advances by an amount that the issue determines. *)
Lemma sum_visitItem_gen (f : Contributor.t → Z) (δ : Issue.t → Z) m x :
  (∀ a, f (newContributor a) = 0) →
  (∀ p i c, f (credit h thresholdDate p i c) = f c + δ i) →
  spec.sum f (Map_values (visitItem m x))
  = spec.sum f (Map_values m) + (if hasAssignee x.2 then δ x.2 else 0).
Proof.
  intros Hnew Hcredit. unfold aux.visitItem, visit, hasAssignee.
  destruct (Issue.assignee x.2) as [a|]; simpl; [|lia].
  set (u := User.login a). unfold Map_has.
  destruct (Map_get u m) as [c|] eqn:Hget; simpl.
  - rewrite Hget, sum_Map_set, Hget, Hcredit. lia.
  - rewrite Map_get_set_eq, sum_Map_set, Map_get_set_eq.
    rewrite sum_Map_set, Hget, Hcredit, Hnew. lia.
Qed.

Lemma sum_fold_gen (f : Contributor.t → Z) (δ : Issue.t → Z) l m :
  (∀ a, f (newContributor a) = 0) →
  (∀ p i c, f (credit h thresholdDate p i c) = f c + δ i) →
  spec.sum f (Map_values (fold_left visitItem l m))
  = spec.sum f (Map_values m)
    + spec.sum (fun i => if hasAssignee i then δ i else 0) (List.map snd l).
Proof.
  intros Hnew Hcredit. revert m.
  induction l as [|x l IH]; intros m; simpl; [lia|].
  rewrite IH, (sum_visitItem_gen f δ) by done. lia.
Qed.

Lemma sum_leaderboard (f : Contributor.t → Z) (δ : Issue.t → Z) projects sortBy :
  (∀ a, f (newContributor a) = 0) →
  (∀ p i c, f (credit h thresholdDate p i c) = f c + δ i) →
  spec.sum f (buildContributorLeaderboard h projects thresholdDate sortBy)
  = spec.sum (fun i => if hasAssignee i then δ i else 0)
      (flat_map Project.issues projects).
Proof.
  intros Hnew Hcredit.
  rewrite (sum_Permutation _ _ _
             (buildContributorLeaderboard_Permutation h thresholdDate projects sortBy)).
  rewrite collectContributors_items, (sum_fold_gen f δ) by done.
  rewrite items_issues. simpl. lia.
Qed.

Lemma sum_count {A} (p : A → bool) l :
  spec.sum (fun x => if p x then 1 else 0) l = count p l.
Proof.
  unfold count. induction l as [|x l IH]; [done|]. simpl.
  destruct (p x); simpl length; lia.
Qed.

Lemma sum_le {A} (g1 g2 : A → Z) l :
  (∀ x, In x l → g1 x <= g2 x) → spec.sum g1 l <= spec.sum g2 l.
Proof.
  induction l as [|x l IH]; intros H; simpl; [lia|].
  specialize (H x (or_introl eq_refl)) as Hx.
  assert (spec.sum g1 l <= spec.sum g2 l) by (apply IH; intros; apply H; by right).
  lia.
Qed.


(** X14: what the loop keeps true of every contributor of the
    leaderboard: the closed issues counted are among the assigned ones
    (0 <= closedCount <= assignedCount); the closed issues with points are
    at most the closed issues counted, each is one of the assigned issues
    recorded, and each has brought at least one point. *)
Theorem buildContributorLeaderboard_invariant
    (projects : list Project.t) (sortBy : option string) :
  Forall contributorOk
    (buildContributorLeaderboard h projects thresholdDate sortBy).
Proof.
  apply List.Forall_forall. intros c Hc.
  apply (Permutation_in _
           (buildContributorLeaderboard_Permutation h thresholdDate projects sortBy))
    in Hc.
  rewrite collectContributors_items in Hc.
  apply In_Map_values in Hc as (k & Hk).
  by apply (bucket_ok k (items projects) None c).
Qed.

(** X15: the leaderboard and the global statistics agree on the
    assigned issues: the assigned counts of the contributors add up to
    the number of issues with an assignee of the statistics; and the
    closed counts add up to the number of issues that are closed since the
    threshold and have an assignee, at most the number of issues closed
    since the threshold of the statistics. *)
Theorem buildContributorLeaderboard_counts
    (projects : list Project.t) (sortBy : option string) :
  let leaderboard := buildContributorLeaderboard h projects thresholdDate sortBy in
  let g := calculateGlobalStats h projects thresholdDate in
  spec.sum Contributor.assignedCount leaderboard = GlobalStats.withAssignees g
  ∧ spec.sum Contributor.closedCount leaderboard
    = count (fun i => hasAssignee i && closedSince h thresholdDate i)
        (flat_map Project.issues projects)
  ∧ spec.sum Contributor.closedCount leaderboard <= GlobalStats.closedSince g.
Proof.
  intros leaderboard g. subst leaderboard g.
  assert (Hc : spec.sum Contributor.closedCount
                 (buildContributorLeaderboard h projects thresholdDate sortBy)
               = count (fun i => hasAssignee i && closedSince h thresholdDate i)
                   (flat_map Project.issues projects)).
  { rewrite (sum_leaderboard _ (fun i => if closedSince h thresholdDate i then 1 else 0))
      by (done || apply credit_closedCount).
    rewrite <- sum_count. apply sum_ext_in. intros i _.
    by destruct (hasAssignee i), (closedSince h thresholdDate i). }
  split; [|split; [exact Hc|]].
  - rewrite (sum_leaderboard _ (fun _ => 1))
      by (done || apply credit_assignedCount).
    unfold calculateGlobalStats. simpl. apply sum_count.
  - rewrite Hc. unfold calculateGlobalStats. simpl.
    fold (count (closedSince h thresholdDate) (flat_map Project.issues projects)).
    rewrite <- !sum_count. apply sum_le. intros i _.
    destruct (hasAssignee i), (closedSince h thresholdDate i); simpl; lia.
Qed.


End LeaderboardMore.

Section LeaderboardMoreWitnesses.
Import Js filters aux aux2.


End LeaderboardMoreWitnesses.

(* ================================================================== *)
(** * More on the daily counts and the list of a day *)
(* ================================================================== *)

Section DailyMore.
Import Js filters aux aux2.
Variable h : Host.

Lemma shifted_refl k data : shifted k 0 0 0 0 data data.
Proof.
  unfold shifted. repeat split; destruct (_ !! k); simpl; try done; apply (f_equal Some); lia.
Qed.

Lemma shifted_trans k a c m o a' c' m' o' d0 d1 d2 :
  shifted k a c m o d0 d1 → shifted k a' c' m' o' d1 d2 →
  shifted k (a + a') (c + c') (m + m') (o + o') d0 d2.
Proof.
  intros (A1 & C1 & M1 & O1) (A2 & C2 & M2 & O2). unfold shifted.
  rewrite A2, A1, C2, C1, M2, M1, O2, O1.
  clear A1 C1 M1 O1 A2 C2 M2 O2.
  repeat split; destruct (_ !! k); simpl; try done; apply (f_equal Some); lia.
Qed.

Lemma shifted_eq k a c m o a' c' m' o' d0 d1 :
  shifted k a c m o d0 d1 → a = a' → c = c' → m = m' → o = o' →
  shifted k a' c' m' o' d0 d1.
Proof. by intros H <- <- <- <-. Qed.

Ltac shift_entry k :=
  simpl; rewrite ?lookup_bump;
  (destruct (_ !! k); simpl; [|done]); apply (f_equal Some);
  repeat case_bool_decide; (lia || congruence).

Lemma countIssue_shifted k data i data' :
  countIssue h data i = Returns data' →
  shifted k (if createdOn h k i then 1 else 0)
    (if issueClosedOn h k i then 1 else 0) 0 0 data data'.
Proof.
  unfold countIssue, createdOn, issueClosedOn.
  destruct (truthy (Issue.created_at i)); simpl.
  - destruct (dateOf h (Issue.created_at i)) as [dc| |] eqn:Hdc;
      simpl; try discriminate.
    apply dateOf_Returns in Hdc. rewrite Hdc.
    destruct (String.eqb (Issue.state i) "closed" && truthy (Issue.closed_at i));
      simpl.
    + destruct (dateOf h (Issue.closed_at i)) as [dd| |] eqn:Hdd;
        simpl; try discriminate.
      apply dateOf_Returns in Hdd. rewrite Hdd.
      intros [= <-]. unfold shifted. repeat split; shift_entry k.
    + intros [= <-]. unfold shifted. repeat split; shift_entry k.
  - destruct (String.eqb (Issue.state i) "closed" && truthy (Issue.closed_at i));
      simpl.
    + destruct (dateOf h (Issue.closed_at i)) as [dd| |] eqn:Hdd;
        simpl; try discriminate.
      apply dateOf_Returns in Hdd. rewrite Hdd.
      intros [= <-]. unfold shifted. repeat split; shift_entry k.
    + intros [= <-]. unfold shifted. repeat split; shift_entry k.
Qed.

Lemma countPr_shifted k data pr data' :
  countPr h data pr = Returns data' →
  shifted k 0 0 (if closedOn h k pr then 1 else 0)
    (if openOn h k pr then 1 else 0) data data'.
Proof.
  unfold countPr, closedOn, openOn.
  destruct (dateOf h (PullRequest.created_at pr)) as [dc| |] eqn:Hdc;
    simpl; try discriminate.
  apply dateOf_Returns in Hdc. rewrite Hdc.
  destruct (String.eqb (PullRequest.state pr) "closed"
            && truthy (PullRequest.closed_at pr)) eqn:Hc; simpl.
  - destruct (dateOf h (PullRequest.closed_at pr)) as [dd| |] eqn:Hdd;
      simpl; try discriminate.
    apply dateOf_Returns in Hdd. rewrite Hdd.
    apply andb_true_iff in Hc as [Hs _]. apply String.eqb_eq in Hs.
    rewrite Hs. intros [= <-]. unfold shifted. repeat split; shift_entry k.
  - destruct (String.eqb (PullRequest.state pr) "open");
      intros [= <-]; unfold shifted; repeat split; shift_entry k.
Qed.

Lemma forEach_shifted {A} (f : DailyCounts.t → A → outcome DailyCounts.t)
    (a c m o : A → Z) k l data data' :
  (∀ s x s', f s x = Returns s' → shifted k (a x) (c x) (m x) (o x) s s') →
  forEach f l data = Returns data' →
  shifted k (spec.sum a l) (spec.sum c l) (spec.sum m l) (spec.sum o l)
    data data'.
Proof.
  intros Hstep. revert data.
  induction l as [|x l IH]; intros data Hrun; simpl in Hrun.
  - injection Hrun as <-. apply shifted_refl.
  - destruct (f data x) as [d1| |] eqn:Hf; simpl in Hrun; try discriminate.
    simpl. eapply shifted_trans; [by apply Hstep | by apply IH].
Qed.

Lemma sum_zero {A} (l : list A) : spec.sum (fun _ => 0) l = 0.
Proof. induction l as [|x l IH]; simpl; lia. Qed.

Lemma countProject_shifted k data p data' :
  countProject h data p = Returns data' →
  shifted k (count (createdOn h k) (Project.issues p))
    (count (issueClosedOn h k) (Project.issues p))
    (count (closedOn h k) (default [] (Project.prs p)))
    (count (openOn h k) (default [] (Project.prs p))) data data'.
Proof.
  unfold countProject.
  destruct (forEach (countIssue h) (Project.issues p) data) as [d1| |] eqn:Hi;
    simpl; try discriminate.
  apply (forEach_shifted _ _ _ _ _ k _ _ _ (countIssue_shifted k)) in Hi.
  rewrite !sum_count, !sum_zero in Hi.
  destruct (Project.prs p) as [prs|]; simpl.
  - intros Hp.
    apply (forEach_shifted _ _ _ _ _ k _ _ _ (countPr_shifted k)) in Hp.
    rewrite !sum_count, !sum_zero in Hp.
    eapply shifted_eq; [exact (shifted_trans _ _ _ _ _ _ _ _ _ _ _ _ Hi Hp)|..];
      lia.
  - intros [= <-]. eapply shifted_eq; [exact Hi|..]; unfold count; simpl; lia.
Qed.

Lemma forEach_countProject_shifted k projects data data' :
  forEach (countProject h) projects data = Returns data' →
  shifted k (count (createdOn h k) (flat_map Project.issues projects))
    (count (issueClosedOn h k) (flat_map Project.issues projects))
    (count (closedOn h k) (allPrs projects))
    (count (openOn h k) (allPrs projects)) data data'.
Proof.
  intros Hrun.
  apply (forEach_shifted _ _ _ _ _ k _ _ _ (countProject_shifted k)) in Hrun.
  unfold allPrs. by rewrite !count_flat_map.
Qed.

Lemma initDays_allZeros fuel curr end_ data data' :
  initDays h fuel curr end_ data = Returns data' →
  allZeros data → allZeros data'.
Proof.
  revert curr data. induction fuel as [|fuel IH]; intros curr data; simpl;
    [discriminate|].
  destruct (Date_le curr end_); [|by intros [= <-]].
  destruct (toISOString_date curr) as [s|]; [|discriminate].
  intros Hrun Hz. apply (IH _ _ Hrun).
  intros k n. simpl. destruct (decide (s = k)) as [->|Hne].
  - rewrite !lookup_insert_eq. intros [H|[H|[H|H]]]; by injection H as <-.
  - rewrite !lookup_insert_ne by done. apply Hz.
Qed.

Lemma allZeros_empty : allZeros emptyCounts.
Proof.
  intros k n. simpl. rewrite !lookup_empty.
  intros [H|[H|[H|H]]]; discriminate.
Qed.

(** When the call returns, an entry of a mapping is the number of the
    issues or pull requests that the loop counts on that day. *)
Lemma calculateDailyCounts_entries fuel projects startDateStr endDateStr data k n :
  calculateDailyCounts h fuel projects startDateStr endDateStr = Returns data →
  (DailyCounts.assigned data !! k = Some n →
   n = count (createdOn h k) (flat_map Project.issues projects))
  ∧ (DailyCounts.closed data !! k = Some n →
     n = count (issueClosedOn h k) (flat_map Project.issues projects))
  ∧ (DailyCounts.merged_prs data !! k = Some n →
     n = count (closedOn h k) (allPrs projects))
  ∧ (DailyCounts.open_prs data !! k = Some n →
     n = count (openOn h k) (allPrs projects)).
Proof.
  unfold calculateDailyCounts.
  destruct (initDays h fuel _ _ emptyCounts) as [data0| |] eqn:Hinit;
    simpl; try discriminate.
  intros Hrun.
  pose proof (initDays_allZeros _ _ _ _ _ Hinit allZeros_empty) as Hz.
  destruct (forEach_countProject_shifted k _ _ _ Hrun) as (Ha & Hc & Hm & Ho).
  rewrite Ha, Hc, Hm, Ho.
  repeat split.
  - destruct (DailyCounts.assigned data0 !! k) as [n0|] eqn:H0; simpl;
      [|discriminate].
    intros [= <-]. rewrite (Hz k n0) by auto. lia.
  - destruct (DailyCounts.closed data0 !! k) as [n0|] eqn:H0; simpl;
      [|discriminate].
    intros [= <-]. rewrite (Hz k n0) by auto. lia.
  - destruct (DailyCounts.merged_prs data0 !! k) as [n0|] eqn:H0; simpl;
      [|discriminate].
    intros [= <-]. rewrite (Hz k n0) by auto. lia.
  - destruct (DailyCounts.open_prs data0 !! k) as [n0|] eqn:H0; simpl;
      [|discriminate].
    intros [= <-]. rewrite (Hz k n0) by auto. lia.
Qed.

(** ** When the call throws *)

Lemma countIssue_throws data i :
  datedIssue h i = false → countIssue h data i = Throws.
Proof.
  unfold datedIssue, countIssue, dateOf, toISOString_date.
  destruct (truthy (Issue.created_at i)); simpl.
  - destruct (new_Date h (Issue.created_at i)); simpl; [|done].
    destruct (String.eqb (Issue.state i) "closed" && truthy (Issue.closed_at i));
      simpl; [|done].
    by destruct (new_Date h (Issue.closed_at i)).
  - destruct (String.eqb (Issue.state i) "closed" && truthy (Issue.closed_at i));
      simpl; [|done].
    by destruct (new_Date h (Issue.closed_at i)).
Qed.

Lemma countPr_throws data pr :
  datedPr h pr = false → countPr h data pr = Throws.
Proof.
  unfold datedPr, countPr, dateOf, toISOString_date.
  destruct (new_Date h (PullRequest.created_at pr)); simpl; [|done].
  destruct (String.eqb (PullRequest.state pr) "closed"
            && truthy (PullRequest.closed_at pr)); simpl; [|done].
  by destruct (new_Date h (PullRequest.closed_at pr)).
Qed.

Lemma forEach_outcome {A S} (f : S → A → outcome S) l s :
  (∀ s x, In x l → f s x = Throws ∨ ∃ s', f s x = Returns s') →
  forEach f l s = Throws ∨ ∃ s', forEach f l s = Returns s'.
Proof.
  revert s. induction l as [|x l IH]; intros s Hstep; simpl; [eauto|].
  destruct (Hstep s x (or_introl eq_refl)) as [-> | [s1 ->]]; simpl; [auto|].
  apply IH. intros ? ? Hin. apply Hstep. by right.
Qed.

Lemma forEach_throws {A S} (f : S → A → outcome S) l s :
  (∀ s x, In x l → f s x = Throws ∨ ∃ s', f s x = Returns s') →
  (∃ x, In x l ∧ ∀ s, f s x = Throws) →
  forEach f l s = Throws.
Proof.
  revert s. induction l as [|x l IH]; intros s Hstep (y & Hy & Hthrows).
  - destruct Hy.
  - simpl. destruct (Hstep s x (or_introl eq_refl)) as [-> | [s1 Hs1]];
      [done|].
    rewrite Hs1. simpl. destruct Hy as [<- | Hy].
    + rewrite Hthrows in Hs1. discriminate.
    + apply IH; [|eauto]. intros ? ? Hin. apply Hstep. by right.
Qed.

Lemma forallb_false {A} (p : A → bool) l :
  forallb p l = false → ∃ x, In x l ∧ p x = false.
Proof.
  induction l as [|x l IH]; simpl; [discriminate|].
  destruct (p x) eqn:Hx; simpl.
  - intros (y & Hy & Hpy)%IH. eauto.
  - eauto.
Qed.

Lemma countIssue_outcome data i :
  countIssue h data i = Throws ∨ ∃ data', countIssue h data i = Returns data'.
Proof.
  destruct (datedIssue h i) eqn:Hd.
  - right. by apply countIssue_returns.
  - left. by apply countIssue_throws.
Qed.

Lemma countPr_outcome data pr :
  countPr h data pr = Throws ∨ ∃ data', countPr h data pr = Returns data'.
Proof.
  destruct (datedPr h pr) eqn:Hd.
  - right. by apply countPr_returns.
  - left. by apply countPr_throws.
Qed.

Lemma countProject_throws data p :
  datedProject h p = false → countProject h data p = Throws.
Proof.
  unfold datedProject, countProject. intros Hd.
  destruct (forallb (datedIssue h) (Project.issues p)) eqn:Hi; simpl in Hd.
  - destruct (forEach_outcome (countIssue h) (Project.issues p) data)
      as [-> | [d1 ->]]; [intros; apply countIssue_outcome | done |].
    simpl. destruct (Project.prs p) as [prs|]; simpl in Hd; [|discriminate].
    apply forEach_throws; [intros; apply countPr_outcome|].
    apply forallb_false in Hd as (pr & Hpr & Hnd).
    exists pr. split; [done|]. intros s. by apply countPr_throws.
  - rewrite (forEach_throws (countIssue h)); [done | |].
    + intros; apply countIssue_outcome.
    + apply forallb_false in Hi as (i & Hin & Hnd).
      exists i. split; [done|]. intros s. by apply countIssue_throws.
Qed.

Lemma countProject_outcome data p :
  countProject h data p = Throws
  ∨ ∃ data', countProject h data p = Returns data'.
Proof.
  destruct (datedProject h p) eqn:Hd.
  - right. by apply countProject_returns.
  - left. by apply countProject_throws.
Qed.

Lemma forEach_countProject_dated projects data :
  forEach (countProject h) projects data
  = Throws ∧ forallb (datedProject h) projects = false
  ∨ (∃ data', forEach (countProject h) projects data = Returns data'
              ∧ sameKeys data data')
    ∧ forallb (datedProject h) projects = true.
Proof.
  destruct (forallb (datedProject h) projects) eqn:Hd.
  - right. split; [|done].
    destruct (forEach_returns (countProject h) projects data) as [data' Hrun].
    { intros s p Hp. apply countProject_returns.
      rewrite forallb_forall in Hd. auto. }
    exists data'. split; [done|].
    apply (forEach_invariant (countProject h) (sameKeys data) _ _ _
             ltac:(intros ? ? ? _ Hstep Hk; eapply sameKeys_trans;
                   [exact Hk | exact (countProject_keys _ _ _ _ Hstep)])
             Hrun (sameKeys_refl _)).
  - left. split; [|done]. apply forEach_throws.
    + intros; apply countProject_outcome.
    + apply forallb_false in Hd as (p & Hp & Hnd).
      exists p. split; [done|]. intros s. by apply countProject_throws.
Qed.

Lemma calculateDailyCounts_dated fuel projects startDateStr endDateStr data :
  calculateDailyCounts h fuel projects startDateStr endDateStr = Returns data →
  forallb (datedProject h) projects = true.
Proof.
  unfold calculateDailyCounts.
  destruct (initDays h fuel _ _ emptyCounts) as [data0| |]; simpl;
    try discriminate.
  destruct (forEach_countProject_dated projects data0)
    as [[-> _] | [_ Hd]]; [discriminate | done].
Qed.

(** ** The list of a day *)

Lemma dateOf_dated v :
  isSome (new_Date h v) = true →
  ∃ s, dateOf h v = Returns s ∧ toISOString_date (new_Date h v) = Some s.
Proof.
  unfold dateOf, toISOString_date. destruct (new_Date h v); [eauto | done].
Qed.

Lemma eqb_decide (s k : string) :
  String.eqb s k = bool_decide (Some s = Some k).
Proof.
  destruct (String.eqb_spec s k) as [->|Hne]; symmetry.
  - by apply bool_decide_eq_true.
  - apply bool_decide_eq_false. congruence.
Qed.

Lemma dayIssue_assigned date p items i :
  datedIssue h i = true →
  app.dayIssue h date "assigned" p items i
  = Returns (items ++ List.map (fun i => app.mkItem (app.AnIssue i) p)
                        (List.filter (createdOn h date) [i])).
Proof.
  unfold datedIssue, app.dayIssue, createdOn. intros [H1 _]%andb_true_iff.
  cbn [String.eqb Ascii.eqb Bool.eqb andb List.filter].
  destruct (truthy (Issue.created_at i)); cbn [andb negb orb] in *.
  - destruct (dateOf_dated _ H1) as (s & -> & ->). cbn [bind].
    rewrite eqb_decide. destruct (bool_decide _); simpl; by rewrite ?app_nil_r.
  - by rewrite app_nil_r.
Qed.

Lemma dayIssue_closed date p items i :
  datedIssue h i = true →
  app.dayIssue h date "closed" p items i
  = Returns (items ++ List.map (fun i => app.mkItem (app.AnIssue i) p)
                        (List.filter (issueClosedOn h date) [i])).
Proof.
  unfold datedIssue, app.dayIssue, issueClosedOn. intros [_ H2]%andb_true_iff.
  cbn [String.eqb Ascii.eqb Bool.eqb andb List.filter].
  destruct (String.eqb (Issue.state i) "closed" && truthy (Issue.closed_at i));
    cbn [andb negb orb] in *.
  - destruct (dateOf_dated _ H2) as (s & -> & ->). cbn [bind].
    rewrite eqb_decide. destruct (bool_decide _); simpl; by rewrite ?app_nil_r.
  - by rewrite app_nil_r.
Qed.

Lemma dayPr_merged date p items pr :
  datedPr h pr = true →
  app.dayPr h date "merged_prs" p items pr
  = Returns (items ++ List.map (fun pr => app.mkItem (app.APull pr) p)
                        (List.filter (closedOn h date) [pr])).
Proof.
  unfold datedPr, app.dayPr, closedOn. intros [_ H2]%andb_true_iff.
  cbn [String.eqb Ascii.eqb Bool.eqb andb List.filter].
  destruct (String.eqb (PullRequest.state pr) "closed"
            && truthy (PullRequest.closed_at pr));
    cbn [andb negb orb] in *.
  - destruct (dateOf_dated _ H2) as (s & -> & ->). cbn [bind].
    rewrite eqb_decide. destruct (bool_decide _); simpl; by rewrite ?app_nil_r.
  - by rewrite app_nil_r.
Qed.

Lemma dayPr_open date p items pr :
  datedPr h pr = true →
  app.dayPr h date "open_prs" p items pr
  = Returns (items ++ List.map (fun pr => app.mkItem (app.APull pr) p)
                        (List.filter (openOn h date) [pr])).
Proof.
  unfold datedPr, app.dayPr, openOn. intros [H1 _]%andb_true_iff.
  cbn [String.eqb Ascii.eqb Bool.eqb andb List.filter].
  destruct (String.eqb (PullRequest.state pr) "open");
    cbn [andb negb orb] in *.
  - destruct (dateOf_dated _ H1) as (s & -> & ->). cbn [bind].
    rewrite eqb_decide. destruct (bool_decide _); simpl; by rewrite ?app_nil_r.
  - by rewrite app_nil_r.
Qed.

(** A loop whose body appends to the list the elements that it selects. *)
Lemma forEach_select {A B} (f : list B → A → outcome (list B))
    (sel : A → bool) (mk : A → B) l items :
  (∀ items x, In x l →
     f items x = Returns (items ++ List.map mk (List.filter sel [x]))) →
  forEach f l items = Returns (items ++ List.map mk (List.filter sel l)).
Proof.
  revert items. induction l as [|x l IH]; intros items Hstep; simpl.
  - by rewrite app_nil_r.
  - rewrite (Hstep items x (or_introl eq_refl)). simpl.
    rewrite IH by (intros; apply Hstep; by right).
    f_equal. destruct (sel x); simpl; by rewrite <- ?app_assoc.
Qed.

Lemma forEach_skip {A B} (f : list B → A → outcome (list B)) l items :
  (∀ items x, f items x = Returns items) →
  forEach f l items = Returns items.
Proof.
  intros Hstep. induction l as [|x l IH]; simpl; [done|].
  by rewrite Hstep.
Qed.

Lemma dayProject_picked date type items p :
  datedProject h p = true →
  app.dayProject h date type items p = Returns (items ++ picked h date type p).
Proof.
  unfold datedProject. intros [Hi Hp]%andb_true_iff.
  rewrite forallb_forall in Hi, Hp.
  unfold app.dayProject, picked.
  destruct (String.eqb_spec type "assigned") as [->|Ha].
  { cbn [String.eqb Ascii.eqb Bool.eqb andb orb].
    rewrite (forEach_select _ (createdOn h date)
               (fun i => app.mkItem (app.AnIssue i) p))
      by (intros; apply dayIssue_assigned; auto).
    done. }
  destruct (String.eqb_spec type "closed") as [->|Hc].
  { cbn [String.eqb Ascii.eqb Bool.eqb andb orb].
    rewrite (forEach_select _ (issueClosedOn h date)
               (fun i => app.mkItem (app.AnIssue i) p))
      by (intros; apply dayIssue_closed; auto).
    done. }
  cbn [orb bind].
  destruct (String.eqb_spec type "merged_prs") as [->|Hm].
  { cbn [orb]. destruct (Project.prs p) as [prs|]; simpl in Hp |- *.
    - apply (forEach_select _ (closedOn h date)
               (fun pr => app.mkItem (app.APull pr) p)).
      intros; apply dayPr_merged; auto.
    - by rewrite app_nil_r. }
  destruct (String.eqb_spec type "open_prs") as [->|Ho].
  { cbn [orb]. destruct (Project.prs p) as [prs|]; simpl in Hp |- *.
    - apply (forEach_select _ (openOn h date)
               (fun pr => app.mkItem (app.APull pr) p)).
      intros; apply dayPr_open; auto.
    - by rewrite app_nil_r. }
  cbn [orb]. by rewrite app_nil_r.
Qed.

Lemma handleDayClick_picked projects date type :
  forallb (datedProject h) projects = true →
  app.handleDayClick h projects date type
  = Returns (flat_map (picked h date type) projects).
Proof.
  unfold app.handleDayClick. intros Hd. rewrite forallb_forall in Hd.
  change (flat_map (picked h date type) projects)
    with ([] ++ flat_map (picked h date type) projects).
  generalize (@nil app.item) as items.
  induction projects as [|p projects IH]; intros items; simpl.
  - by rewrite app_nil_r.
  - rewrite dayProject_picked by (apply Hd; by left). simpl.
    rewrite IH by (intros; apply Hd; by right).
    by rewrite <- app_assoc.
Qed.

Lemma length_picked date type projects m data :
  bucket type data = Some m →
  Z.of_nat (length (flat_map (picked h date type) projects))
  = (if String.eqb type "assigned"
     then count (createdOn h date) (flat_map Project.issues projects)
     else if String.eqb type "closed"
     then count (issueClosedOn h date) (flat_map Project.issues projects)
     else if String.eqb type "merged_prs"
     then count (closedOn h date) (allPrs projects)
     else count (openOn h date) (allPrs projects)).
Proof.
  unfold bucket, picked, count, allPrs. intros Hb.
  destruct (String.eqb type "assigned");
    [|destruct (String.eqb type "closed");
      [|destruct (String.eqb type "merged_prs");
        [|destruct (String.eqb type "open_prs"); [|discriminate]]]];
    (induction projects as [|p projects IH]; [done|]; simpl;
     rewrite List.filter_app, !length_app, length_map; lia).
Qed.

End DailyMore.

Section DailyExtras.
Import Js filters aux aux2.

(** X17: when the call returns, the entry of a day in [assigned] is
    the number of issues with a creation timestamp that falls on that
    day, the entry in [closed] the number of closed issues whose closing
    timestamp falls on it, and the entry in [open_prs] the number of open
    pull requests created on it.  The call does return, with an entry for
    each day of the range, on a host at a constant offset from UTC, for a
    range of two dates and valid timestamps. *)
Theorem calculateDailyCounts_counts
    (h : Host) (fuel : nat) (projects : list Project.t)
    (startDateStr endDateStr : string) :
  (∀ data k n,
     calculateDailyCounts h fuel projects startDateStr endDateStr = Returns data →
     (DailyCounts.assigned data !! k = Some n →
      n = count (createdOn h k) (flat_map Project.issues projects))
     ∧ (DailyCounts.closed data !! k = Some n →
        n = count (issueClosedOn h k) (flat_map Project.issues projects))
     ∧ (DailyCounts.open_prs data !! k = Some n →
        n = count (openOn h k) (allPrs projects)))
  ∧ (∀ d0 d1,
       fixedOffset h →
       new_Date h (Str startDateStr) = Some (MakeDate d0 0) →
       new_Date h (Str endDateStr) = Some (MakeDate d1 0) →
       (Z.to_nat (d1 - d0 + 1) < fuel)%nat →
       forallb (datedProject h) projects = true →
       ∃ data,
         calculateDailyCounts h fuel projects startDateStr endDateStr
         = Returns data
         ∧ ∀ d, d0 <= d <= d1 →
             DailyCounts.assigned data !! dayString d
             = Some (count (createdOn h (dayString d))
                       (flat_map Project.issues projects))
             ∧ DailyCounts.closed data !! dayString d
               = Some (count (issueClosedOn h (dayString d))
                         (flat_map Project.issues projects))
             ∧ DailyCounts.open_prs data !! dayString d
               = Some (count (openOn h (dayString d)) (allPrs projects))).
Proof.
  split.
  - intros data k n Hrun.
    destruct (calculateDailyCounts_entries h _ _ _ _ _ k n Hrun)
      as (Ha & Hc & _ & Ho).
    auto.
  - intros d0 d1 Hh Hs He Hfuel Hdated.
    destruct (calculateDailyCounts_keys h fuel projects startDateStr endDateStr
                d0 d1 Hh Hs He Hfuel Hdated) as (data & Hrun & Ka & Kc & _ & Ko).
    exists data. split; [done|]. intros d Hd.
    assert (Hin : ∃ d', d0 <= d' <= d1 ∧ dayString d = dayString d') by eauto.
    pose proof (proj2 (Ka _) Hin) as [na Hna]%elem_of_dom.
    pose proof (proj2 (Kc _) Hin) as [nc Hnc]%elem_of_dom.
    pose proof (proj2 (Ko _) Hin) as [no Hno]%elem_of_dom.
    destruct (calculateDailyCounts_entries h _ _ _ _ _ (dayString d) na Hrun)
      as (Ha & _).
    destruct (calculateDailyCounts_entries h _ _ _ _ _ (dayString d) nc Hrun)
      as (_ & Hc & _).
    destruct (calculateDailyCounts_entries h _ _ _ _ _ (dayString d) no Hrun)
      as (_ & _ & _ & Ho).
    rewrite Hna, Hnc, Hno.
    by rewrite <- (Ha Hna), <- (Hc Hnc), <- (Ho Hno).
Qed.

Lemma calculateDailyCounts_counts_witness :
  ∃ data,
    calculateDailyCounts Hosts.utc 100 [sample.tracker] "2026-01-30" "2026-03-30"
    = Returns data
    ∧ DailyCounts.assigned data !! "2026-02-02" = Some 2
    ∧ DailyCounts.closed data !! "2026-02-10" = Some 1
    ∧ DailyCounts.open_prs data !! "2026-02-06" = Some 1.
Proof.
  destruct (proj2 (calculateDailyCounts_counts Hosts.utc 100 [sample.tracker]
                     "2026-01-30" "2026-03-30")
              20483 20542) as (data & Hrun & Hm).
  - exists 0. reflexivity.
  - vm_compute. reflexivity.
  - vm_compute. reflexivity.
  - vm_compute. lia.
  - vm_compute. reflexivity.
  - exists data. split; [exact Hrun|]. split; [|split].
    + apply (Hm 20486). lia.
    + apply (Hm 20494). lia.
    + apply (Hm 20490). lia.
Defined.

(** X18: the call returns only when every timestamp that the loops
    format is a valid date; on a host at a constant offset from UTC and
    for a range of two dates, one issue or pull request with a timestamp
    that is no date makes the whole call throw. *)
Theorem calculateDailyCounts_throws
    (h : Host) (fuel : nat) (projects : list Project.t)
    (startDateStr endDateStr : string) :
  (∀ data,
     calculateDailyCounts h fuel projects startDateStr endDateStr = Returns data →
     forallb (datedProject h) projects = true)
  ∧ (∀ d0 d1,
       fixedOffset h →
       new_Date h (Str startDateStr) = Some (MakeDate d0 0) →
       new_Date h (Str endDateStr) = Some (MakeDate d1 0) →
       (Z.to_nat (d1 - d0 + 1) < fuel)%nat →
       forallb (datedProject h) projects = false →
       calculateDailyCounts h fuel projects startDateStr endDateStr = Throws).
Proof.
  split.
  - intros data. apply calculateDailyCounts_dated.
  - intros d0 d1 Hh Hs He Hfuel Hdated. unfold calculateDailyCounts.
    rewrite Hs, He.
    rewrite initDays_range; try done; try (eapply new_Date_range; eassumption).
    simpl.
    destruct (forEach_countProject_dated h projects
                (initAll (daysOfRange d0 d1) emptyCounts))
      as [[-> _] | [_ Hd]]; [done | congruence].
Qed.

Lemma calculateDailyCounts_throws_witness :
  calculateDailyCounts Hosts.utc 100 [sample.tracker; sample2.undated]
    "2026-01-30" "2026-03-30" = Throws.
Proof.
  apply (proj2 (calculateDailyCounts_throws Hosts.utc 100
                  [sample.tracker; sample2.undated] "2026-01-30" "2026-03-30")
           20483 20542).
  - exists 0. reflexivity.
  - vm_compute. reflexivity.
  - vm_compute. reflexivity.
  - vm_compute. lia.
  - vm_compute. reflexivity.
Defined.

(** X19: when the comparison [start <= end] fails at once, because the
    end is before the start or one of the two strings is no date, the
    loop sets no entry: the call returns four empty mappings whatever
    the projects, unless a timestamp of theirs is no date, and then it
    throws. *)
Theorem calculateDailyCounts_empty_range
    (h : Host) (fuel : nat) (projects : list Project.t)
    (startDateStr endDateStr : string) :
  Date_le (new_Date h (Str startDateStr)) (new_Date h (Str endDateStr)) = false →
  (0 < fuel)%nat →
  calculateDailyCounts h fuel projects startDateStr endDateStr
  = if forallb (datedProject h) projects then Returns emptyCounts else Throws.
Proof.
  intros Hle Hfuel. unfold calculateDailyCounts.
  destruct fuel as [|fuel]; [lia|].
  rewrite initDays_exit by done. simpl.
  destruct (forEach_countProject_dated h projects emptyCounts)
    as [[-> ->] | [(data & -> & Ka & Kc & Km & Ko) ->]]; [done|].
  f_equal. simpl in Ka, Kc, Km, Ko. rewrite dom_empty_L in Ka, Kc, Km, Ko.
  apply dom_empty_iff_L in Ka, Kc, Km, Ko.
  destruct data as [a c m o]. simpl in *. by subst.
Qed.

Lemma calculateDailyCounts_empty_range_witness :
  calculateDailyCounts Hosts.utc 100 [sample.tracker] "2026-03-30" "2026-01-30"
  = Returns emptyCounts
  ∧ calculateDailyCounts Hosts.utc 100 [sample.tracker] "2026-01-30" "later"
    = Returns emptyCounts.
Proof.
  split.
  - apply (calculateDailyCounts_empty_range Hosts.utc 100 [sample.tracker]
             "2026-03-30" "2026-01-30"); [vm_compute; reflexivity | lia].
  - apply (calculateDailyCounts_empty_range Hosts.utc 100 [sample.tracker]
             "2026-01-30" "later"); [vm_compute; reflexivity | lia].
Defined.

(** X20: the list of a day agrees with the heatmap.  When
    [calculateDailyCounts] has returned for the projects, a click on a
    day lists the issues or pull requests that the heatmap of that type
    counts on the day, in the order of the projects; where the heatmap
    has an entry for the day, the entry is the length of the list. *)
Theorem handleDayClick_count
    (h : Host) (fuel : nat) (projects : list Project.t)
    (startDateStr endDateStr : string) (data : DailyCounts.t)
    (date type : string) :
  calculateDailyCounts h fuel projects startDateStr endDateStr = Returns data →
  app.handleDayClick h projects date type
  = Returns (flat_map (picked h date type) projects)
  ∧ ∀ m n, bucket type data = Some m → m !! date = Some n →
      Z.of_nat (length (flat_map (picked h date type) projects)) = n.
Proof.
  intros Hrun. split.
  - apply handleDayClick_picked. by apply (calculateDailyCounts_dated h _ _ _ _ _ Hrun).
  - intros m n Hb Hn. rewrite (length_picked h date type projects m data Hb).
    destruct (calculateDailyCounts_entries h _ _ _ _ _ date n Hrun)
      as (Ha & Hc & Hm & Ho).
    unfold bucket in Hb.
    destruct (String.eqb type "assigned");
      [injection Hb as <-; symmetry; auto|].
    destruct (String.eqb type "closed");
      [injection Hb as <-; symmetry; auto|].
    destruct (String.eqb type "merged_prs");
      [injection Hb as <-; symmetry; auto|].
    destruct (String.eqb type "open_prs");
      [injection Hb as <-; symmetry; auto | discriminate].
Qed.

Lemma handleDayClick_count_witness :
  ∃ items,
    app.handleDayClick Hosts.utc [sample.tracker] "2026-02-10" "merged_prs"
    = Returns items
    ∧ Z.of_nat (length items) = 2.
Proof.
  set (r := calculateDailyCounts Hosts.utc 100 [sample.tracker]
              "2026-02-10" "2026-02-10").
  set (data := match r with Returns d => d | _ => emptyCounts end).
  assert (Hrun : r = Returns data) by (vm_compute; reflexivity).
  destruct (handleDayClick_count Hosts.utc 100 [sample.tracker]
              "2026-02-10" "2026-02-10" data "2026-02-10" "merged_prs" Hrun)
    as [Hret Hlen].
  eexists. split; [exact Hret|].
  apply (Hlen (DailyCounts.merged_prs data)); vm_compute; reflexivity.
Defined.

End DailyExtras.

(* ================================================================== *)
(** * The expanded projects and the token *)
(* ================================================================== *)

Section Toggle.
Import app.

(** X21: a click on a project changes whether that project is
    expanded and nothing else, and a second click on it restores the set
    of expanded projects. *)
Theorem handleProjectToggle_twice
    (projectId : string) (expandedProjects : gset string) :
  handleProjectToggle projectId (handleProjectToggle projectId expandedProjects)
  = expandedProjects
  ∧ (projectId ∈ handleProjectToggle projectId expandedProjects
     ↔ projectId ∉ expandedProjects)
  ∧ ∀ other, other ≠ projectId →
      (other ∈ handleProjectToggle projectId expandedProjects
       ↔ other ∈ expandedProjects).
Proof.
  unfold handleProjectToggle.
  destruct (decide (projectId ∈ expandedProjects)) as [Hin|Hout].
  - rewrite (bool_decide_eq_true_2 _ Hin).
    assert (Hnot : projectId ∉ expandedProjects ∖ {[projectId]}).
    { rewrite elem_of_difference, elem_of_singleton. tauto. }
    rewrite (bool_decide_eq_false_2 _ Hnot).
    split; [|split; [tauto|]].
    + apply set_eq. intros x.
      rewrite elem_of_union, elem_of_difference, elem_of_singleton.
      destruct (decide (x = projectId)) as [->|]; tauto.
    + intros other Hne. rewrite elem_of_difference, elem_of_singleton. tauto.
  - rewrite (bool_decide_eq_false_2 _ Hout).
    assert (Hyes : projectId ∈ expandedProjects ∪ {[projectId]}).
    { rewrite elem_of_union, elem_of_singleton. tauto. }
    rewrite (bool_decide_eq_true_2 _ Hyes).
    split; [|split; [tauto|]].
    + apply set_eq. intros x.
      rewrite elem_of_difference, elem_of_union, elem_of_singleton.
      destruct (decide (x = projectId)) as [->|]; tauto.
    + intros other Hne. rewrite elem_of_union, elem_of_singleton. tauto.
Qed.

End Toggle.

Section Token.
Import Js config aux2.

Lemma headOk_skipSpace s : headOk (skipSpace s).
Proof.
  induction s as [|c s IH]; simpl; [done|].
  destruct (isSpace c) eqn:Hc; [done | exact Hc].
Qed.

Lemma skipSpace_headOk s : headOk s → skipSpace s = s.
Proof. destruct s as [|c s]; simpl; [done|]. by intros ->. Qed.

Lemma skipSpace_split s :
  ∃ ws, s = ws ++ skipSpace s ∧ Forall (fun c => isSpace c = true) ws.
Proof.
  induction s as [|c s (ws & Hs & Hws)]; simpl.
  - exists []. by split.
  - destruct (isSpace c) eqn:Hc.
    + exists (c :: ws). split; [simpl; by f_equal | by constructor].
    + exists []. by split.
Qed.

Lemma headOk_rev_skipSpace_rev t : headOk t → headOk (rev (skipSpace (rev t))).
Proof.
  intros Ht. destruct (skipSpace_split (rev t)) as (ws & Hs & Hws).
  destruct (skipSpace (rev t)) as [|c u] eqn:Hu; [done|].
  assert (Ht' : t = rev (c :: u) ++ rev ws).
  { rewrite <- rev_app_distr, <- Hs. by rewrite rev_involutive. }
  destruct (rev (c :: u)) as [|c' u'] eqn:Hr.
  - apply (f_equal (@length N)) in Hr. rewrite length_rev in Hr. done.
  - rewrite Ht' in Ht. exact Ht.
Qed.

Lemma trim_trim s : trim (trim s) = trim s.
Proof.
  unfold trim.
  rewrite (skipSpace_headOk (rev (skipSpace (rev (skipSpace s)))))
    by apply headOk_rev_skipSpace_rev, headOk_skipSpace.
  rewrite rev_involutive.
  by rewrite (skipSpace_headOk (skipSpace _)) by apply headOk_skipSpace.
Qed.

Lemma nonEmpty_rev s : nonEmpty (rev s) = nonEmpty s.
Proof.
  destruct s as [|c s]; [done|]. simpl.
  destruct (rev s ++ [c]) eqn:H; [|done]. by destruct (rev s).
Qed.

Lemma nonEmpty_skipSpace s :
  nonEmpty (skipSpace s) = existsb (fun c => negb (isSpace c)) s.
Proof.
  induction s as [|c s IH]; simpl; [done|]. by destruct (isSpace c).
Qed.

Lemma existsb_skipSpace s :
  existsb (fun c => negb (isSpace c)) (skipSpace s)
  = existsb (fun c => negb (isSpace c)) s.
Proof.
  induction s as [|c s IH]; simpl; [done|].
  destruct (isSpace c) eqn:Hc; simpl; [done | by rewrite Hc].
Qed.

Lemma existsb_rev' {A} (p : A → bool) l : existsb p (rev l) = existsb p l.
Proof.
  induction l as [|x l IH]; simpl; [done|].
  rewrite existsb_app, IH. simpl. rewrite orb_false_r. apply orb_comm.
Qed.

Lemma nonEmpty_trim s :
  nonEmpty (trim s) = existsb (fun c => negb (isSpace c)) s.
Proof.
  unfold trim.
  by rewrite nonEmpty_rev, nonEmpty_skipSpace, existsb_rev', existsb_skipSpace.
Qed.

Lemma nonEmpty_existsb s :
  nonEmpty s && existsb (fun c => negb (isSpace c)) s
  = existsb (fun c => negb (isSpace c)) s.
Proof. by destruct s. Qed.

Lemma GITHUB_TOKEN_insert v ls :
  nonEmpty v = true → GITHUB_TOKEN (<["github_token" := v]> ls) = v.
Proof. unfold GITHUB_TOKEN. rewrite lookup_insert_eq. by intros ->. Qed.

Lemma GITHUB_TOKEN_delete ls : GITHUB_TOKEN (delete "github_token" ls) = [].
Proof. unfold GITHUB_TOKEN. by rewrite lookup_delete_eq. Qed.

Lemma set_GITHUB_TOKEN_cases value ls :
  (∃ v, value = Some v ∧ nonEmpty (trim v) = true
        ∧ set_GITHUB_TOKEN value ls = <["github_token" := trim v]> ls)
  ∨ (match value with Some v => trim v | None => [] end = []
     ∧ set_GITHUB_TOKEN value ls = delete "github_token" ls).
Proof.
  unfold set_GITHUB_TOKEN. destruct value as [v|]; [|by right].
  destruct (nonEmpty v && nonEmpty (trim v)) eqn:Hv.
  - apply andb_true_iff in Hv as [_ Hv]. left. by exists v.
  - right. split; [|done].
    destruct v as [|c v]; [done|]. simpl in Hv. by destruct (trim (c :: v)).
Qed.

Lemma GITHUB_TOKEN_set value ls :
  GITHUB_TOKEN (set_GITHUB_TOKEN value ls) = []
  ∨ ∃ v, nonEmpty (trim v) = true
         ∧ GITHUB_TOKEN (set_GITHUB_TOKEN value ls) = trim v.
Proof.
  unfold set_GITHUB_TOKEN. destruct value as [v|].
  - destruct (nonEmpty v && nonEmpty (trim v)) eqn:Hv.
    + apply andb_true_iff in Hv as [_ Hv]. right. exists v.
      split; [done|]. by apply GITHUB_TOKEN_insert.
    + left. apply GITHUB_TOKEN_delete.
  - left. apply GITHUB_TOKEN_delete.
Qed.

(** X22: after [config.GITHUB_TOKEN = value] the getter returns the
    value without the white space at its ends, and the empty string
    when the value is [null], empty or blank; no other key of the storage
    changes, and assigning the token that the getter returns changes
    nothing. *)
Theorem GITHUB_TOKEN_round_trip (value : option jstring) (ls : Storage) :
  let ls' := set_GITHUB_TOKEN value ls in
  GITHUB_TOKEN ls' = match value with Some v => trim v | None => [] end
  ∧ (∀ k, k ≠ "github_token" → ls' !! k = ls !! k)
  ∧ set_GITHUB_TOKEN (Some (GITHUB_TOKEN ls')) ls' = ls'.
Proof.
  intros ls'. subst ls'.
  destruct (set_GITHUB_TOKEN_cases value ls) as [(v & -> & Hv & ->) | [-> ->]].
  - rewrite GITHUB_TOKEN_insert by done.
    split; [done|]. split; [intros; by rewrite lookup_insert_ne|].
    unfold set_GITHUB_TOKEN. rewrite trim_trim, Hv. simpl.
    by rewrite insert_insert_eq.
  - rewrite GITHUB_TOKEN_delete.
    split; [done|]. split; [intros; by rewrite lookup_delete_ne|].
    simpl. by rewrite delete_delete_eq.
Qed.

(** X23: the headers of a request are the [Accept] header and, when
    the stored token has a character that is not white space, the
    [Authorization] header with the token as it is stored; after the
    setter the header is there exactly when [hasToken()] holds, and after
    [clearToken()] it is not. *)
Theorem getHeaders_Authorization (ls : Storage) :
  getHeaders ls !! "Accept" = Some (js "application/vnd.github.v3+json")
  ∧ (∀ k, k ≠ "Accept" → k ≠ "Authorization" → getHeaders ls !! k = None)
  ∧ getHeaders ls !! "Authorization"
    = (if existsb (fun c => negb (isSpace c)) (GITHUB_TOKEN ls)
       then Some (js "Bearer " ++ GITHUB_TOKEN ls) else None)
  ∧ (∀ value,
       let ls' := set_GITHUB_TOKEN value ls in
       getHeaders ls' !! "Authorization"
       = if hasToken ls' then Some (js "Bearer " ++ GITHUB_TOKEN ls') else None)
  ∧ hasToken (clearToken ls) = false
  ∧ getHeaders (clearToken ls) !! "Authorization" = None.
Proof.
  assert (Hauth : ∀ ls0, getHeaders ls0 !! "Authorization"
            = (if existsb (fun c => negb (isSpace c)) (GITHUB_TOKEN ls0)
               then Some (js "Bearer " ++ GITHUB_TOKEN ls0) else None)).
  { intros ls0. unfold getHeaders.
    rewrite nonEmpty_trim, nonEmpty_existsb.
    destruct (existsb _ (GITHUB_TOKEN ls0)).
    - by rewrite lookup_insert_eq.
    - by rewrite lookup_singleton_ne. }
  split; [|split; [|split; [apply Hauth | split; [|split]]]].
  - unfold getHeaders.
    destruct (nonEmpty _ && _);
      [rewrite lookup_insert_ne by done|]; by rewrite lookup_singleton_eq.
  - intros k H1 H2. unfold getHeaders.
    destruct (nonEmpty _ && _);
      [rewrite lookup_insert_ne by done|]; by rewrite lookup_singleton_ne.
  - intros value ls'. subst ls'. rewrite Hauth. unfold hasToken.
    destruct (GITHUB_TOKEN_set value ls) as [-> | (v & Hv & ->)];
      [done|].
    by rewrite <- nonEmpty_trim, trim_trim, Hv.
  - unfold hasToken, clearToken. by rewrite GITHUB_TOKEN_delete.
  - rewrite Hauth. unfold clearToken. by rewrite GITHUB_TOKEN_delete.
Qed.

End Token.

(* ================================================================== *)
(** * The groups of pull requests *)
(* ================================================================== *)

Section PullRequestGroups.
Import Js filters aux aux2 ui.
Variable h : Host.

Lemma In_fold_pushGroup s projects groups g :
  In g (fold_left (pushGroup h s) projects groups)
  ↔ In g groups
    ∨ ∃ p prs, In p projects ∧ Project.prs p = Some prs
               ∧ List.filter (keep s) prs ≠ [] ∧ g = groupOf h s p prs.
Proof.
  revert groups. induction projects as [|p projects IH]; intros groups; simpl.
  - split; [auto | intros [H | (? & ? & [] & _)]; done].
  - rewrite IH. unfold pushGroup.
    destruct (Project.prs p) as [prs|] eqn:Hprs.
    + destruct (List.filter (keep s) prs) as [|pr l] eqn:Hf.
      * simpl. split.
        -- intros [H | (p' & prs' & Hin & H)]; [auto|].
           right. exists p', prs'. auto.
        -- intros [H | (p' & prs' & [<- | Hin] & Hp & Hne & Hg)]; [auto | |].
           ++ rewrite Hprs in Hp. injection Hp as <-. by rewrite Hf in Hne.
           ++ right. exists p', prs'. auto.
      * cbn [length]. rewrite (proj2 (Z.ltb_lt 0 _)) by lia.
        rewrite <- Hf. split.
        -- intros [[H | [<- | []]]%in_app_iff | (p' & prs' & Hin & H)]; [auto | |].
           ++ right. exists p, prs. repeat split; auto. rewrite Hf. done.
           ++ right. exists p', prs'. auto.
        -- intros [H | (p' & prs' & [<- | Hin] & Hp & Hne & Hg)].
           ++ left. apply in_app_iff. auto.
           ++ left. apply in_app_iff. right. left.
              rewrite Hprs in Hp. injection Hp as <-. by rewrite Hg.
           ++ right. exists p', prs'. auto.
    + split.
      * intros [H | (p' & prs' & Hin & H)]; [auto|].
        right. exists p', prs'. auto.
      * intros [H | (p' & prs' & [<- | Hin] & Hp & Hne & Hg)]; [auto | |].
        -- rewrite Hprs in Hp. discriminate.
        -- right. exists p', prs'. auto.
Qed.

Lemma In_projectGroups projects prStatus g :
  In g (projectGroups h projects prStatus)
  ↔ ∃ p prs, In p projects ∧ Project.prs p = Some prs
             ∧ List.filter (keep (prStatusOf prStatus)) prs ≠ []
             ∧ g = groupOf h (prStatusOf prStatus) p prs.
Proof.
  unfold projectGroups. rewrite In_fold_pushGroup. simpl. tauto.
Qed.

Lemma byDate_descending prs :
  (∀ pr, In pr prs → isSome (new_Date h (PullRequest.created_at pr)) = true) →
  sort (byDate h) prs = sort (descending (createdTime h)) prs.
Proof.
  intros Hd. apply sort_ext. intros a b Ha Hb.
  unfold byDate, descending, createdTime.
  pose proof (Hd a Ha) as Hva. pose proof (Hd b Hb) as Hvb.
  destruct (new_Date h (PullRequest.created_at a)); [|done].
  by destruct (new_Date h (PullRequest.created_at b)).
Qed.

(** X24: the groups that the list of pull requests shows.  A project
    has a group exactly when it has pull requests of the selected status;
    the group carries the name, the owner and the repository of the
    project and those pull requests, each once, and is never empty.  The
    status ["open"] selects the pull requests whose state is ["open"],
    ["closed"] those whose state is ["closed"]; any other status, a
    missing or an empty one among them, selects every pull request. *)
Theorem projectGroups_groups
    (projects : list Project.t) (prStatus : option string) :
  let selected := List.filter (keep (prStatusOf prStatus)) in
  (∀ g, In g (projectGroups h projects prStatus) →
     Group.prs g ≠ []
     ∧ ∃ p prs, In p projects ∧ Project.prs p = Some prs
                ∧ Group.projectName g = Project.name p
                ∧ Group.owner g = Project.owner p
                ∧ Group.repo g = Project.repo p
                ∧ Permutation (Group.prs g) (selected prs))
  ∧ (∀ p prs, In p projects → Project.prs p = Some prs → selected prs ≠ [] →
       ∃ g, In g (projectGroups h projects prStatus)
            ∧ Group.projectName g = Project.name p
            ∧ Group.owner g = Project.owner p
            ∧ Group.repo g = Project.repo p
            ∧ Permutation (Group.prs g) (selected prs))
  ∧ (prStatus = Some "open" →
     ∀ prs, selected prs
            = List.filter (fun pr => String.eqb (PullRequest.state pr) "open") prs)
  ∧ (prStatus = Some "closed" →
     ∀ prs, selected prs
            = List.filter (fun pr => String.eqb (PullRequest.state pr) "closed") prs)
  ∧ (prStatus ≠ Some "open" → prStatus ≠ Some "closed" →
     ∀ prs, selected prs = prs).
Proof.
  intros selected. subst selected. split; [|split; [|split; [|split]]].
  - intros g (p & prs & Hp & Hprs & Hne & ->)%In_projectGroups. split.
    + simpl. intros Hnil. apply Hne.
      apply Permutation_nil. rewrite <- Hnil. apply sort_perm.
    + exists p, prs. repeat split; try done. apply sort_perm.
  - intros p prs Hp Hprs Hne.
    exists (groupOf h (prStatusOf prStatus) p prs). split.
    + apply In_projectGroups. exists p, prs. auto.
    + repeat split. apply sort_perm.
  - intros -> prs. reflexivity.
  - intros -> prs. reflexivity.
  - intros Ho Hc prs. apply filter_all. intros pr _. unfold keep.
    destruct (String.eqb (prStatusOf prStatus) "all"); [done|].
    destruct (String.eqb_spec (prStatusOf prStatus) "open") as [E|_].
    { exfalso. apply Ho. destruct prStatus as [[|c s]|]; simpl in E;
        try discriminate E. by rewrite E. }
    destruct (String.eqb_spec (prStatusOf prStatus) "closed") as [E|_]; [|done].
    exfalso. apply Hc. destruct prStatus as [[|c s]|]; simpl in E;
      try discriminate E. by rewrite E.
Qed.

(** X25: when the creation timestamps of the pull requests are valid
    dates, the pull requests of every group are listed from the newest
    to the oldest, and those created at the same time keep the order in
    which the project has them. *)
Theorem projectGroups_newest_first
    (projects : list Project.t) (prStatus : option string) :
  (∀ p prs pr, In p projects → Project.prs p = Some prs → In pr prs →
               isSome (new_Date h (PullRequest.created_at pr)) = true) →
  ∀ g, In g (projectGroups h projects prStatus) →
    StronglySorted (fun a b => createdTime h b <= createdTime h a) (Group.prs g)
    ∧ ∃ p prs, In p projects ∧ Project.prs p = Some prs
               ∧ Group.projectName g = Project.name p
               ∧ ∀ t, List.filter (sameKey (createdTime h) t) (Group.prs g)
                      = List.filter (sameKey (createdTime h) t)
                          (List.filter (keep (prStatusOf prStatus)) prs).
Proof.
  intros Hd g (p & prs & Hp & Hprs & Hne & ->)%In_projectGroups.
  assert (Hs : Group.prs (groupOf h (prStatusOf prStatus) p prs)
               = sort (descending (createdTime h))
                   (List.filter (keep (prStatusOf prStatus)) prs)).
  { simpl. apply byDate_descending.
    intros pr [Hpr _]%filter_In. by apply (Hd p prs). }
  rewrite Hs. split; [apply sort_sorted|].
  exists p, prs. repeat split; try done. intros t. apply sort_stable.
Qed.

End PullRequestGroups.

Section PullRequestGroupsWitnesses.
Import Js filters aux aux2 ui.

Lemma projectGroups_newest_first_witness :
  Forall (fun g =>
            StronglySorted
              (fun a b => createdTime Hosts.utc b <= createdTime Hosts.utc a)
              (Group.prs g))
    (projectGroups Hosts.utc [sample.tracker] (Some "closed")).
Proof.
  apply List.Forall_forall. intros g Hg.
  apply (projectGroups_newest_first Hosts.utc [sample.tracker] (Some "closed"));
    [|exact Hg].
  intros p prs pr [<- | []] [= <-] Hpr. vm_compute in Hpr.
  destruct Hpr as [<- | [<- | [<- | []]]]; vm_compute; reflexivity.
Defined.

End PullRequestGroupsWitnesses.
